(** * Statistics combiners of tensorflow_data_validation

    A shallow embedding of the combiner statistics engine
    (statistics/stats_impl.py) and of the top-k and uniques generators
    (statistics/generators/top_k_uniques_stats_generator.py and
    statistics/generators/top_k_uniques_combiner_stats_generator.py),
    followed by theorems about them.

    Conventions of the embedding:
    - Python dicts ([Counter], [defaultdict], accumulators keyed by feature
      path) are [gmap]s, iterated in the order of [map_to_list] where Python
      iterates in insertion order; a proto repeated field is a [list];
    - counts and weights are exact integers ([Z]);
    - a Python function that updates its argument in place and returns it
      is a function from the old value to the new one;
    - a Python function that may raise returns a [result];
    - [random.random()] is an explicit argument: the number it returned. *)

From Stdlib Require Import ZArith QArith Permutation Sorted.
From stdpp Require Import gmap strings list fin_maps pretty.

#[local] Set Warnings "-register-all".

Local Open Scope string_scope.
Local Open Scope Z_scope.
Local Open Scope list_scope.

(** ** Feature values *)

(** A feature path is the sequence of its steps (types.FeaturePath). *)
Definition FeaturePath : Type := list string.

(** The values top-k and uniques are computed on: bytes, unicode text (held
    as its UTF-8 encoding, whose bytewise order is the code point order) and
    the integers of categorical features. *)
Inductive FeatureValue : Type :=
  | BytesValue (b : string)
  | TextValue (s : string)
  | IntValue (z : Z).

Global Instance FeatureValue_eq_dec : EqDecision FeatureValue.
Proof. solve_decision. Defined.

Definition FeatureValue_to_sum (v : FeatureValue) : string + string + Z :=
  match v with
  | BytesValue b => inl (inl b)
  | TextValue s => inl (inr s)
  | IntValue z => inr z
  end.

Definition FeatureValue_of_sum (x : string + string + Z) : FeatureValue :=
  match x with
  | inl (inl b) => BytesValue b
  | inl (inr s) => TextValue s
  | inr z => IntValue z
  end.

Global Instance FeatureValue_countable : Countable FeatureValue.
Proof.
  refine (inj_countable' FeatureValue_to_sum FeatureValue_of_sum _).
  intros []; reflexivity.
Defined.

(** The order Python uses when it compares two values of one column: bytes
    and text lexicographically, integers numerically. An Arrow column has one
    type, so the values of one feature are of one kind and the code never
    compares values of different kinds; here the order is made total by
    ranking the kinds (integers, bytes, text). *)
Definition value_kind (v : FeatureValue) : Z :=
  match v with
  | IntValue _ => 0
  | BytesValue _ => 1
  | TextValue _ => 2
  end.

Definition value_leb (x y : FeatureValue) : bool :=
  match x, y with
  | BytesValue a, BytesValue b => String.leb a b
  | TextValue a, TextValue b => String.leb a b
  | IntValue a, IntValue b => a <=? b
  | _, _ => value_kind x <=? value_kind y
  end.

(** FeatureValueCount = namedtuple('FeatureValueCount',
    ['feature_value', 'count']). *)
Record FeatureValueCount : Type := mkFeatureValueCount {
  feature_value : FeatureValue;
  count : Z
}.

Global Instance FeatureValueCount_eq_dec : EqDecision FeatureValueCount.
Proof. solve_decision. Defined.

(** The sort key [lambda counts: (counts[1], counts[0])] and the order of
    Python tuples on it: first the count, then the value. *)
Definition key_leb (x y : FeatureValueCount) : bool :=
  (count x <? count y)
  || ((count x =? count y) && value_leb (feature_value x) (feature_value y)).

(** [list.sort(key=..., reverse=True)]: a stable sort into descending order.
    An element goes in front of the first element that is not above it, so
    that among equal keys the original order is kept. *)
Fixpoint insert_desc (x : FeatureValueCount) (l : list FeatureValueCount)
  : list FeatureValueCount :=
  match l with
  | [] => [x]
  | h :: t => if key_leb h x then x :: h :: t else h :: insert_desc x t
  end.

Definition sort_desc (l : list FeatureValueCount) : list FeatureValueCount :=
  foldr insert_desc [] l.

(** ** UTF-8 *)

Definition in_range (lo hi b : N) : bool := ((lo <=? b) && (b <=? hi))%N.

(** Well-formed UTF-8 byte sequences (Unicode standard, table 3-7): no
    overlong forms, no surrogates, nothing above U+10FFFF. *)
Fixpoint valid_utf8 (bs : list N) : bool :=
  match bs with
  | [] => true
  | b1 :: r1 =>
    if in_range 0 127 b1 then valid_utf8 r1
    else match r1 with
    | [] => false
    | b2 :: r2 =>
      if in_range 194 223 b1 then in_range 128 191 b2 && valid_utf8 r2
      else match r2 with
      | [] => false
      | b3 :: r3 =>
        if in_range 224 239 b1 then
          (if (b1 =? 224)%N then in_range 160 191 b2
           else if (b1 =? 237)%N then in_range 128 159 b2
           else in_range 128 191 b2)
          && in_range 128 191 b3 && valid_utf8 r3
        else match r3 with
        | [] => false
        | b4 :: r4 =>
          in_range 240 244 b1
          && (if (b1 =? 240)%N then in_range 144 191 b2
              else if (b1 =? 244)%N then in_range 128 143 b2
              else in_range 128 191 b2)
          && in_range 128 191 b3 && in_range 128 191 b4 && valid_utf8 r4
        end
      end
    end
  end.

Definition bytes_of_string (s : string) : list N :=
  Ascii.N_of_ascii <$> String.list_ascii_of_string s.

(** Modelled from the spec: stats_util.maybe_get_utf8 is not among the
    sources. It decodes bytes as UTF-8 and returns None when they cannot be
    decoded; text being held as its UTF-8 encoding, decoding keeps the
    bytes. *)
Definition maybe_get_utf8 (value : string) : option string :=
  if valid_utf8 (bytes_of_string value) then Some value else None.

(** ** The statistics protos (tensorflow_metadata statistics_pb2)

    Only the fields the code reads or writes are kept. *)
Module statistics_pb2.

(** FeatureNameStatistics.Type *)
Inductive FeatureType : Type := INT | FLOAT | STRING | BYTES | STRUCT.

Record FreqAndValue : Type := mkFreqAndValue {
  value : string;
  frequency : Z
}.

Record Bucket : Type := mkBucket {
  low_rank : Z;
  high_rank : Z;
  sample_count : Z;
  label : string
}.

Record WeightedCommonStatistics : Type := mkWeightedCommonStatistics {
  w_num_non_missing : Z;
  w_num_missing : Z
}.

Record CommonStatistics : Type := mkCommonStatistics {
  num_non_missing : Z;
  num_missing : Z;
  weighted_common_stats : WeightedCommonStatistics
}.

Record WeightedStringStatistics : Type := mkWeightedStringStatistics {
  w_top_values : list FreqAndValue;
  w_rank_histogram : list Bucket
}.

(** A message field whose presence the code depends on is an [option]. *)
Record StringStatistics : Type := mkStringStatistics {
  common_stats : option CommonStatistics;
  unique : Z;
  top_values : list FreqAndValue;
  rank_histogram : list Bucket;
  weighted_string_stats : option WeightedStringStatistics
}.

(** The oneof [stats], with the two cases the code names: it tells
    [num_stats] from everything else and takes everything else for
    [string_stats]. Of the numeric statistics only the common statistics are
    kept. *)
Inductive Stats : Type :=
  | NoStats
  | num_stats (c : option CommonStatistics)
  | string_stats (s : StringStatistics).

(** CustomStatistic with the oneof [val] set to [num]. *)
Record CustomStatistic : Type := mkCustomStatistic {
  name : string;
  num : Z
}.

Record FeatureNameStatistics : Type := mkFeatureNameStatistics {
  path : FeaturePath;
  type : FeatureType;
  stats : Stats;
  custom_stats : list CustomStatistic
}.

Record DatasetFeatureStatistics : Type := mkDatasetFeatureStatistics {
  num_examples : Z;
  features : list FeatureNameStatistics
}.

(** Default (empty) messages. *)
Definition WeightedCommonStatistics0 := mkWeightedCommonStatistics 0 0.
Definition CommonStatistics0 := mkCommonStatistics 0 0 WeightedCommonStatistics0.
Definition WeightedStringStatistics0 := mkWeightedStringStatistics [] [].
Definition StringStatistics0 := mkStringStatistics None 0 [] [] None.

(** Reading the field [string_stats]: the default message unless the oneof
    holds it. *)
Definition get_string_stats (f : FeatureNameStatistics) : StringStatistics :=
  match stats f with
  | string_stats s => s
  | _ => StringStatistics0
  end.

Global Instance FreqAndValue_eq_dec : EqDecision FreqAndValue.
Proof. solve_decision. Defined.
Global Instance Bucket_eq_dec : EqDecision Bucket.
Proof. solve_decision. Defined.
Global Instance WeightedCommonStatistics_eq_dec : EqDecision WeightedCommonStatistics.
Proof. solve_decision. Defined.
Global Instance CommonStatistics_eq_dec : EqDecision CommonStatistics.
Proof. solve_decision. Defined.
Global Instance WeightedStringStatistics_eq_dec : EqDecision WeightedStringStatistics.
Proof. solve_decision. Defined.
Global Instance StringStatistics_eq_dec : EqDecision StringStatistics.
Proof. solve_decision. Defined.
Global Instance FeatureType_eq_dec : EqDecision FeatureType.
Proof. solve_decision. Defined.
Global Instance Stats_eq_dec : EqDecision Stats.
Proof. solve_decision. Defined.
Global Instance CustomStatistic_eq_dec : EqDecision CustomStatistic.
Proof. solve_decision. Defined.
Global Instance FeatureNameStatistics_eq_dec : EqDecision FeatureNameStatistics.
Proof. solve_decision. Defined.

End statistics_pb2.

(** ** Errors and the log *)

(** The exceptions the modelled code can raise. *)
Inductive exn : Type :=
  | KeyError
  | IndexError
  | TypeError
  | ValueError
  | AssertionError.

Inductive result (A : Type) : Type :=
  | Ok (a : A)
  | Raise (e : exn).
Arguments Ok {A} a.
Arguments Raise {A} e.

Global Instance result_ret : MRet result := fun A a => Ok a.

Global Instance result_bind : MBind result := fun A B k r =>
  match r with
  | Ok a => k a
  | Raise e => Raise e
  end.

(** A call of [logging.warning]: the feature path and the value handed to
    the format string. *)
Record LogRecord : Type := mkLogRecord {
  log_feature_path : FeaturePath;
  log_value : option string
}.

(** ** statistics/generators/top_k_uniques_stats_generator.py *)
Module top_k_uniques_stats_generator.
Import statistics_pb2.

Definition _INVALID_STRING : string := "__BYTES_VALUE__".

(** The loop [for i in range(len(top_k_value_count_list))] of
    make_feature_stats_proto_with_topk_stats, started at index [i] on the
    rest of the sorted list. It gives the entries added to [top_values],
    the buckets added to [rank_histogram] and the warnings logged. *)
Fixpoint topk_loop (feature_path : FeaturePath)
    (num_top_values frequency_threshold num_rank_histogram_buckets : Z)
    (i : nat) (l : list FeatureValueCount)
  : list FreqAndValue * list Bucket * list LogRecord :=
  match l with
  | [] => ([], [], [])
  | mkFeatureValueCount value0 count :: rest =>
    if count <? frequency_threshold then ([], [], [])
    else
      let '(value, warnings) :=
        match value0 with
        | BytesValue b =>
          match maybe_get_utf8 b with
          | Some s => (s, [])
          | None => (_INVALID_STRING, [mkLogRecord feature_path None])
          end
        | TextValue s => (s, [])
        | IntValue z => (pretty z, [])
        end in
      let '(tv, rh, log) :=
        topk_loop feature_path num_top_values frequency_threshold
          num_rank_histogram_buckets (S i) rest in
      ((if Z.of_nat i <? num_top_values
        then mkFreqAndValue value count :: tv else tv),
       (if Z.of_nat i <? num_rank_histogram_buckets
        then mkBucket (Z.of_nat i) (Z.of_nat i) count value :: rh else rh),
       warnings ++ log)
  end.

(** The proto and the warnings logged while it is made. The oneof [stats]
    is set only when an entry was added to it. *)
Definition make_feature_stats_proto_with_topk_stats
    (feature_path : FeaturePath)
    (top_k_value_count_list : list FeatureValueCount)
    (is_categorical is_weighted_stats : bool)
    (num_top_values frequency_threshold num_rank_histogram_buckets : Z)
  : FeatureNameStatistics * list LogRecord :=
  let sorted := sort_desc top_k_value_count_list in
  let '(tv, rh, log) :=
    topk_loop feature_path num_top_values frequency_threshold
      num_rank_histogram_buckets 0 sorted in
  let string_stats0 :=
    match tv, rh with
    | [], [] => NoStats
    | _, _ =>
      if is_weighted_stats then
        string_stats
          (mkStringStatistics None 0 [] []
             (Some (mkWeightedStringStatistics tv rh)))
      else string_stats (mkStringStatistics None 0 tv rh None)
    end in
  (mkFeatureNameStatistics feature_path
     (if is_categorical then INT else STRING) string_stats0 [],
   log).

End top_k_uniques_stats_generator.

(** ** Arrow tables

    The columnar library (pyarrow, arrow_util) is an external collaborator;
    a table is modelled by what the code reads of it. *)
Module arrow.

(** A column of list-valued entries: every row is null or a list of
    values. [feature_type] is what
    stats_util.get_feature_type_from_arrow_type gives for the column's
    Arrow type. *)
Record Column : Type := mkColumn {
  name : string;
  feature_type : statistics_pb2.FeatureType;
  data : list (option (list FeatureValue))
}.

(** All columns of a table have [num_rows] rows. *)
Record Table : Type := mkTable {
  columns : list Column;
  num_rows : nat
}.

(** [table.column(name)]: raises KeyError when there is no such column. *)
Definition column (table : Table) (name0 : string) : result Column :=
  match List.find (fun c => bool_decide (name c = name0)) (columns table) with
  | Some c => Ok c
  | None => Raise KeyError
  end.

(** Modelled from the spec: arrow/arrow_util.py is not among the sources.
    FlattenListArray is the null-aware flattening of a list-valued column:
    the values of all rows, null rows skipped. *)
Definition FlattenListArray (rows : list (option (list FeatureValue)))
  : list FeatureValue :=
  concat (default [] <$> rows).

(** Modelled from the spec: arrow/arrow_util.py is not among the sources.
    GetFlattenedArrayParentIndices is the index mapping from a flattened
    value to its row, by which a weight is repeated for every value of a
    multi-valued entry. *)
Definition GetFlattenedArrayParentIndices
    (rows : list (option (list FeatureValue))) : list nat :=
  concat (imap (fun i row => replicate (length (default [] row)) i) rows).

(** Modelled from the spec: arrow/arrow_util.py is not among the sources.
    ValueCounts is the value-count tabulation: the distinct values, each
    with the number of its occurrences. *)
Definition ValueCounts (values : list FeatureValue)
  : list (FeatureValue * Z) :=
  (fun v => (v, Z.of_nat (count_occ FeatureValue_eq_dec values v)))
    <$> remove_dups values.

(** [to_numpy()] of the flattened weights: the weights are numbers. *)
Definition to_numpy (values : list FeatureValue) : result (list Z) :=
  mapM (fun v => match v with
                 | IntValue z => Ok z
                 | _ => Raise TypeError
                 end) values.

(** [flattened_weights[indices]]: IndexError when an index is out of
    range. *)
Definition take_indices (flattened_weights : list Z) (indices : list nat)
  : result (list Z) :=
  mapM (fun i => match flattened_weights !! i with
                 | Some w => Ok w
                 | None => Raise IndexError
                 end) indices.

End arrow.

(** ** statistics/generators/top_k_uniques_combiner_stats_generator.py *)
Module top_k_uniques_combiner_stats_generator.
Import statistics_pb2 arrow.

(** _ValueCounts = namedtuple('_ValueCounts',
    ['unweighted_counts', 'weighted_counts']): a [collections.Counter]
    and a [_WeightedCounter(defaultdict(int))], both maps from value to
    count in which a value that is not a key counts as 0. *)
Record _ValueCounts : Type := mk_ValueCounts {
  unweighted_counts : gmap FeatureValue Z;
  weighted_counts : gmap FeatureValue Z
}.

(** [self[k] += v] *)
Definition increment (self : gmap FeatureValue Z) (k : FeatureValue) (v : Z)
  : gmap FeatureValue Z :=
  <[k := default 0 (self !! k) + v]> self.

(** _WeightedCounter.weighted_update *)
Definition weighted_update (self : gmap FeatureValue Z)
    (values : list FeatureValue) (weights : list Z) : gmap FeatureValue Z :=
  foldl (fun self vw => increment self vw.1 vw.2) self (zip values weights).

(** _WeightedCounter.update, and Counter.update on a mapping: the counts
    of [other] are added. *)
Definition update (self other : gmap FeatureValue Z) : gmap FeatureValue Z :=
  map_fold (fun k v self => increment self k v) self other.

(** [bool(counter)]: a dict is true when it has a key. *)
Definition truthy (c : gmap FeatureValue Z) : bool :=
  negb (bool_decide (c = ∅)).

(** [value_counts.items()] as FeatureValueCount tuples. *)
Definition items (c : gmap FeatureValue Z) : list FeatureValueCount :=
  (fun kv => mkFeatureValueCount kv.1 kv.2) <$> map_to_list c.

(** The fields of a TopKUniquesCombinerStatsGenerator. *)
Record TopKUniquesCombinerStatsGenerator : Type := mkGenerator {
  _categorical_features : gset FeaturePath;
  _weight_feature : option string;
  _num_top_values : Z;
  _frequency_threshold : Z;
  _weighted_frequency_threshold : Z;
  _num_rank_histogram_buckets : Z
}.

(** The accumulator: a dict from feature path to _ValueCounts. *)
Definition create_accumulator : gmap FeaturePath _ValueCounts := ∅.

(** [if self._weight_feature]: a name that is neither None nor empty. *)
Definition weight_feature_set (self : TopKUniquesCombinerStatsGenerator)
  : option string :=
  match _weight_feature self with
  | Some n => if bool_decide (n = "") then None else Some n
  | None => None
  end.

(** The first lines of add_input: the flattened weights, when a weight
    feature is set and its column has a row. *)
Definition flattened_weights_of (self : TopKUniquesCombinerStatsGenerator)
    (input_table : Table) : result (option (list Z)) :=
  match weight_feature_set self with
  | Some n =>
    weight_column ← column input_table n;
    match data weight_column with
    | [] => Ok None
    | weight_array =>
      flattened_weights ← to_numpy (FlattenListArray weight_array);
      Ok (Some flattened_weights)
    end
  | None => Ok None
  end.

(** The body of the loop over the columns of add_input. *)
Definition add_column (self : TopKUniquesCombinerStatsGenerator)
    (flattened_weights : option (list Z))
    (accumulator : gmap FeaturePath _ValueCounts) (column : Column)
  : result (gmap FeaturePath _ValueCounts) :=
  let feature_name := name column in
  if bool_decide (Some feature_name = _weight_feature self) then Ok accumulator
  else
    let feature_path : FeaturePath := [feature_name] in
    if negb (bool_decide (feature_path ∈ _categorical_features self)
             || bool_decide (feature_type column = STRING))
    then Ok accumulator
    else
      let value_array := data column in
      let flattened_values := FlattenListArray value_array in
      let unweighted_counts0 :=
        foldl (fun c vc => <[vc.1 := vc.2]> c) (∅ : gmap FeatureValue Z)
          (ValueCounts flattened_values) in
      weighted_counts0 ←
        match flattened_weights with
        | Some flattened_weights =>
          let indices := GetFlattenedArrayParentIndices value_array in
          weights ← take_indices flattened_weights indices;
          Ok (weighted_update ∅ flattened_values weights)
        | None => Ok (∅ : gmap FeatureValue Z)
        end;
      match accumulator !! feature_path with
      | None =>
        Ok (<[feature_path :=
               mk_ValueCounts unweighted_counts0 weighted_counts0]> accumulator)
      | Some value_counts =>
        Ok (<[feature_path :=
               mk_ValueCounts
                 (update (unweighted_counts value_counts) unweighted_counts0)
                 (update (weighted_counts value_counts) weighted_counts0)]>
              accumulator)
      end.

Fixpoint add_columns (self : TopKUniquesCombinerStatsGenerator)
    (flattened_weights : option (list Z))
    (accumulator : gmap FeaturePath _ValueCounts) (columns : list Column)
  : result (gmap FeaturePath _ValueCounts) :=
  match columns with
  | [] => Ok accumulator
  | column :: rest =>
    accumulator' ← add_column self flattened_weights accumulator column;
    add_columns self flattened_weights accumulator' rest
  end.

Definition add_input (self : TopKUniquesCombinerStatsGenerator)
    (accumulator : gmap FeaturePath _ValueCounts) (input_table : Table)
  : result (gmap FeaturePath _ValueCounts) :=
  flattened_weights ← flattened_weights_of self input_table;
  add_columns self flattened_weights accumulator (columns input_table).

(** The body of the inner loop of merge_accumulators. The weighted counts
    of [result] are updated only when its weighted counter has a key. *)
Definition merge_feature (feature_path : FeaturePath)
    (value_counts : _ValueCounts) (result : gmap FeaturePath _ValueCounts)
  : gmap FeaturePath _ValueCounts :=
  match result !! feature_path with
  | None => <[feature_path := value_counts]> result
  | Some r =>
    <[feature_path :=
       mk_ValueCounts
         (update (unweighted_counts r) (unweighted_counts value_counts))
         (if truthy (weighted_counts r)
          then update (weighted_counts r) (weighted_counts value_counts)
          else weighted_counts r)]> result
  end.

Definition merge_accumulators
    (accumulators : list (gmap FeaturePath _ValueCounts))
  : gmap FeaturePath _ValueCounts :=
  foldl (fun result accumulator => map_fold merge_feature result accumulator)
    ∅ accumulators.

(** _make_feature_stats_proto. [weighted_value_count_list] is None or a
    list; the weighted statistics are made when it is a non-empty list. *)
Definition _make_feature_stats_proto (feature_path : FeaturePath)
    (value_count_list : list FeatureValueCount)
    (weighted_value_count_list : option (list FeatureValueCount))
    (is_categorical : bool)
    (num_top_values frequency_threshold weighted_frequency_threshold
       num_rank_histogram_buckets : Z)
  : FeatureNameStatistics * list LogRecord :=
  let '(result, log) :=
    top_k_uniques_stats_generator.make_feature_stats_proto_with_topk_stats
      feature_path value_count_list is_categorical false num_top_values
      frequency_threshold num_rank_histogram_buckets in
  let '(result, log) :=
    match weighted_value_count_list with
    | Some ((_ :: _) as weighted_value_count_list) =>
      let '(weighted_result, wlog) :=
        top_k_uniques_stats_generator.make_feature_stats_proto_with_topk_stats
          feature_path weighted_value_count_list is_categorical true
          num_top_values weighted_frequency_threshold
          num_rank_histogram_buckets in
      let s := get_string_stats result in
      (mkFeatureNameStatistics (path result) (type result)
         (string_stats
            (mkStringStatistics (common_stats s) (unique s) (top_values s)
               (rank_histogram s)
               (Some (default WeightedStringStatistics0
                        (weighted_string_stats
                           (get_string_stats weighted_result))))))
         (custom_stats result),
       log ++ wlog)
    | _ => (result, log)
    end in
  let s := get_string_stats result in
  (mkFeatureNameStatistics (path result) (type result)
     (string_stats
        (mkStringStatistics (common_stats s)
           (Z.of_nat (length value_count_list)) (top_values s)
           (rank_histogram s) (weighted_string_stats s)))
     (custom_stats result),
   log).

(** _make_dataset_feature_stats_proto_with_multiple_features. The weighted
    value counts of a feature are looked up (KeyError when absent) as soon
    as the dict of weighted value counts has a key. *)
Definition _make_dataset_feature_stats_proto_with_multiple_features
    (feature_names_to_value_counts
       weighted_feature_names_to_value_counts
       : gmap FeaturePath (list FeatureValueCount))
    (categorical_features : gset FeaturePath)
    (num_top_values frequency_threshold weighted_frequency_threshold
       num_rank_histogram_buckets : Z)
  : result (DatasetFeatureStatistics * list LogRecord) :=
  protos ← mapM (fun kv : FeaturePath * list FeatureValueCount =>
      let '(feature_path, value_count) := kv in
      weighted_value_count ←
        (if bool_decide (weighted_feature_names_to_value_counts = ∅)
         then Ok None
         else match weighted_feature_names_to_value_counts !! feature_path with
              | Some l => Ok (Some l)
              | None => Raise KeyError
              end);
      Ok (_make_feature_stats_proto feature_path value_count
            weighted_value_count
            (bool_decide (feature_path ∈ categorical_features))
            num_top_values frequency_threshold weighted_frequency_threshold
            num_rank_histogram_buckets))
    (map_to_list feature_names_to_value_counts);
  Ok (mkDatasetFeatureStatistics 0 (protos.*1), concat (protos.*2)).

Definition extract_output (self : TopKUniquesCombinerStatsGenerator)
    (accumulator : gmap FeaturePath _ValueCounts)
  : result (DatasetFeatureStatistics * list LogRecord) :=
  let feature_paths_to_value_counts :=
    omap (fun value_counts =>
            if truthy (unweighted_counts value_counts)
            then Some (items (unweighted_counts value_counts)) else None)
      accumulator in
  let feature_paths_to_weighted_value_counts :=
    omap (fun value_counts =>
            if truthy (weighted_counts value_counts)
            then Some (items (weighted_counts value_counts)) else None)
      accumulator in
  _make_dataset_feature_stats_proto_with_multiple_features
    feature_paths_to_value_counts feature_paths_to_weighted_value_counts
    (_categorical_features self) (_num_top_values self)
    (_frequency_threshold self) (_weighted_frequency_threshold self)
    (_num_rank_histogram_buckets self).

End top_k_uniques_combiner_stats_generator.

(** ** statistics/stats_impl.py: example counts *)
Module stats_impl.
Import statistics_pb2 arrow.

Definition _DUMMY_FEATURE_PATH : FeaturePath := ["__TFDV_INTERNAL_FEATURE__"].
Definition _NUM_EXAMPLES_KEY : string := "__NUM_EXAMPLES__".
Definition _WEIGHTED_NUM_EXAMPLES_KEY : string := "__WEIGHTED_NUM_EXAMPLES__".

(** Modelled from the spec: stats_util.get_feature_stats is not among the
    sources. It extracts the entry of the given feature path from the
    dataset statistics, and raises ValueError when there is none. *)
Definition get_feature_stats (stats : DatasetFeatureStatistics)
    (feature_path : FeaturePath) : result FeatureNameStatistics :=
  match List.find (fun f => bool_decide (path f = feature_path))
          (features stats) with
  | Some f => Ok f
  | None => Raise ValueError
  end.

(** Modelled from the spec: stats_util.get_custom_stats is not among the
    sources. It gives the value of the custom statistic of the given name,
    and raises ValueError when there is none. *)
Definition get_custom_stats (feature_stats : FeatureNameStatistics)
    (custom_stats_name : string) : result Z :=
  match List.find (fun c => bool_decide (statistics_pb2.name c = custom_stats_name))
          (custom_stats feature_stats) with
  | Some c => Ok (num c)
  | None => Raise ValueError
  end.

(** [repeated_field.remove(x)]: the first element equal to [x] goes. *)
Fixpoint remove_first (x : FeatureNameStatistics)
    (l : list FeatureNameStatistics) : list FeatureNameStatistics :=
  match l with
  | [] => []
  | y :: t => if bool_decide (y = x) then t else y :: remove_first x t
  end.

(** The common statistics the loop of _update_example_and_missing_count
    works on: those of [num_stats] when the oneof holds it, those of
    [string_stats] otherwise (the default message when the oneof holds
    something else, or when they are unset). *)
Definition selected_common_stats (feature_stats : FeatureNameStatistics)
  : CommonStatistics :=
  default CommonStatistics0
    match stats feature_stats with
    | num_stats c => c
    | _ => common_stats (get_string_stats feature_stats)
    end.

(** Writing the selected common statistics back; writing into
    [string_stats] makes it the field the oneof holds. *)
Definition set_selected_common_stats (feature_stats : FeatureNameStatistics)
    (c : CommonStatistics) : FeatureNameStatistics :=
  mkFeatureNameStatistics (path feature_stats) (type feature_stats)
    match stats feature_stats with
    | num_stats _ => num_stats (Some c)
    | _ =>
      let s := get_string_stats feature_stats in
      string_stats
        (mkStringStatistics (Some c) (unique s) (top_values s) (rank_histogram s)
           (weighted_string_stats s))
    end
    (custom_stats feature_stats).

(** The body of the loop of _update_example_and_missing_count. *)
Definition update_missing_count (num_examples weighted_num_examples : Z)
    (feature_stats : FeatureNameStatistics) : result FeatureNameStatistics :=
  let common_stats := selected_common_stats feature_stats in
  if negb (num_examples >=? num_non_missing common_stats)
  then Raise AssertionError
  else
    let w := weighted_common_stats common_stats in
    Ok (set_selected_common_stats feature_stats
          (mkCommonStatistics (num_non_missing common_stats)
             (num_examples - num_non_missing common_stats)
             (if negb (weighted_num_examples =? 0)
              then mkWeightedCommonStatistics (w_num_non_missing w)
                     (weighted_num_examples - w_num_non_missing w)
              else w))).

Definition _update_example_and_missing_count (stats : DatasetFeatureStatistics)
  : result DatasetFeatureStatistics :=
  dummy_feature ← get_feature_stats stats _DUMMY_FEATURE_PATH;
  num_examples ← get_custom_stats dummy_feature _NUM_EXAMPLES_KEY;
  weighted_num_examples ←
    get_custom_stats dummy_feature _WEIGHTED_NUM_EXAMPLES_KEY;
  features' ← mapM (update_missing_count num_examples weighted_num_examples)
                (remove_first dummy_feature (features stats));
  Ok (mkDatasetFeatureStatistics num_examples features').

(** *** NumExamplesStatsGenerator

    The accumulator [[num_examples, weighted_num_examples]] is a pair. *)
Module NumExamplesStatsGenerator.

Definition create_accumulator : Z * Z := (0, 0).

Definition add_input (_weight_feature : option string)
    (accumulator : Z * Z) (examples_table : Table) : result (Z * Z) :=
  let accumulator0 := accumulator.1 + Z.of_nat (num_rows examples_table) in
  match _weight_feature with
  | Some n =>
    if bool_decide (n = "") then Ok (accumulator0, accumulator.2)
    else
      weights_column ← column examples_table n;
      weights ← to_numpy (FlattenListArray (data weights_column));
      Ok (accumulator0, accumulator.2 + foldr Z.add 0 weights)
  | None => Ok (accumulator0, accumulator.2)
  end.

Definition merge_accumulators (accumulators : list (Z * Z)) : Z * Z :=
  foldl (fun result acc => (result.1 + acc.1, result.2 + acc.2))
    create_accumulator accumulators.

Definition extract_output (accumulator : Z * Z) : DatasetFeatureStatistics :=
  mkDatasetFeatureStatistics 0
    [mkFeatureNameStatistics _DUMMY_FEATURE_PATH INT NoStats
       [mkCustomStatistic _NUM_EXAMPLES_KEY accumulator.1;
        mkCustomStatistic _WEIGHTED_NUM_EXAMPLES_KEY accumulator.2]].

End NumExamplesStatsGenerator.


(** *** The generator interfaces (statistics/generators/stats_generator.py) *)

Module CombinerStatsGenerator.
(** Modelled from the spec: stats_generator.py is not among the sources. A
    dataset-level combiner has the four operations create_accumulator,
    add_input (of a whole table), merge_accumulators and extract_output. *)
Record t (Acc : Type) : Type := mk {
  create_accumulator : Acc;
  add_input : Acc -> Table -> Acc;
  merge_accumulators : list Acc -> Acc;
  extract_output : Acc -> DatasetFeatureStatistics
}.
Arguments mk {Acc}.
Arguments create_accumulator {Acc}.
Arguments add_input {Acc}.
Arguments merge_accumulators {Acc}.
Arguments extract_output {Acc}.
End CombinerStatsGenerator.

Module CombinerFeatureStatsGenerator.
(** Modelled from the spec: stats_generator.py is not among the sources. A
    single-feature combiner has the same four operations, add_input folding
    one column at a time. *)
Record t (Acc : Type) : Type := mk {
  create_accumulator : Acc;
  add_input : Acc -> Column -> Acc;
  merge_accumulators : list Acc -> Acc;
  extract_output : Acc -> FeatureNameStatistics
}.
Arguments mk {Acc}.
Arguments create_accumulator {Acc}.
Arguments add_input {Acc}.
Arguments merge_accumulators {Acc}.
Arguments extract_output {Acc}.
End CombinerFeatureStatsGenerator.

(** Modelled from the spec: constants.DEFAULT_DESIRED_INPUT_BATCH_SIZE is
    not among the sources; the default target is on the order of low
    thousands of rows. *)
Definition DEFAULT_DESIRED_INPUT_BATCH_SIZE : Z := 1000.

(** [zip] on the unpacked list of lists: the i-th tuple holds the i-th elements of all lists, up
    to the length of the shortest; no list gives no tuple. *)
Fixpoint zip_star {A : Type} (lists : list (list A)) : list (list A) :=
  match lists with
  | [] => []
  | [l] => (fun x => [x]) <$> l
  | l :: rest => zip_with cons l (zip_star rest)
  end.

(** The loop [while True: batch = list(itertools.islice(it, n)); if not
    batch: break; ...]: the successive groups of at most [n] elements. *)
Fixpoint islice_batches {A : Type} (fuel n : nat) (l : list A)
  : list (list A) :=
  match fuel, l with
  | S fuel, _ :: _ => take n l :: islice_batches fuel n (drop n l)
  | _, _ => []
  end.

(** *** _CombinerStatsGeneratorsCombineFn

    The beam metrics the class updates are left out. *)
Module _CombinerStatsGeneratorsCombineFn.
Import CombinerStatsGenerator.

(** _CombinerStatsGeneratorsCombineFnAcc *)
Record Accumulator (Acc : Type) : Type := mkAcc {
  partial_accumulators : list Acc;
  input_tables : list Table;
  curr_batch_size : Z
}.
Arguments mkAcc {Acc}.
Arguments partial_accumulators {Acc}.
Arguments input_tables {Acc}.
Arguments curr_batch_size {Acc}.

Record t (Acc : Type) : Type := mkSelf {
  _generators : list (CombinerStatsGenerator.t Acc);
  _desired_batch_size : Z
}.
Arguments mkSelf {Acc}.
Arguments _generators {Acc}.
Arguments _desired_batch_size {Acc}.

Definition _DEFAULT_DESIRED_MERGE_ACCUMULATOR_BATCH_SIZE : nat := 100.

Section CombineFn.
Context {Acc : Type}.

(** arrow/merge.py (MergeTables) and the protobuf method MergeFrom are
    not among the sources. *)
Variable MergeTables : list Table -> Table.
Variable MergeFrom :
  FeatureNameStatistics -> FeatureNameStatistics -> FeatureNameStatistics.

(** [__init__]: a desired batch size that is None, zero or negative
    gives the default. *)
Definition __init__ (generators : list (CombinerStatsGenerator.t Acc))
    (desired_batch_size : option Z) : t Acc :=
  mkSelf generators
    match desired_batch_size with
    | Some d =>
      if negb (d =? 0) && (d >? 0) then d
      else DEFAULT_DESIRED_INPUT_BATCH_SIZE
    | None => DEFAULT_DESIRED_INPUT_BATCH_SIZE
    end.

(** _for_each_generator with one and with two parallel lists. *)
Definition _for_each_generator {X R : Type} (self : t Acc)
    (func : CombinerStatsGenerator.t Acc -> X -> R) (args : list X)
  : list R :=
  zip_with func (_generators self) args.

Definition _for_each_generator2 {X Y R : Type} (self : t Acc)
    (func : CombinerStatsGenerator.t Acc -> X -> Y -> R)
    (args0 : list X) (args1 : list Y) : list R :=
  zip_with (fun gen xy => func gen xy.1 xy.2) (_generators self)
    (zip args0 args1).

Definition create_accumulator (self : t Acc) : Accumulator Acc :=
  mkAcc ((fun g => CombinerStatsGenerator.create_accumulator g)
           <$> _generators self) [] 0.

(** The table a batch is computed on. *)
Definition arrow_table_of (input_tables : list Table) : Table :=
  match input_tables with
  | [arrow_table] => arrow_table
  | _ => MergeTables input_tables
  end.

Definition _maybe_do_batch (self : t Acc) (accumulator : Accumulator Acc)
    (force : bool) : Accumulator Acc :=
  let batch_size := curr_batch_size accumulator in
  if (force && (batch_size >? 0))
     || (batch_size >=? _desired_batch_size self)
  then
    let arrow_table := arrow_table_of (input_tables accumulator) in
    mkAcc
      (_for_each_generator self
         (fun gen gen_acc =>
            CombinerStatsGenerator.add_input gen gen_acc arrow_table)
         (partial_accumulators accumulator))
      [] 0
  else accumulator.

Definition add_input (self : t Acc) (accumulator : Accumulator Acc)
    (input_table : Table) : Accumulator Acc :=
  _maybe_do_batch self
    (mkAcc (partial_accumulators accumulator)
       (input_tables accumulator ++ [input_table])
       (curr_batch_size accumulator + Z.of_nat (num_rows input_table)))
    false.

(** The loop [for acc in batched_accumulators] of merge_accumulators,
    on the pair of [result] and [batched_partial_accumulators]. *)
Definition merge_pending (self : t Acc)
    (state : Accumulator Acc * list (list Acc)) (acc : Accumulator Acc)
  : Accumulator Acc * list (list Acc) :=
  let '(result, batched_partial_accumulators) := state in
  (_maybe_do_batch self
     (mkAcc (partial_accumulators result)
        (input_tables result ++ input_tables acc)
        (curr_batch_size result + curr_batch_size acc))
     false,
   batched_partial_accumulators ++ [partial_accumulators acc]).

(** One round of the [while] loop of merge_accumulators. *)
Definition merge_batch (self : t Acc) (result : Accumulator Acc)
    (batched_accumulators : list (Accumulator Acc)) : Accumulator Acc :=
  let '(result, batched_partial_accumulators) :=
    foldl (merge_pending self) (result, []) batched_accumulators in
  let batched_accumulators_by_generator :=
    zip_star batched_partial_accumulators in
  mkAcc
    (_for_each_generator2 self
       (fun gen b m => CombinerStatsGenerator.merge_accumulators gen (b :: m))
       (partial_accumulators result) batched_accumulators_by_generator)
    (input_tables result) (curr_batch_size result).

Definition merge_accumulators (self : t Acc)
    (accumulators : list (Accumulator Acc)) : Accumulator Acc :=
  foldl (merge_batch self) (create_accumulator self)
    (islice_batches (length accumulators)
       _DEFAULT_DESIRED_MERGE_ACCUMULATOR_BATCH_SIZE accumulators).

Definition compact (self : t Acc) (accumulator : Accumulator Acc)
  : Accumulator Acc :=
  _maybe_do_batch self accumulator true.

(** _merge_dataset_feature_stats_protos: the statistics of one feature
    path are merged with MergeFrom, after the path steps of the
    receiver are deleted. *)
Definition merge_feature_stats
    (stats_per_feature : gmap FeaturePath FeatureNameStatistics)
    (feature_stats_proto : FeatureNameStatistics)
  : gmap FeaturePath FeatureNameStatistics :=
  let feature_path := path feature_stats_proto in
  match stats_per_feature !! feature_path with
  | None => <[feature_path := feature_stats_proto]> stats_per_feature
  | Some stats_for_feature =>
    <[feature_path :=
       MergeFrom
         (mkFeatureNameStatistics [] (type stats_for_feature)
            (stats stats_for_feature) (custom_stats stats_for_feature))
         feature_stats_proto]> stats_per_feature
  end.

(** The number of examples read off a feature that has common
    statistics. *)
Definition num_examples_of (feature_stats_proto : FeatureNameStatistics)
  : option Z :=
  c ← match stats feature_stats_proto with
      | num_stats c => c
      | _ => common_stats (get_string_stats feature_stats_proto)
      end;
  Some (num_non_missing c + num_missing c).

Definition _merge_dataset_feature_stats_protos
    (stats_protos : list DatasetFeatureStatistics)
  : DatasetFeatureStatistics :=
  let stats_per_feature :=
    foldl (fun spf stats_proto =>
             foldl merge_feature_stats spf (features stats_proto))
      ∅ stats_protos in
  let values := (map_to_list stats_per_feature).*2 in
  let num_examples :=
    foldl (fun n f => match n with
                      | None => num_examples_of f
                      | Some _ => n
                      end) None values in
  mkDatasetFeatureStatistics (default 0 num_examples) values.

(** extract_output updates the accumulator in place and returns the
    merged statistics: the pair of both. *)
Definition extract_output (self : t Acc) (accumulator : Accumulator Acc)
  : Accumulator Acc * DatasetFeatureStatistics :=
  let accumulator := _maybe_do_batch self accumulator true in
  (accumulator,
   _merge_dataset_feature_stats_protos
     (_for_each_generator self
        (fun gen acc => CombinerStatsGenerator.extract_output gen acc)
        (partial_accumulators accumulator))).

End CombineFn.
End _CombinerStatsGeneratorsCombineFn.

(** *** CombinerFeatureStatsWrapperGenerator

    [wrapper_accumulator[feature_path][index]] is the accumulator of the
    generator of that index for that feature path. *)
Module CombinerFeatureStatsWrapperGenerator.

Record t (Acc : Type) : Type := mkSelf {
  _feature_stats_generators : list (CombinerFeatureStatsGenerator.t Acc);
  _weight_feature : option string;
  _sample_rate : option Q
}.
Arguments mkSelf {Acc}.
Arguments _feature_stats_generators {Acc}.
Arguments _weight_feature {Acc}.
Arguments _sample_rate {Acc}.

Section Wrapper.
Context {Acc : Type}.

(** The protobuf method MergeFrom is not among the sources. *)
Variable MergeFrom :
  FeatureNameStatistics -> FeatureNameStatistics -> FeatureNameStatistics.

Definition _perhaps_initialize_for_feature_path (self : t Acc)
    (wrapper_accumulator : gmap FeaturePath (list Acc))
    (feature_path : FeaturePath) : gmap FeaturePath (list Acc) :=
  match wrapper_accumulator !! feature_path with
  | Some _ => wrapper_accumulator
  | None =>
    <[feature_path :=
       (fun generator =>
          CombinerFeatureStatsGenerator.create_accumulator generator)
         <$> _feature_stats_generators self]> wrapper_accumulator
  end.

Definition create_accumulator : gmap FeaturePath (list Acc) := ∅.

(** [wrapper_accumulator[feature_path][index] = x]: KeyError without
    the key, IndexError when the index is out of range. *)
Definition set_slot (wrapper_accumulator : gmap FeaturePath (list Acc))
    (feature_path : FeaturePath) (index : nat) (x : Acc)
  : result (gmap FeaturePath (list Acc)) :=
  match wrapper_accumulator !! feature_path with
  | None => Raise KeyError
  | Some slots =>
    if bool_decide (index < length slots)%nat
    then Ok (<[feature_path := <[index := x]> slots]> wrapper_accumulator)
    else Raise IndexError
  end.

(** The loop [for index, generator in enumerate(...)] of add_input,
    from index [index] on. *)
Fixpoint add_input_generators (feature_column : Column)
    (feature_path : FeaturePath) (index : nat)
    (generators : list (CombinerFeatureStatsGenerator.t Acc))
    (wrapper_accumulator : gmap FeaturePath (list Acc))
  : result (gmap FeaturePath (list Acc)) :=
  match generators with
  | [] => Ok wrapper_accumulator
  | generator :: rest =>
    wrapper_accumulator' ←
      set_slot wrapper_accumulator feature_path index
        (CombinerFeatureStatsGenerator.add_input generator
           (CombinerFeatureStatsGenerator.create_accumulator generator)
           feature_column);
    add_input_generators feature_column feature_path (S index) rest
      wrapper_accumulator'
  end.

(** The body of the loop over the columns of add_input. *)
Definition add_input_column (self : t Acc)
    (wrapper_accumulator : gmap FeaturePath (list Acc))
    (feature_column : Column) : result (gmap FeaturePath (list Acc)) :=
  let feature_name := arrow.name feature_column in
  if bool_decide (Some feature_name = _weight_feature self)
  then Ok wrapper_accumulator
  else
    let feature_path : FeaturePath := [feature_name] in
    add_input_generators feature_column feature_path 0
      (_feature_stats_generators self)
      (_perhaps_initialize_for_feature_path self wrapper_accumulator
         feature_path).

Fixpoint add_input_columns (self : t Acc)
    (wrapper_accumulator : gmap FeaturePath (list Acc))
    (columns : list Column) : result (gmap FeaturePath (list Acc)) :=
  match columns with
  | [] => Ok wrapper_accumulator
  | feature_column :: rest =>
    wrapper_accumulator' ←
      add_input_column self wrapper_accumulator feature_column;
    add_input_columns self wrapper_accumulator' rest
  end.

(** add_input; [random] is the number [random.random()] returns when
    it is called, that is when a sample rate is set. *)
Definition add_input (self : t Acc) (random : Q)
    (wrapper_accumulator : gmap FeaturePath (list Acc))
    (input_table : Table) : result (gmap FeaturePath (list Acc)) :=
  match _sample_rate self with
  | Some sample_rate =>
    if Qle_bool random sample_rate then Ok wrapper_accumulator
    else add_input_columns self wrapper_accumulator (columns input_table)
  | None =>
    add_input_columns self wrapper_accumulator (columns input_table)
  end.

(** The loop [for index, generator in enumerate(...)] of
    merge_accumulators, from index [index] on. *)
Fixpoint merge_generators (feature_name : FeaturePath)
    (accumulator_for_feature : list Acc) (index : nat)
    (generators : list (CombinerFeatureStatsGenerator.t Acc))
    (result0 : gmap FeaturePath (list Acc))
  : result (gmap FeaturePath (list Acc)) :=
  match generators with
  | [] => Ok result0
  | generator :: rest =>
    slots ← from_option Ok (Raise KeyError) (result0 !! feature_name);
    mine ← from_option Ok (Raise IndexError) (slots !! index);
    theirs ← from_option Ok (Raise IndexError)
               (accumulator_for_feature !! index);
    result' ← set_slot result0 feature_name index
                (CombinerFeatureStatsGenerator.merge_accumulators generator
                   [mine; theirs]);
    merge_generators feature_name accumulator_for_feature (S index) rest
      result'
  end.

Definition merge_accumulators (self : t Acc)
    (wrapper_accumulators : list (gmap FeaturePath (list Acc)))
  : result (gmap FeaturePath (list Acc)) :=
  foldl (fun result0 wrapper_accumulator =>
           foldl (fun result0 kv =>
                    r ← result0;
                    merge_generators kv.1 kv.2 0
                      (_feature_stats_generators self)
                      (_perhaps_initialize_for_feature_path self r kv.1))
             result0 (map_to_list wrapper_accumulator))
    (Ok create_accumulator) wrapper_accumulators.

(** The loop [for index, generator in enumerate(...)] of
    extract_output, from index [index] on. *)
Fixpoint extract_generators (accumulator_for_feature : list Acc)
    (index : nat) (generators : list (CombinerFeatureStatsGenerator.t Acc))
    (feature_stats : FeatureNameStatistics) : result FeatureNameStatistics :=
  match generators with
  | [] => Ok feature_stats
  | generator :: rest =>
    a ← from_option Ok (Raise IndexError)
          (accumulator_for_feature !! index);
    extract_generators accumulator_for_feature (S index) rest
      (MergeFrom feature_stats
         (CombinerFeatureStatsGenerator.extract_output generator a))
  end.

Definition extract_output (self : t Acc)
    (wrapper_accumulator : gmap FeaturePath (list Acc))
  : result DatasetFeatureStatistics :=
  features ← mapM (fun kv : FeaturePath * list Acc =>
      extract_generators kv.2 0 (_feature_stats_generators self)
        (mkFeatureNameStatistics kv.1 INT NoStats []))
    (map_to_list wrapper_accumulator);
  Ok (mkDatasetFeatureStatistics 0 features).

End Wrapper.
End CombinerFeatureStatsWrapperGenerator.

End stats_impl.

(** ** arrow/merge.py *)
Module merge.
Import arrow.

(** Modelled from the spec: arrow/merge.py is not among the sources.
    MergeTables concatenates the pending batches into one combined batch:
    the rows of the tables follow each other, and a column a table lacks is
    null on the rows of that table. *)
Definition MergeTables (tables : list Table) : Table :=
  let names := remove_dups (concat ((fun t => name <$> columns t) <$> tables)) in
  mkTable
    ((fun n =>
        mkColumn n
          (default statistics_pb2.INT
             (feature_type <$>
                List.find (fun c => bool_decide (name c = n))
                  (concat (columns <$> tables))))
          (concat
             ((fun t =>
                 match List.find (fun c => bool_decide (name c = n))
                         (columns t) with
                 | Some c => data c
                 | None => replicate (num_rows t) None
                 end) <$> tables))) <$> names)
    (foldr (fun t n => (num_rows t + n)%nat) 0%nat tables).

End merge.

(** ** Merging protos *)
Module protobuf.
Import statistics_pb2.

Definition merge_option {A : Type} (merge : A -> A -> A) (a b : option A)
  : option A :=
  match a, b with
  | Some x, Some y => Some (merge x y)
  | Some x, None => Some x
  | None, _ => b
  end.

(** A scalar field of the other message is taken when it is set, that is
    when it is not zero. *)
Definition merge_scalar (a b : Z) : Z := if b =? 0 then a else b.

Definition merge_common (a b : CommonStatistics) : CommonStatistics :=
  mkCommonStatistics
    (merge_scalar (num_non_missing a) (num_non_missing b))
    (merge_scalar (num_missing a) (num_missing b))
    (mkWeightedCommonStatistics
       (merge_scalar (w_num_non_missing (weighted_common_stats a))
          (w_num_non_missing (weighted_common_stats b)))
       (merge_scalar (w_num_missing (weighted_common_stats a))
          (w_num_missing (weighted_common_stats b)))).

Definition merge_string (a b : StringStatistics) : StringStatistics :=
  mkStringStatistics
    (merge_option merge_common (common_stats a) (common_stats b))
    (merge_scalar (unique a) (unique b))
    (top_values a ++ top_values b)
    (rank_histogram a ++ rank_histogram b)
    (merge_option
       (fun x y =>
          mkWeightedStringStatistics (w_top_values x ++ w_top_values y)
            (w_rank_histogram x ++ w_rank_histogram y))
       (weighted_string_stats a) (weighted_string_stats b)).

(** Modelled from the spec: the protobuf library is not among the sources.
    MergeFrom is the field-wise union of two per-feature summaries: repeated
    fields are concatenated, set scalar fields are taken over, messages are
    merged field by field, and a oneof takes the case of the other message
    when that one is set. *)
Definition MergeFrom (a b : FeatureNameStatistics) : FeatureNameStatistics :=
  mkFeatureNameStatistics
    (path a ++ path b)
    (match type b with INT => type a | t => t end)
    (match stats a, stats b with
     | s, NoStats => s
     | num_stats x, num_stats y => num_stats (merge_option merge_common x y)
     | string_stats x, string_stats y => string_stats (merge_string x y)
     | _, s => s
     end)
    (custom_stats a ++ custom_stats b).

End protobuf.

(** ** Notions used in the statements *)
Section Notions.
Import statistics_pb2 arrow stats_impl.
Import top_k_uniques_stats_generator.

(** The label a value gets in the output, and the warnings logged for
    it. *)
Definition label_of (value : FeatureValue) : string :=
  match value with
  | BytesValue b => default _INVALID_STRING (maybe_get_utf8 b)
  | TextValue s => s
  | IntValue z => pretty z
  end.

Definition warnings_of (feature_path : FeaturePath) (value : FeatureValue)
  : list LogRecord :=
  match value with
  | BytesValue b =>
    match maybe_get_utf8 b with
    | Some _ => []
    | None => [mkLogRecord feature_path None]
    end
  | _ => []
  end.

Definition entry_of (vc : FeatureValueCount) : FreqAndValue :=
  mkFreqAndValue (label_of (feature_value vc)) (count vc).

Definition bucket_of (i : nat) (vc : FeatureValueCount) : Bucket :=
  mkBucket (Z.of_nat i) (Z.of_nat i) (count vc) (label_of (feature_value vc)).

Fixpoint take_while {A : Type} (p : A -> bool) (l : list A) : list A :=
  match l with
  | [] => []
  | x :: t => if p x then x :: take_while p t else []
  end.

(** The ranked value counts that reach the frequency threshold. *)
Definition ranked (frequency_threshold : Z) (l : list FeatureValueCount)
  : list FeatureValueCount :=
  take_while (fun vc => frequency_threshold <=? count vc) (sort_desc l).

(** [ranks_above x y]: the sort key of [x] is at least that of [y], so
    that [x] may stand before [y] in the descending order. *)
Definition ranks_above (x y : FeatureValueCount) : Prop := key_leb y x = true.

(** The top values and the rank histogram of a proto made by
    make_feature_stats_proto_with_topk_stats: those of the weighted string
    statistics when the value counts are weighted. *)
Definition topk_lists (is_weighted_stats : bool) (p : FeatureNameStatistics)
  : list FreqAndValue * list Bucket :=
  let s := get_string_stats p in
  if is_weighted_stats then
    match weighted_string_stats s with
    | Some w => (w_top_values w, w_rank_histogram w)
    | None => ([], [])
    end
  else (top_values s, rank_histogram s).

(** The operations of the batching wrapper that take one accumulator. *)
Inductive Op : Type :=
  | AddInput (input_table : Table)
  | Compact
  | ExtractOutput.

Context {Acc : Type}.
Variable MergeTables : list Table -> Table.
Variable MergeFrom :
  FeatureNameStatistics -> FeatureNameStatistics -> FeatureNameStatistics.

Definition step (self : _CombinerStatsGeneratorsCombineFn.t Acc)
    (accumulator : _CombinerStatsGeneratorsCombineFn.Accumulator Acc)
    (op : Op) : _CombinerStatsGeneratorsCombineFn.Accumulator Acc :=
  match op with
  | AddInput input_table =>
    _CombinerStatsGeneratorsCombineFn.add_input MergeTables self accumulator
      input_table
  | Compact =>
    _CombinerStatsGeneratorsCombineFn.compact MergeTables self accumulator
  | ExtractOutput =>
    (_CombinerStatsGeneratorsCombineFn.extract_output MergeTables MergeFrom
       self accumulator).1
  end.

(** The accumulator after a sequence of operations on a fresh one. *)
Definition run (self : _CombinerStatsGeneratorsCombineFn.t Acc)
    (ops : list Op) : _CombinerStatsGeneratorsCombineFn.Accumulator Acc :=
  foldl (step self) (_CombinerStatsGeneratorsCombineFn.create_accumulator self)
    ops.

(** The batches handed to add_input, in order. *)
Definition added (ops : list Op) : list Table :=
  omap (fun op => match op with
                  | AddInput input_table => Some input_table
                  | _ => None
                  end) ops.

(** The number of rows of a list of batches. *)
Definition rows_of (tables : list Table) : Z :=
  foldr (fun t n => Z.of_nat (num_rows t) + n) 0 tables.

(** Folding groups of batches, one combined table per group, into the
    accumulator of a generator. *)
Definition fold_groups (gen : CombinerStatsGenerator.t Acc)
    (groups : list (list Table)) : Acc :=
  foldl (fun a group =>
           CombinerStatsGenerator.add_input gen a
             (_CombinerStatsGeneratorsCombineFn.arrow_table_of MergeTables group))
    (CombinerStatsGenerator.create_accumulator gen) groups.

(** [derived gen a batches]: the accumulator [a] of the generator [gen]
    comes from a fresh accumulator by the generator's own add_input, on
    combined tables of pending batches, and merge_accumulators, and
    [batches] are the batches folded on the way. *)
Inductive derived (gen : CombinerStatsGenerator.t Acc)
  : Acc -> list Table -> Prop :=
  | derived_create :
      derived gen (CombinerStatsGenerator.create_accumulator gen) []
  | derived_add_input a batches group :
      derived gen a batches ->
      derived gen
        (CombinerStatsGenerator.add_input gen a
           (_CombinerStatsGeneratorsCombineFn.arrow_table_of MergeTables group))
        (batches ++ group)
  | derived_merge accumulators batches :
      Forall2 (derived gen) accumulators batches ->
      derived gen (CombinerStatsGenerator.merge_accumulators gen accumulators)
        (concat batches).

(** The accumulators of the batching wrapper that the operations build:
    a fresh one, add_input, compact, extract_output and merge_accumulators
    on accumulators built before. *)
Inductive Build : Type :=
  | New
  | AddInputTo (b : Build) (input_table : Table)
  | CompactOf (b : Build)
  | ExtractOutputOf (b : Build)
  | Merge (bs : list Build).

Fixpoint built (self : _CombinerStatsGeneratorsCombineFn.t Acc) (b : Build)
  : _CombinerStatsGeneratorsCombineFn.Accumulator Acc :=
  match b with
  | New => _CombinerStatsGeneratorsCombineFn.create_accumulator self
  | AddInputTo b input_table =>
    _CombinerStatsGeneratorsCombineFn.add_input MergeTables self (built self b)
      input_table
  | CompactOf b =>
    _CombinerStatsGeneratorsCombineFn.compact MergeTables self (built self b)
  | ExtractOutputOf b =>
    (_CombinerStatsGeneratorsCombineFn.extract_output MergeTables MergeFrom
       self (built self b)).1
  | Merge bs =>
    _CombinerStatsGeneratorsCombineFn.merge_accumulators MergeTables self
      (built self <$> bs)
  end.

(** The batches given to add_input on the way to an accumulator. *)
Fixpoint batches_of (b : Build) : list Table :=
  match b with
  | New => []
  | AddInputTo b input_table => batches_of b ++ [input_table]
  | CompactOf b | ExtractOutputOf b => batches_of b
  | Merge bs => concat (batches_of <$> bs)
  end.

(** No batch is lost: the batches [batches] are, up to their order, the
    batches [folded] that every generator has folded and the batches still in
    the queue; the counter is the number of rows in the queue. *)
Definition kept (self : _CombinerStatsGeneratorsCombineFn.t Acc)
    (accumulator : _CombinerStatsGeneratorsCombineFn.Accumulator Acc)
    (batches : list Table) : Prop :=
  exists folded,
    Forall2 (fun gen a => derived gen a folded)
      (_CombinerStatsGeneratorsCombineFn._generators self)
      (_CombinerStatsGeneratorsCombineFn.partial_accumulators accumulator)
    /\ folded ++ _CombinerStatsGeneratorsCombineFn.input_tables accumulator
       ≡ₚ batches
    /\ _CombinerStatsGeneratorsCombineFn.curr_batch_size accumulator
       = rows_of (_CombinerStatsGeneratorsCombineFn.input_tables accumulator).

(** The state of the wrapper after the groups [groups] were flushed, seen
    from the batches [batches] it was given: every batch is in a flushed
    group or still pending, every generator has folded exactly the flushed
    groups, and the counter is the number of pending rows. *)
Definition accounted (self : _CombinerStatsGeneratorsCombineFn.t Acc)
    (accumulator : _CombinerStatsGeneratorsCombineFn.Accumulator Acc)
    (groups : list (list Table)) (batches : list Table) : Prop :=
  concat groups ++ _CombinerStatsGeneratorsCombineFn.input_tables accumulator
  = batches
  /\ _CombinerStatsGeneratorsCombineFn.partial_accumulators accumulator
     = (fun gen => fold_groups gen groups)
         <$> _CombinerStatsGeneratorsCombineFn._generators self
  /\ _CombinerStatsGeneratorsCombineFn.curr_batch_size accumulator
     = rows_of (_CombinerStatsGeneratorsCombineFn.input_tables accumulator)
  /\ Forall (fun group => group <> []) groups.

End Notions.

(** ** Example data *)
Module examples.
Import statistics_pb2 arrow stats_impl.

(** NumExamplesStatsGenerator without a weight feature, as a generator of
    the interface: without a weight feature add_input returns. *)
Definition NumExamples : CombinerStatsGenerator.t (Z * Z) :=
  CombinerStatsGenerator.mk
    NumExamplesStatsGenerator.create_accumulator
    (fun accumulator examples_table =>
       (accumulator.1 + Z.of_nat (num_rows examples_table), accumulator.2))
    NumExamplesStatsGenerator.merge_accumulators
    NumExamplesStatsGenerator.extract_output.

(** A single-feature generator that counts the values of the columns it has
    folded (the considered count of a heuristic classifier). *)
Definition CountValues : CombinerFeatureStatsGenerator.t Z :=
  CombinerFeatureStatsGenerator.mk
    0
    (fun accumulator feature_column =>
       accumulator + Z.of_nat (length (FlattenListArray (data feature_column))))
    (foldr Z.add 0)
    (fun accumulator =>
       mkFeatureNameStatistics [] INT NoStats
         [mkCustomStatistic "considered" accumulator]).

(** A batch of no row. *)
Definition no_rows : Table := mkTable [mkColumn "f" STRING []] 0.

(** Two batches with the string feature f: three values, then one. *)
Definition batch1 : Table :=
  mkTable [mkColumn "f" STRING
             [Some [TextValue "x"; TextValue "y"]; Some [TextValue "x"]]] 2.
Definition batch2 : Table :=
  mkTable [mkColumn "f" STRING [Some [TextValue "z"]]] 1.

(** A batch of two rows with the weight feature w, the first row without a
    value of f, and its two halves. *)
Definition weighted_batch : Table :=
  mkTable [mkColumn "f" STRING [None; Some [TextValue "x"]];
           mkColumn "w" INT [Some [IntValue 2]; Some [IntValue 3]]] 2.
Definition weighted_batch_head : Table :=
  mkTable [mkColumn "f" STRING [None];
           mkColumn "w" INT [Some [IntValue 2]]] 1.
Definition weighted_batch_tail : Table :=
  mkTable [mkColumn "f" STRING [Some [TextValue "x"]];
           mkColumn "w" INT [Some [IntValue 3]]] 1.

(** A top-k and uniques combiner with the weight feature w and the default
    limits. *)
Definition weighted_generator
  : top_k_uniques_combiner_stats_generator.TopKUniquesCombinerStatsGenerator :=
  top_k_uniques_combiner_stats_generator.mkGenerator ∅ (Some "w") 2 1 1 1000.

(** Merged statistics of ten examples in which the feature F has seven
    non-missing values. *)
Definition ten_examples : DatasetFeatureStatistics :=
  mkDatasetFeatureStatistics 0
    (mkFeatureNameStatistics ["F"] STRING
       (string_stats
          (mkStringStatistics
             (Some (mkCommonStatistics 7 0 WeightedCommonStatistics0))
             3 [] [] None)) []
     :: features (NumExamplesStatsGenerator.extract_output (10, 0))).

End examples.


(** ** Notions used in the further properties *)
Section FurtherNotions.
Import statistics_pb2 arrow.
Import top_k_uniques_combiner_stats_generator.

(** The counter add_input makes of the flattened values of a column: every
    distinct value with the number of its occurrences. *)
Definition tally (values : list FeatureValue) : gmap FeatureValue Z :=
  foldl (fun c vc => <[vc.1 := vc.2]> c) (∅ : gmap FeatureValue Z)
    (ValueCounts values).

(** The unweighted count of a value for a feature path in an accumulator, 0
    when the path or the value is not a key. *)
Definition count_of (accumulator : gmap FeaturePath _ValueCounts)
    (feature_path : FeaturePath) (value : FeatureValue) : Z :=
  default 0 (value_counts ← accumulator !! feature_path;
             unweighted_counts value_counts !! value).

(** The columns add_input computes top-k and uniques on: not the weight
    feature, and categorical or of string type. *)
Definition eligible (self : TopKUniquesCombinerStatsGenerator)
    (column : Column) : bool :=
  negb (bool_decide (Some (name column) = _weight_feature self))
  && (bool_decide ([name column] ∈ _categorical_features self)
      || bool_decide (feature_type column = STRING)).

(** The flattened values of the eligible columns of a feature path, in the
    order of the columns; None when the path has no eligible column. *)
Definition values_step (self : TopKUniquesCombinerStatsGenerator)
    (feature_path : FeaturePath) (found : option (list FeatureValue))
    (column : Column) : option (list FeatureValue) :=
  if eligible self column && bool_decide ([name column] = feature_path)
  then Some (default [] found ++ FlattenListArray (data column))
  else found.

Definition values_of (self : TopKUniquesCombinerStatsGenerator)
    (columns : list Column) (feature_path : FeaturePath)
  : option (list FeatureValue) :=
  foldl (values_step self feature_path) None columns.

(** The first [k] rows of a table, and the rows after them. *)
Definition rows_take (k : nat) (table : Table) : Table :=
  mkTable ((fun c => mkColumn (name c) (feature_type c) (take k (data c)))
             <$> columns table)
    (Nat.min k (num_rows table)).

Definition rows_drop (k : nat) (table : Table) : Table :=
  mkTable ((fun c => mkColumn (name c) (feature_type c) (drop k (data c)))
             <$> columns table)
    (num_rows table - k).

End FurtherNotions.

(** ** Notions used in the properties of the weighted counts *)
Section WeightedNotions.
Import statistics_pb2 arrow.
Import top_k_uniques_combiner_stats_generator.

(** The values of a column, each with the weight of its row. *)
Definition weighted_pairs (rows : list (option (list FeatureValue)))
    (weights : list Z) : list (FeatureValue * Z) :=
  concat (zip_with (fun row w => (fun v => (v, w)) <$> default [] row)
            rows weights).





(** A table with a weight column: three examples of weights 2, 3 and 5. *)
Definition weighted_table : Table :=
  mkTable
    [mkColumn "w" INT
       [Some [IntValue 2]; Some [IntValue 3]; Some [IntValue 5]];
     mkColumn "f" STRING
       [Some [TextValue "a"; TextValue "b"]; None; Some [TextValue "a"]]]
    3.

End WeightedNotions.

(** ** Notions used in the properties of the merged protos *)
Section MergedNotions.
Import statistics_pb2 stats_impl.

(** The statistics of the features of one path merged in their order: the
    first one receives the others, its path steps deleted before each
    MergeFrom. None when there is none. *)
Definition merge_all
    (MergeFrom :
       FeatureNameStatistics -> FeatureNameStatistics -> FeatureNameStatistics)
    (protos : list FeatureNameStatistics) : option FeatureNameStatistics :=
  match protos with
  | [] => None
  | first :: others =>
    Some (foldl (fun stats_for_feature feature_stats_proto =>
                   MergeFrom
                     (mkFeatureNameStatistics [] (type stats_for_feature)
                        (stats stats_for_feature)
                        (custom_stats stats_for_feature))
                     feature_stats_proto)
            first others)
  end.

End MergedNotions.

(** ** Notions used in the properties of the feature wrapper *)
Section WrapperNotions.
Import statistics_pb2 arrow stats_impl.
Import CombinerFeatureStatsWrapperGenerator.
Context {Acc : Type}.

(** The fresh slots of a feature path, one accumulator per generator. *)
Definition fresh_slots (self : t Acc) : list Acc :=
  (fun generator => CombinerFeatureStatsGenerator.create_accumulator generator)
    <$> _feature_stats_generators self.

(** The slots a column is folded into: every generator folds it into a fresh
    accumulator. *)
Definition folded_slots (self : t Acc) (feature_column : Column) : list Acc :=
  (fun generator =>
     CombinerFeatureStatsGenerator.add_input generator
       (CombinerFeatureStatsGenerator.create_accumulator generator)
       feature_column) <$> _feature_stats_generators self.

(** Every generator merges its slot of [mine] with its slot of [theirs]. *)
Definition merged_slots (self : t Acc) (mine theirs : list Acc) : list Acc :=
  zip_with (fun generator slots =>
              CombinerFeatureStatsGenerator.merge_accumulators generator
                [slots.1; slots.2])
    (_feature_stats_generators self) (zip mine theirs).

(** The slots of a feature path after the wrapper accumulators were merged
    one after the other, starting from fresh slots at the first accumulator
    that has the path. *)
Definition merged_entry (self : t Acc) (feature_path : FeaturePath)
    (mine : option (list Acc))
    (wrapper_accumulator : gmap FeaturePath (list Acc)) : option (list Acc) :=
  match wrapper_accumulator !! feature_path with
  | None => mine
  | Some theirs =>
    Some (merged_slots self (default (fresh_slots self) mine) theirs)
  end.

(** Every entry has one slot per generator. *)
Definition well_formed (self : t Acc)
    (wrapper_accumulator : gmap FeaturePath (list Acc)) : Prop :=
  map_Forall (fun _ slots =>
                length slots = length (_feature_stats_generators self))
    wrapper_accumulator.

(** The columns add_input folds for a feature path. *)
Definition folded_for (self : t Acc) (feature_path : FeaturePath)
    (feature_column : Column) : bool :=
  negb (bool_decide (Some (arrow.name feature_column) = _weight_feature self))
  && bool_decide ([arrow.name feature_column] = feature_path).

End WrapperNotions.

(** ** The schema (tensorflow_metadata schema_pb2)

    The schema protos are an external library; a message is modelled by the
    fields the code reads and writes. *)
Module schema_pb2.

Inductive FeatureType : Type :=
  | TYPE_UNKNOWN
  | BYTES
  | INT
  | FLOAT
  | STRUCT.

Global Instance FeatureType_eq_dec : EqDecision FeatureType.
Proof. solve_decision. Defined.

Record IntDomain : Type := mkIntDomain {
  int_min : Z;
  int_max : Z;
  is_categorical : bool
}.

Record FloatDomain : Type := mkFloatDomain {
  float_min : Q;
  float_max : Q
}.

(** A string domain; [domain_name] is the name a global domain of the schema
    is referred to by. *)
Record StringDomain : Type := mkStringDomain {
  domain_name : string;
  value : list string
}.

Record BoolDomain : Type := mkBoolDomain {
  true_value : string;
  false_value : string
}.

(** The oneof [domain_info] of a feature, over the features [F] of a struct
    domain: not set, the name of a global string domain, one of the four
    domains the code handles, the struct domain, or another case, of which
    the name is kept. *)
Inductive DomainInfo (F : Type) : Type :=
  | domain_info_not_set
  | domain (name : string)
  | int_domain (d : IntDomain)
  | float_domain (d : FloatDomain)
  | string_domain (d : StringDomain)
  | bool_domain (d : BoolDomain)
  | struct_domain (feature : list F)
  | other_domain (case : string).
Arguments domain_info_not_set {F}.
Arguments domain {F} name.
Arguments int_domain {F} d.
Arguments float_domain {F} d.
Arguments string_domain {F} d.
Arguments bool_domain {F} d.
Arguments struct_domain {F} feature.
Arguments other_domain {F} case.

Inductive Feature : Type :=
  mkFeature (name : string) (type : FeatureType)
    (domain_info : DomainInfo Feature).

Definition name (f : Feature) : string :=
  match f with mkFeature n _ _ => n end.
Definition type (f : Feature) : FeatureType :=
  match f with mkFeature _ t _ => t end.
Definition domain_info (f : Feature) : DomainInfo Feature :=
  match f with mkFeature _ _ d => d end.

(** [f.struct_domain.feature]: empty when the oneof holds another case. *)
Definition struct_domain_feature (f : Feature) : list Feature :=
  match domain_info f with
  | struct_domain feature => feature
  | _ => []
  end.

(** The fields of a schema the code reads: the top-level features and the
    global string domains. *)
Record Schema : Type := mkSchema {
  feature : list Feature;
  global_string_domain : list StringDomain
}.

End schema_pb2.

(** ** utils/schema_util.py

    The isinstance checks of the arguments are left out: the arguments are
    typed. *)
Module schema_util.
Import schema_pb2.

(** FEATURE_DOMAIN: the union of the four domain messages. *)
Inductive FEATURE_DOMAIN : Type :=
  | IntDomainOf (d : IntDomain)
  | FloatDomainOf (d : FloatDomain)
  | StringDomainOf (d : StringDomain)
  | BoolDomainOf (d : BoolDomain).

(** The [domain] argument of set_domain: one of the four domain messages or
    the name of a global string domain. *)
Inductive DomainArgument : Type :=
  | message (d : FEATURE_DOMAIN)
  | global_domain_name (name : string).

Definition _look_up_feature (feature_name : string) (container : list Feature)
  : option Feature :=
  List.find (fun f => bool_decide (name f = feature_name)) container.

(** The loop [for step in parent.steps()] of get_feature: the container
    reached from [feature_container] by the steps. *)
Fixpoint descend (steps : list string) (feature_container : list Feature)
  : result (list Feature) :=
  match steps with
  | [] => Ok feature_container
  | step :: rest =>
    match _look_up_feature step feature_container with
    | None => Raise ValueError
    | Some f =>
      if bool_decide (type f <> STRUCT) then Raise ValueError
      else descend rest (struct_domain_feature f)
    end
  end.

(** Modelled from the spec: types.py (FeaturePath) is not among the sources.
    A feature path is the ordered sequence of its steps; its parent is the
    path without the last step. On the path without a step, which has no
    last step, get_feature fails. *)
Definition get_feature (schema : Schema) (feature_path : FeaturePath)
  : result Feature :=
  match last feature_path with
  | None => Raise ValueError
  | Some last_step =>
    feature_container ← descend (removelast feature_path) (feature schema);
    match _look_up_feature last_step feature_container with
    | None => Raise ValueError
    | Some feature => Ok feature
    end
  end.

Definition get_domain (schema : Schema) (feature_path : FeaturePath)
  : result FEATURE_DOMAIN :=
  feature ← get_feature schema feature_path;
  match domain_info feature with
  | domain_info_not_set => Raise ValueError
  | bool_domain d => Ok (BoolDomainOf d)
  | domain name =>
    match List.find (fun d => bool_decide (domain_name d = name))
            (global_string_domain schema) with
    | Some d => Ok (StringDomainOf d)
    | None => Raise ValueError
    end
  | float_domain d => Ok (FloatDomainOf d)
  | int_domain d => Ok (IntDomainOf d)
  | string_domain d => Ok (StringDomainOf d)
  | _ => Raise ValueError
  end.

(** The first feature of the name [feature_name] in the container, the one
    _look_up_feature returns, updated in place. *)
Fixpoint update_feature (feature_name : string) (update : Feature -> Feature)
    (container : list Feature) : list Feature :=
  match container with
  | [] => []
  | f :: rest =>
    if bool_decide (name f = feature_name) then update f :: rest
    else f :: update_feature feature_name update rest
  end.

(** The feature get_feature returns for the steps is a part of the schema:
    updating it in place updates the containers on the way to it. *)
Fixpoint update_at (steps : list string) (update : Feature -> Feature)
    (container : list Feature) : list Feature :=
  match steps with
  | [] => container
  | [last_step] => update_feature last_step update container
  | step :: rest =>
    update_feature step
      (fun f =>
         match f with
         | mkFeature n t (struct_domain fs) =>
           mkFeature n t (struct_domain (update_at rest update fs))
         | _ => f
         end)
      container
  end.

(** set_domain updates the schema in place: it gives the updated schema and
    the warnings logged. Setting a field of the oneof [domain_info] makes it
    the case the oneof holds. *)
Definition set_domain (schema : Schema) (feature_path : FeaturePath)
    (domain0 : DomainArgument) : result (Schema * list LogRecord) :=
  feature0 ← get_feature schema feature_path;
  if bool_decide (type feature0 = STRUCT) then Raise TypeError
  else
    let log :=
      match domain_info feature0 with
      | domain_info_not_set => []
      | _ => [mkLogRecord feature_path None]
      end in
    domain_info' ←
      match domain0 with
      | message (IntDomainOf d) => Ok (int_domain d)
      | message (FloatDomainOf d) => Ok (float_domain d)
      | message (StringDomainOf d) => Ok (string_domain d)
      | message (BoolDomainOf d) => Ok (bool_domain d)
      | global_domain_name name =>
        let found_domain :=
          existsb (fun global_domain =>
                     bool_decide (domain_name global_domain = name))
            (global_string_domain schema) in
        if negb found_domain then Raise ValueError else Ok (domain name)
      end;
    Ok (mkSchema
          (update_at feature_path
             (fun f => mkFeature (name f) (type f) domain_info')
             (feature schema))
          (global_string_domain schema),
        log).

Definition is_categorical_feature (feature : Feature) : bool :=
  match type feature with
  | BYTES => true
  | INT =>
    match domain_info feature with
    | int_domain d => is_categorical d
    | bool_domain _ => true
    | _ => false
    end
  | _ => false
  end.

(** _recursion_helper of _get_all_leaf_features, on one feature of the
    container and on the container; the list is what is appended to
    [result]. *)
Fixpoint _recursion_helper_feature (parent_path : FeaturePath) (f : Feature)
  : list (FeaturePath * Feature) :=
  match f with
  | mkFeature n t d =>
    let feature_path := parent_path ++ [n] in
    if bool_decide (t <> STRUCT) then [(feature_path, f)]
    else
      match d with
      | struct_domain feature_container =>
        (fix helper (feature_container : list Feature) :=
           match feature_container with
           | [] => []
           | g :: rest =>
             _recursion_helper_feature feature_path g ++ helper rest
           end) feature_container
      | _ => []
      end
  end.

Definition _recursion_helper (parent_path : FeaturePath)
    (feature_container : list Feature) : list (FeaturePath * Feature) :=
  concat (_recursion_helper_feature parent_path <$> feature_container).

Definition _get_all_leaf_features (schema : Schema)
  : list (FeaturePath * Feature) :=
  _recursion_helper [] (feature schema).

Definition get_categorical_numeric_features (schema : Schema)
  : list FeaturePath :=
  (filter (fun pf : FeaturePath * Feature =>
             type pf.2 = INT /\ is_categorical_feature pf.2 = true)
     (_get_all_leaf_features schema)).*1.

Definition get_categorical_features (schema : Schema) : gset FeaturePath :=
  list_to_set
    (filter (fun pf : FeaturePath * Feature =>
               is_categorical_feature pf.2 = true)
       (_get_all_leaf_features schema)).*1.

End schema_util.

(** ** Notions used in the properties of the schema utilities *)
Section SchemaNotions.
Import schema_pb2 schema_util.

(** The names of the features are pairwise distinct in the top-level
    container and in the container of every STRUCT feature. *)
Inductive unique_names : list Feature -> Prop :=
  | unique_names_intro (container : list Feature) :
      NoDup (name <$> container) ->
      Forall (fun f => type f = STRUCT ->
                       unique_names (struct_domain_feature f)) container ->
      unique_names container.

(** get_feature on the features of a container, step by step. *)
Definition find_feature (container : list Feature) (steps : FeaturePath)
  : result Feature :=
  get_feature (mkSchema container []) steps.

(** [reach container steps f]: the steps lead from the container through
    STRUCT features to the feature [f], which is not a STRUCT feature. *)
Inductive reach : list Feature -> list string -> Feature -> Prop :=
  | reach_leaf container f :
      f ∈ container -> type f <> STRUCT -> reach container [name f] f
  | reach_struct container g steps f :
      g ∈ container -> type g = STRUCT ->
      reach (struct_domain_feature g) steps f ->
      reach container (name g :: steps) f.

(** The update of the containers on the way to a feature. *)
Definition update_below (rest : list string) (update : Feature -> Feature)
    (f : Feature) : Feature :=
  match f with
  | mkFeature n t (struct_domain fs) =>
    mkFeature n t (struct_domain (update_at rest update fs))
  | _ => f
  end.

(** A schema with a struct feature. *)
Definition example_schema : Schema :=
  mkSchema
    [mkFeature "id" INT (int_domain (mkIntDomain 0 9 true));
     mkFeature "user" STRUCT
       (struct_domain
          [mkFeature "name" BYTES domain_info_not_set;
           mkFeature "age" INT domain_info_not_set])]
    [mkStringDomain "colors" ["red"; "green"]].

(** The schema after the global domain of the colors is set for the age of
    the user. *)
Definition example_schema_colors : Schema :=
  mkSchema
    [mkFeature "id" INT (int_domain (mkIntDomain 0 9 true));
     mkFeature "user" STRUCT
       (struct_domain
          [mkFeature "name" BYTES domain_info_not_set;
           mkFeature "age" INT (domain "colors")])]
    [mkStringDomain "colors" ["red"; "green"]].

End SchemaNotions.

(** ** The constructor of the top-k and uniques combiner

    TopKUniquesCombinerStatsGenerator.__init__ of
    top_k_uniques_combiner_stats_generator.py, which calls schema_util. The
    name of the generator is left out. *)
Module TopKUniquesCombinerStatsGenerator.
Import top_k_uniques_combiner_stats_generator.

Definition __init__ (schema : option schema_pb2.Schema)
    (weight_feature : option string)
    (num_top_values frequency_threshold weighted_frequency_threshold
       num_rank_histogram_buckets : Z)
  : TopKUniquesCombinerStatsGenerator :=
  mkGenerator
    (list_to_set
       match schema with
       | Some schema => schema_util.get_categorical_numeric_features schema
       | None => []
       end)
    weight_feature num_top_values frequency_threshold
    weighted_frequency_threshold num_rank_histogram_buckets.

End TopKUniquesCombinerStatsGenerator.

(** The columns of a batch: an integer column and a string column. *)
Definition id_batch : arrow.Table :=
  arrow.mkTable
    [arrow.mkColumn "id" statistics_pb2.INT
       [Some [IntValue 1]; Some [IntValue 1]];
     arrow.mkColumn "color" statistics_pb2.STRING
       [Some [TextValue "red"]; None]]
    2.

(** ** statistics/stats_impl.py: the in-memory statistics *)
Module stats_impl_in_memory.
Import statistics_pb2 arrow stats_impl.

(** [pa.Table.from_arrays], of the columnar library: the table of the given
    columns, which has as many rows as they have. *)
Definition from_arrays (arrays : list Column) : Table :=
  mkTable arrays
    match arrays with
    | c :: _ => length (data c)
    | [] => 0%nat
    end.

(** _filter_features; [feature_whitelist] is the set of names in the order
    of its iteration. *)
Definition _filter_features (table : Table) (feature_whitelist : list string)
  : Table :=
  let column_names := name <$> columns table in
  from_arrays
    (omap (fun feature_name =>
             if bool_decide (feature_name ∈ column_names)
             then List.find (fun c => bool_decide (name c = feature_name))
                    (columns table)
             else None)
       feature_whitelist).

(** generate_partial_statistics_in_memory; of the options it reads the
    feature whitelist, which is None or a list of names. *)
Definition generate_partial_statistics_in_memory {Acc : Type} (table : Table)
    (feature_whitelist : option (list string))
    (stats_generators : list (CombinerStatsGenerator.t Acc))
  : result (list Acc) :=
  table ←
    match feature_whitelist with
    | Some ((_ :: _) as feature_whitelist) =>
      whitelisted_columns ← mapM (column table) feature_whitelist;
      Ok (from_arrays whitelisted_columns)
    | _ => Ok table
    end;
  Ok ((fun generator =>
         CombinerStatsGenerator.add_input generator
           (CombinerStatsGenerator.create_accumulator generator) table)
        <$> stats_generators).

(** _make_dataset_feature_statistics_list_proto: the list of the datasets
    of the DatasetFeatureStatisticsList proto. *)
Definition _make_dataset_feature_statistics_list_proto
    (stats_protos : list DatasetFeatureStatistics)
  : result (list DatasetFeatureStatistics) :=
  mapM _update_example_and_missing_count stats_protos.

Definition extract_statistics_output {Acc : Type}
    (MergeFrom :
       FeatureNameStatistics -> FeatureNameStatistics -> FeatureNameStatistics)
    (partial_stats : list Acc)
    (stats_generators : list (CombinerStatsGenerator.t Acc))
  : result (list DatasetFeatureStatistics) :=
  let outputs :=
    zip_with (fun gen stats => CombinerStatsGenerator.extract_output gen stats)
      stats_generators partial_stats in
  _make_dataset_feature_statistics_list_proto
    [_CombinerStatsGeneratorsCombineFn._merge_dataset_feature_stats_protos
       MergeFrom outputs].

End stats_impl_in_memory.

(** A generator that counts the rows in which the feature F is present, in
    the first component of its accumulator, and reports the count as the
    non-missing count of F. *)
Definition PresenceOfF : stats_impl.CombinerStatsGenerator.t (Z * Z) :=
  stats_impl.CombinerStatsGenerator.mk
    (0, 0)
    (fun accumulator examples_table =>
       (accumulator.1
        + Z.of_nat
            (length
               (filter (fun row => row <> None)
                  (concat
                     (arrow.data
                        <$> filter (fun c => arrow.name c = "F")
                              (arrow.columns examples_table))))),
        accumulator.2))
    (foldl (fun result acc => (result.1 + acc.1, result.2 + acc.2)) (0, 0))
    (fun accumulator =>
       statistics_pb2.mkDatasetFeatureStatistics 0
         [statistics_pb2.mkFeatureNameStatistics ["F"] statistics_pb2.STRING
            (statistics_pb2.string_stats
               (statistics_pb2.mkStringStatistics
                  (Some (statistics_pb2.mkCommonStatistics accumulator.1 0
                           statistics_pb2.WeightedCommonStatistics0))
                  0 [] [] None)) []]).

(** ** Notions used in the properties of the merge in groups *)
Section GroupNotions.
Import stats_impl.
Import _CombinerStatsGeneratorsCombineFn.
Context {Acc : Type}.

(** The accumulator of the generator of index [i] after the groups of
    accumulators were merged one after the other: the generator merges the
    result so far, which comes first, with its accumulators of the group. *)
Definition merged_in_groups (gen : CombinerStatsGenerator.t Acc) (i : nat)
    (groups : list (list (Accumulator Acc))) : Acc :=
  foldl (fun result group =>
           CombinerStatsGenerator.merge_accumulators gen
             (result :: omap (fun a => partial_accumulators a !! i) group))
    (CombinerStatsGenerator.create_accumulator gen) groups.

(** An accumulator without pending batches that has one partial accumulator
    per generator. *)
Definition flushed (self : t Acc) (a : Accumulator Acc) : Prop :=
  length (partial_accumulators a) = length (_generators self)
  /\ input_tables a = [] /\ curr_batch_size a = 0.

End GroupNotions.

(** * Theorems *)

(** ** The ranking order *)

Lemma value_leb_total x y : value_leb x y = true \/ value_leb y x = true.
Proof.
  destruct x, y; simpl; try (left; reflexivity); try (right; reflexivity);
    try apply String.leb_total.
  destruct (Z.leb_spec z z0); [left|right]; [done|]. apply Z.leb_le. lia.
Qed.

Lemma string_leb_trans a b c :
  String.leb a b = true -> String.leb b c = true -> String.leb a c = true.
Proof.
  intros H1 H2. apply Is_true_true.
  apply (transitivity (R := String.le) (y := b)); by apply Is_true_true.
Qed.

Lemma value_leb_trans x y z :
  value_leb x y = true -> value_leb y z = true -> value_leb x z = true.
Proof.
  destruct x, y, z; simpl; try done; try apply string_leb_trans.
  intros ?%Z.leb_le ?%Z.leb_le. apply Z.leb_le. lia.
Qed.

Lemma value_leb_antisym x y :
  value_leb x y = true -> value_leb y x = true -> x = y.
Proof.
  destruct x, y; simpl; try done.
  - intros. f_equal. by apply String.leb_antisym.
  - intros. f_equal. by apply String.leb_antisym.
  - intros ?%Z.leb_le ?%Z.leb_le. f_equal. lia.
Qed.

Lemma key_leb_total x y : key_leb x y = true \/ key_leb y x = true.
Proof.
  unfold key_leb.
  destruct (Z.lt_trichotomy (count x) (count y)) as [H|[H|H]].
  - left. apply orb_true_iff. left. by apply Z.ltb_lt.
  - destruct (value_leb_total (feature_value x) (feature_value y)) as [Hv|Hv];
      [left|right]; apply orb_true_iff; right; rewrite Hv, andb_true_r;
      apply Z.eqb_eq; lia.
  - right. apply orb_true_iff. left. by apply Z.ltb_lt.
Qed.

Lemma key_leb_spec x y :
  key_leb x y = true <->
  count x < count y
  \/ (count x = count y /\ value_leb (feature_value x) (feature_value y) = true).
Proof.
  unfold key_leb.
  rewrite orb_true_iff, andb_true_iff, Z.ltb_lt, Z.eqb_eq. tauto.
Qed.

Lemma key_leb_trans x y z :
  key_leb x y = true -> key_leb y z = true -> key_leb x z = true.
Proof.
  rewrite !key_leb_spec. intros [H1|[H1 V1]] [H2|[H2 V2]]; try (left; lia).
  right. split; [lia|]. by eapply value_leb_trans.
Qed.

Lemma key_leb_antisym x y :
  key_leb x y = true -> key_leb y x = true -> x = y.
Proof.
  rewrite !key_leb_spec. intros [H1|[H1 V1]] [H2|[H2 V2]]; try lia.
  destruct x, y; simpl in *. f_equal; [|done]. by apply value_leb_antisym.
Qed.

Lemma insert_desc_perm x l : insert_desc x l ≡ₚ x :: l.
Proof.
  induction l as [|h t IH]; simpl; [done|].
  destruct (key_leb h x); [done|]. rewrite IH. apply Permutation_swap.
Qed.

Lemma sort_desc_perm l : sort_desc l ≡ₚ l.
Proof.
  induction l as [|x l IH]; simpl; [done|].
  unfold sort_desc in *. simpl. rewrite insert_desc_perm. by rewrite IH.
Qed.

Lemma insert_desc_sorted x l :
  StronglySorted ranks_above l -> StronglySorted ranks_above (insert_desc x l).
Proof.
  induction 1 as [|h t Hs IH Hall]; simpl.
  - repeat constructor.
  - destruct (key_leb h x) eqn:E.
    + constructor; [by constructor|]. constructor; [done|].
      eapply Forall_impl; [exact Hall|]. intros z Hz. unfold ranks_above in *.
      by eapply key_leb_trans.
    + constructor; [done|].
      rewrite (insert_desc_perm x t). constructor; [|done].
      unfold ranks_above. destruct (key_leb_total h x) as [?|?]; congruence.
Qed.

Lemma sort_desc_sorted l : StronglySorted ranks_above (sort_desc l).
Proof.
  induction l as [|x l IH]; [constructor|]. by apply insert_desc_sorted.
Qed.

Lemma sorted_perm_eq l1 l2 :
  StronglySorted ranks_above l1 -> StronglySorted ranks_above l2 ->
  l1 ≡ₚ l2 -> l1 = l2.
Proof.
  intros H1. revert l2. induction H1 as [|x t Hs IH Hall]; intros l2 H2 Hp.
  - by apply Permutation_nil in Hp.
  - destruct H2 as [|y t2 Hs2 Hall2]; [by apply Permutation_sym, Permutation_nil in Hp|].
    assert (x = y) as ->.
    { assert (Hx : x ∈ y :: t2) by (rewrite <- Hp; left).
      assert (Hy : y ∈ x :: t) by (rewrite Hp; left).
      apply elem_of_cons in Hx as [->|Hx]; [done|].
      apply elem_of_cons in Hy as [->|Hy]; [done|].
      rewrite Forall_forall in Hall, Hall2.
      apply key_leb_antisym; [apply Hall2, Hx | apply Hall, Hy]. }
    f_equal. apply IH; [done|]. by apply Permutation_cons_inv in Hp.
Qed.

Lemma sort_desc_perm_eq l1 l2 : l1 ≡ₚ l2 -> sort_desc l1 = sort_desc l2.
Proof.
  intros Hp. apply sorted_perm_eq; try apply sort_desc_sorted.
  by rewrite !sort_desc_perm.
Qed.

(** ** The top-k loop *)
Section TopK.
Import statistics_pb2 top_k_uniques_stats_generator.

Lemma take_while_Forall {A} (p : A -> bool) l :
  Forall (fun x => p x = true) (take_while p l).
Proof.
  induction l as [|x l IH]; simpl; [constructor|].
  destruct (p x) eqn:E; by constructor.
Qed.

Lemma take_while_sublist {A} (p : A -> bool) l x :
  x ∈ take_while p l -> x ∈ l.
Proof.
  induction l as [|y l IH]; simpl; [done|].
  destruct (p y); [|by intros ?%elem_of_nil].
  intros [->|Hy]%elem_of_cons; [left|right; by apply IH].
Qed.

Lemma topk_loop_spec fp ntv thr nrb i l :
  topk_loop fp ntv thr nrb i l =
  (entry_of <$> take (Z.to_nat (ntv - Z.of_nat i))
                  (take_while (fun vc => thr <=? count vc) l),
   imap (fun k vc => bucket_of (i + k) vc)
     (take (Z.to_nat (nrb - Z.of_nat i))
        (take_while (fun vc => thr <=? count vc) l)),
   concat ((fun vc => warnings_of fp (feature_value vc))
             <$> take_while (fun vc => thr <=? count vc) l)).
Proof.
  revert i. induction l as [|[v c] l IH]; intros i; simpl.
  { by rewrite !take_nil. }
  destruct (Z.ltb_spec c thr) as [Hlt|Hge].
  { assert ((thr <=? c) = false) as -> by (apply Z.leb_gt; lia).
    by rewrite !take_nil. }
  assert ((thr <=? c) = true) as -> by (apply Z.leb_le; lia).
  rewrite IH. clear IH.
  assert (Hlab :
    match v with
    | BytesValue b =>
      match maybe_get_utf8 b with
      | Some s => (s, [])
      | None => (_INVALID_STRING, [mkLogRecord fp None])
      end
    | TextValue s => (s, [])
    | IntValue z => (pretty z, [])
    end = (label_of v, warnings_of fp v)).
  { destruct v as [b| |]; simpl; [|done..]. by destruct (maybe_get_utf8 b). }
  rewrite Hlab. simpl.
  apply pair_equal_spec; split; [apply pair_equal_spec; split|].
  - destruct (Z.ltb_spec (Z.of_nat i) ntv).
    + replace (Z.to_nat (ntv - Z.of_nat i))
        with (S (Z.to_nat (ntv - Z.of_nat (S i)))) by lia.
      done.
    + replace (Z.to_nat (ntv - Z.of_nat i)) with 0%nat by lia.
      replace (Z.to_nat (ntv - Z.of_nat (S i))) with 0%nat by lia.
      done.
  - destruct (Z.ltb_spec (Z.of_nat i) nrb).
    + replace (Z.to_nat (nrb - Z.of_nat i))
        with (S (Z.to_nat (nrb - Z.of_nat (S i)))) by lia.
      simpl. unfold bucket_of at 1. rewrite Nat.add_0_r. f_equal.
      apply imap_ext. intros k x _. simpl.
      by replace (i + S k)%nat with (S (i + k)) by lia.
    + replace (Z.to_nat (nrb - Z.of_nat i)) with 0%nat by lia.
      replace (Z.to_nat (nrb - Z.of_nat (S i))) with 0%nat by lia.
      done.
  - done.
Qed.

(** What make_feature_stats_proto_with_topk_stats puts in the proto and
    in the log. *)
Lemma topk_stats_spec fp l cat w ntv thr nrb :
  let r := make_feature_stats_proto_with_topk_stats fp l cat w ntv thr nrb in
  topk_lists w r.1 =
    (entry_of <$> take (Z.to_nat ntv) (ranked thr l),
     imap bucket_of (take (Z.to_nat nrb) (ranked thr l)))
  /\ r.2 = concat ((fun vc => warnings_of fp (feature_value vc))
                     <$> ranked thr l)
  /\ path r.1 = fp
  /\ type r.1 = (if cat then INT else STRING)
  /\ common_stats (get_string_stats r.1) = None
  /\ unique (get_string_stats r.1) = 0
  /\ (w = false -> weighted_string_stats (get_string_stats r.1) = None).
Proof.
  cbv zeta. unfold make_feature_stats_proto_with_topk_stats.
  rewrite topk_loop_spec. rewrite !Z.sub_0_r. fold (ranked thr l).
  assert (Hrh : imap (fun k vc => bucket_of (0 + k) vc)
                  (take (Z.to_nat nrb) (ranked thr l))
                = imap bucket_of (take (Z.to_nat nrb) (ranked thr l))).
  { apply imap_ext. intros. done. }
  rewrite Hrh.
  generalize (entry_of <$> take (Z.to_nat ntv) (ranked thr l)).
  generalize (imap bucket_of (take (Z.to_nat nrb) (ranked thr l))).
  intros rh tv. destruct tv, rh, w, cat; simpl; done.
Qed.

Lemma length_ranked_le thr l : (length (ranked thr l) <= length l)%nat.
Proof.
  unfold ranked. rewrite <- (Permutation_length (sort_desc_perm l)).
  generalize (sort_desc l). intros l'. induction l' as [|x l' IH]; simpl; [lia|].
  destruct (thr <=? count x); simpl; lia.
Qed.

Lemma ranked_Forall thr l :
  Forall (fun vc => vc ∈ l /\ thr <= count vc) (ranked thr l).
Proof.
  apply Forall_forall. intros vc Hvc. split.
  - apply take_while_sublist in Hvc. by rewrite sort_desc_perm in Hvc.
  - pose proof (take_while_Forall (fun vc => thr <=? count vc) (sort_desc l)) as H.
    rewrite Forall_forall in H. apply Z.leb_le. by apply H.
Qed.

End TopK.

(** ** Top-k output assembly *)
Section TopKClaims.
Import statistics_pb2 top_k_uniques_stats_generator.
Import top_k_uniques_combiner_stats_generator.

Lemma weighted_lists_default p :
  default WeightedStringStatistics0 (weighted_string_stats (get_string_stats p))
  = mkWeightedStringStatistics (topk_lists true p).1 (topk_lists true p).2.
Proof.
  unfold topk_lists.
  destruct (weighted_string_stats (get_string_stats p)) as [[]|]; done.
Qed.

(** What _make_feature_stats_proto puts in the string statistics. *)
Lemma make_feature_stats_proto_spec fp l wl cat ntv thr wthr nrb :
  let s := get_string_stats
             (_make_feature_stats_proto fp l wl cat ntv thr wthr nrb).1 in
  top_values s = entry_of <$> take (Z.to_nat ntv) (ranked thr l)
  /\ rank_histogram s = imap bucket_of (take (Z.to_nat nrb) (ranked thr l))
  /\ unique s = Z.of_nat (length l)
  /\ weighted_string_stats s =
     match wl with
     | Some ((_ :: _) as wl) =>
       Some (mkWeightedStringStatistics
               (entry_of <$> take (Z.to_nat ntv) (ranked wthr wl))
               (imap bucket_of (take (Z.to_nat nrb) (ranked wthr wl))))
     | _ => None
     end.
Proof.
  cbv zeta. unfold _make_feature_stats_proto.
  destruct (topk_stats_spec fp l cat false ntv thr nrb)
    as (Hl & _ & _ & _ & _ & _ & Hw).
  destruct (make_feature_stats_proto_with_topk_stats fp l cat false ntv thr nrb)
    as [result log].
  cbn [fst] in Hl, Hw. specialize (Hw eq_refl).
  unfold topk_lists in Hl. apply pair_equal_spec in Hl as [Htv Hrh].
  destruct wl as [[|x wl]|]; cbn [fst get_string_stats stats
    top_values rank_histogram unique weighted_string_stats];
    try by rewrite Htv, Hrh, Hw.
  destruct (topk_stats_spec fp (x :: wl) cat true ntv wthr nrb)
    as (Hwl & _).
  destruct (make_feature_stats_proto_with_topk_stats fp (x :: wl) cat true
              ntv wthr nrb) as [wresult wlog].
  cbn [fst] in Hwl.
  cbn [fst get_string_stats stats
    top_values rank_histogram unique weighted_string_stats].
  rewrite weighted_lists_default, Hwl. by rewrite Htv, Hrh.
Qed.
End TopKClaims.

Section TopKTheorems.
Import statistics_pb2 top_k_uniques_stats_generator.
Import top_k_uniques_combiner_stats_generator.

Lemma items_lookup (c : gmap FeatureValue Z) vc :
  vc ∈ items c <-> c !! feature_value vc = Some (count vc).
Proof.
  unfold items. rewrite list_elem_of_fmap. split.
  - intros ([k v] & -> & H). by apply elem_of_map_to_list in H.
  - intros H. exists (feature_value vc, count vc). split; [by destruct vc|].
    by apply elem_of_map_to_list.
Qed.

Lemma length_items (c : gmap FeatureValue Z) : length (items c) = size (dom c).
Proof.
  unfold items. rewrite length_fmap, length_map_to_list. by rewrite size_dom.
Qed.

(** C6: in the string statistics made from the value counts of an
    accumulator, the top values and the rank histogram are made of the
    leading ranked value counts that reach the frequency threshold, so that
    no entry has a count below the threshold; the top values are at most
    num_top_values and the buckets at most num_rank_histogram_buckets; and
    [unique] is the number of distinct values of the accumulator, whatever
    their counts. *)
Theorem C6_threshold_limits_and_unique_count
    (feature_path : FeaturePath) (counts : gmap FeatureValue Z)
    (weighted_value_count_list : option (list FeatureValueCount))
    (is_categorical : bool)
    (num_top_values frequency_threshold weighted_frequency_threshold
       num_rank_histogram_buckets : Z) :
  let s := get_string_stats
             (_make_feature_stats_proto feature_path (items counts)
                weighted_value_count_list is_categorical num_top_values
                frequency_threshold weighted_frequency_threshold
                num_rank_histogram_buckets).1 in
  let kept := ranked frequency_threshold (items counts) in
  top_values s = entry_of <$> take (Z.to_nat num_top_values) kept
  /\ rank_histogram s
     = imap bucket_of (take (Z.to_nat num_rank_histogram_buckets) kept)
  /\ Forall (fun vc => counts !! feature_value vc = Some (count vc)
                       /\ frequency_threshold <= count vc) kept
  /\ Forall (fun e => frequency_threshold <= frequency e) (top_values s)
  /\ Forall (fun b => frequency_threshold <= sample_count b) (rank_histogram s)
  /\ (length (top_values s) <= Z.to_nat num_top_values)%nat
  /\ (length (rank_histogram s) <= Z.to_nat num_rank_histogram_buckets)%nat
  /\ unique s = Z.of_nat (size (dom counts)).
Proof.
  intros s kept.
  destruct (make_feature_stats_proto_spec feature_path (items counts)
              weighted_value_count_list is_categorical num_top_values
              frequency_threshold weighted_frequency_threshold
              num_rank_histogram_buckets) as (Htv & Hrh & Hu & _).
  fold s in Htv, Hrh, Hu. fold kept in Htv, Hrh.
  assert (Hkept : Forall (fun vc => counts !! feature_value vc = Some (count vc)
                                    /\ frequency_threshold <= count vc) kept).
  { eapply Forall_impl; [apply ranked_Forall|].
    intros vc [Hin Hc]. split; [by apply items_lookup|done]. }
  assert (Hge : forall n, Forall (fun vc => frequency_threshold <= count vc)
                            (take n kept)).
  { intros n. apply Forall_take. eapply Forall_impl; [exact Hkept|].
    by intros vc [_ ?]. }
  split_and!; try done.
  - rewrite Htv. apply Forall_fmap. eapply Forall_impl; [apply Hge|]. done.
  - rewrite Hrh. apply Forall_forall. intros b Hb.
    apply list_elem_of_lookup in Hb as [i Hb].
    rewrite list_lookup_imap in Hb.
    destruct (take (Z.to_nat num_rank_histogram_buckets) kept !! i)
      as [vc|] eqn:E; [|done].
    simpl in Hb. injection Hb as <-. simpl.
    specialize (Hge (Z.to_nat num_rank_histogram_buckets)).
    rewrite Forall_forall in Hge. apply Hge.
    apply list_elem_of_lookup. eauto.
  - rewrite Htv, length_fmap, length_take. lia.
  - rewrite Hrh, length_imap, length_take. lia.
  - by rewrite Hu, length_items.
Qed.

(** C7: the value counts are ranked by descending count and, among equal
    counts, by descending value; two lists with the same value counts, in
    whatever order, give the same proto and the same log; and for the counts
    a:2, b:1, c:1 the rank histogram lists a, then c, then b. *)
Theorem C7_topk_order_deterministic
    (feature_path : FeaturePath) (l1 l2 : list FeatureValueCount)
    (is_categorical is_weighted_stats : bool)
    (num_top_values frequency_threshold num_rank_histogram_buckets : Z)
    (Hperm : l1 ≡ₚ l2) :
  make_feature_stats_proto_with_topk_stats feature_path l1 is_categorical
    is_weighted_stats num_top_values frequency_threshold
    num_rank_histogram_buckets
  = make_feature_stats_proto_with_topk_stats feature_path l2 is_categorical
      is_weighted_stats num_top_values frequency_threshold
      num_rank_histogram_buckets
  /\ StronglySorted ranks_above (sort_desc l1)
  /\ sort_desc l1 ≡ₚ l1
  /\ (forall x y,
        ranks_above x y <->
        count y < count x
        \/ (count y = count x
            /\ value_leb (feature_value y) (feature_value x) = true))
  /\ (topk_lists is_weighted_stats
        (make_feature_stats_proto_with_topk_stats feature_path l1
           is_categorical is_weighted_stats num_top_values frequency_threshold
           num_rank_histogram_buckets).1).2
     = imap bucket_of
         (take (Z.to_nat num_rank_histogram_buckets)
            (ranked frequency_threshold l1))
  /\ rank_histogram
       (get_string_stats
          (make_feature_stats_proto_with_topk_stats feature_path
             [mkFeatureValueCount (TextValue "a") 2;
              mkFeatureValueCount (TextValue "b") 1;
              mkFeatureValueCount (TextValue "c") 1]
             false false 2 1 1000).1)
     = [mkBucket 0 0 2 "a"; mkBucket 1 1 1 "c"; mkBucket 2 2 1 "b"].
Proof.
  split_and!.
  - unfold make_feature_stats_proto_with_topk_stats.
    by rewrite (sort_desc_perm_eq l1 l2 Hperm).
  - apply sort_desc_sorted.
  - apply sort_desc_perm.
  - intros x y. unfold ranks_above. apply key_leb_spec.
  - destruct (topk_stats_spec feature_path l1 is_categorical is_weighted_stats
                num_top_values frequency_threshold num_rank_histogram_buckets)
      as [H _]. cbv zeta in H. by rewrite H.
  - vm_compute. reflexivity.
Qed.

Lemma C7_topk_order_deterministic_witness :
  [mkFeatureValueCount (TextValue "a") 2;
   mkFeatureValueCount (TextValue "b") 1;
   mkFeatureValueCount (TextValue "c") 1]
  ≡ₚ [mkFeatureValueCount (TextValue "b") 1;
      mkFeatureValueCount (TextValue "c") 1;
      mkFeatureValueCount (TextValue "a") 2]
  /\ make_feature_stats_proto_with_topk_stats ["f"]
       [mkFeatureValueCount (TextValue "a") 2;
        mkFeatureValueCount (TextValue "b") 1;
        mkFeatureValueCount (TextValue "c") 1] false false 2 1 1000
     = make_feature_stats_proto_with_topk_stats ["f"]
         [mkFeatureValueCount (TextValue "b") 1;
          mkFeatureValueCount (TextValue "c") 1;
          mkFeatureValueCount (TextValue "a") 2] false false 2 1 1000.
Proof.
  assert (Hperm :
    [mkFeatureValueCount (TextValue "a") 2;
     mkFeatureValueCount (TextValue "b") 1;
     mkFeatureValueCount (TextValue "c") 1]
    ≡ₚ [mkFeatureValueCount (TextValue "b") 1;
        mkFeatureValueCount (TextValue "c") 1;
        mkFeatureValueCount (TextValue "a") 2]).
  { eapply perm_trans; [apply perm_swap|]. apply perm_skip. apply perm_swap. }
  split; [exact Hperm|].
  exact (proj1 (C7_topk_order_deterministic ["f"] _ _ false false 2 1 1000 Hperm)).
Defined.

(** C8: every entry of the top values and of the rank histogram carries the
    label of its value, and the log holds one warning for every ranked bytes
    value that is not UTF-8; the label of a bytes value is the value itself
    when it is well-formed UTF-8 and '__BYTES_VALUE__' otherwise. The
    function is total: it returns a proto on every input. *)
Theorem C8_undecodable_bytes_get_the_sentinel
    (feature_path : FeaturePath) (l : list FeatureValueCount)
    (is_categorical is_weighted_stats : bool)
    (num_top_values frequency_threshold num_rank_histogram_buckets : Z) :
  let r := make_feature_stats_proto_with_topk_stats feature_path l
             is_categorical is_weighted_stats num_top_values
             frequency_threshold num_rank_histogram_buckets in
  topk_lists is_weighted_stats r.1
  = ((fun vc => mkFreqAndValue (label_of (feature_value vc)) (count vc))
       <$> take (Z.to_nat num_top_values) (ranked frequency_threshold l),
     imap (fun i vc => mkBucket (Z.of_nat i) (Z.of_nat i) (count vc)
                         (label_of (feature_value vc)))
       (take (Z.to_nat num_rank_histogram_buckets)
          (ranked frequency_threshold l)))
  /\ r.2 = concat ((fun vc => warnings_of feature_path (feature_value vc))
                     <$> ranked frequency_threshold l)
  /\ (forall b : string,
        label_of (BytesValue b)
        = (if valid_utf8 (bytes_of_string b) then b else "__BYTES_VALUE__")
        /\ warnings_of feature_path (BytesValue b)
           = (if valid_utf8 (bytes_of_string b) then []
              else [mkLogRecord feature_path None]))
  /\ (forall s : string, label_of (TextValue s) = s
                         /\ warnings_of feature_path (TextValue s) = []).
Proof.
  intros r.
  destruct (topk_stats_spec feature_path l is_categorical is_weighted_stats
              num_top_values frequency_threshold num_rank_histogram_buckets)
    as (H1 & H2 & _).
  split_and!; [exact H1|exact H2| |done].
  intros b. unfold label_of, warnings_of, maybe_get_utf8.
  by destruct (valid_utf8 (bytes_of_string b)).
Qed.

(** The byte 0xFF is not UTF-8: its entry is labelled with the sentinel and
    a warning is logged; the valid bytes of "a" keep their text. *)
Example undecodable_bytes_example :
  make_feature_stats_proto_with_topk_stats ["f"]
    [mkFeatureValueCount (BytesValue (String (Ascii.ascii_of_nat 255) "")) 3;
     mkFeatureValueCount (BytesValue "a") 1] false false 2 1 1000
  = (mkFeatureNameStatistics ["f"] STRING
       (string_stats
          (mkStringStatistics None 0
             [mkFreqAndValue "__BYTES_VALUE__" 3; mkFreqAndValue "a" 1]
             [mkBucket 0 0 3 "__BYTES_VALUE__"; mkBucket 1 1 1 "a"] None)) [],
     [mkLogRecord ["f"] None]).
Proof. vm_compute. reflexivity. Qed.

End TopKTheorems.

(** ** Example-count reconciliation *)
Section Reconciliation.
Import statistics_pb2 stats_impl.

Lemma result_bind_Ok {A B} (r : result A) (k : A -> result B) b :
  r ≫= k = Ok b <-> exists a, r = Ok a /\ k a = Ok b.
Proof.
  destruct r as [a|e]; simpl.
  - split; [eauto|]. by intros (a' & [= <-] & ?).
  - split; [done|]. by intros (a' & ? & _).
Qed.

Lemma find_Some_elem {A} (p : A -> bool) l x :
  List.find p l = Some x -> x ∈ l /\ p x = true.
Proof.
  intros H. apply List.find_some in H as [H1 H2]. split; [|done].
  by apply list_elem_of_In.
Qed.

Lemma remove_first_perm x l : x ∈ l -> l ≡ₚ x :: remove_first x l.
Proof.
  induction l as [|y l IH]; [by intros ?%elem_of_nil|].
  intros Hx. simpl. case_bool_decide as E; [by subst|].
  apply elem_of_cons in Hx as [->|Hx]; [done|].
  rewrite (IH Hx) at 1. apply perm_swap.
Qed.

Lemma update_missing_count_raises n wn f :
  n < num_non_missing (selected_common_stats f) ->
  update_missing_count n wn f = Raise AssertionError.
Proof.
  intros H. unfold update_missing_count.
  assert ((n >=? num_non_missing (selected_common_stats f)) = false) as ->
    by (rewrite Z.geb_leb; apply Z.leb_gt; lia).
  done.
Qed.

Lemma update_missing_count_returns n wn f :
  num_non_missing (selected_common_stats f) <= n ->
  exists f', update_missing_count n wn f = Ok f'.
Proof.
  intros H. unfold update_missing_count.
  assert ((n >=? num_non_missing (selected_common_stats f)) = true) as ->
    by (rewrite Z.geb_leb; apply Z.leb_le; lia).
  simpl. eauto.
Qed.

(** The loop succeeds on every feature when no non-missing count exceeds the
    number of examples. *)
Lemma mapM_update_missing_count_Ok n wn l :
  Forall (fun f => num_non_missing (selected_common_stats f) <= n) l ->
  exists l', mapM (update_missing_count n wn) l = Ok l'
             /\ Forall2 (fun f f' => update_missing_count n wn f = Ok f') l l'.
Proof.
  induction 1 as [|f l Hf Hl (l' & IH & HF)].
  - exists []. split; [done|constructor].
  - destruct (update_missing_count_returns n wn f Hf) as [f' Hf'].
    exists (f' :: l'). split; [|by constructor].
    cbn [mapM]. rewrite Hf'. simpl. rewrite IH. done.
Qed.

(** The loop raises as soon as one non-missing count exceeds the number of
    examples. *)
Lemma mapM_update_missing_count_Raise n wn l :
  Exists (fun f => n < num_non_missing (selected_common_stats f)) l ->
  mapM (update_missing_count n wn) l = Raise AssertionError.
Proof.
  induction l as [|f l IH]; [by intros ?%Exists_nil|].
  intros H. cbn [mapM].
  destruct (Z.ltb_spec n (num_non_missing (selected_common_stats f))) as [Hlt|Hge].
  - by rewrite update_missing_count_raises.
  - apply Exists_cons in H as [H|H]; [lia|].
    destruct (update_missing_count_returns n wn f Hge) as [f' ->].
    simpl. by rewrite (IH H).
Qed.

Lemma update_missing_count_Ok_spec n wn f f' :
  update_missing_count n wn f = Ok f' ->
  path f' = path f
  /\ custom_stats f' = custom_stats f
  /\ num_non_missing (selected_common_stats f')
     = num_non_missing (selected_common_stats f)
  /\ num_missing (selected_common_stats f')
     = n - num_non_missing (selected_common_stats f)
  /\ w_num_non_missing (weighted_common_stats (selected_common_stats f'))
     = w_num_non_missing (weighted_common_stats (selected_common_stats f))
  /\ w_num_missing (weighted_common_stats (selected_common_stats f'))
     = (if wn =? 0
        then w_num_missing (weighted_common_stats (selected_common_stats f))
        else wn - w_num_non_missing
                    (weighted_common_stats (selected_common_stats f))).
Proof.
  unfold update_missing_count.
  destruct (negb _); [done|]. intros [= <-].
  unfold set_selected_common_stats, selected_common_stats at 1 3 5 7.
  unfold get_string_stats. simpl.
  destruct (stats f); simpl; destruct (wn =? 0); done.
Qed.

(** C5: on dataset statistics that hold the synthetic Num-Examples entry,
    the reconciliation removes that entry from the features, raises
    AssertionError as soon as a remaining feature has a non-missing count
    above the number of examples, and otherwise returns the statistics in
    which every remaining feature has the missing count
    [num_examples - num_non_missing] (and the weighted missing count
    [weighted_num_examples - weighted num_non_missing] when the weighted
    number of examples is not zero) and in which [num_examples] is set. *)
Theorem C5_example_count_reconciliation
    (stats : DatasetFeatureStatistics) (dummy_feature : FeatureNameStatistics)
    (num_examples weighted_num_examples : Z)
    (Hdummy : get_feature_stats stats _DUMMY_FEATURE_PATH = Ok dummy_feature)
    (Hnum : get_custom_stats dummy_feature _NUM_EXAMPLES_KEY = Ok num_examples)
    (Hweighted : get_custom_stats dummy_feature _WEIGHTED_NUM_EXAMPLES_KEY
                 = Ok weighted_num_examples) :
  let rest := remove_first dummy_feature (features stats) in
  features stats ≡ₚ dummy_feature :: rest
  /\ path dummy_feature = _DUMMY_FEATURE_PATH
  /\ (NoDup (path <$> features stats) -> _DUMMY_FEATURE_PATH ∉ path <$> rest)
  /\ (Exists (fun f => num_examples
                       < num_non_missing (selected_common_stats f)) rest ->
      _update_example_and_missing_count stats = Raise AssertionError)
  /\ (Forall (fun f => num_non_missing (selected_common_stats f)
                       <= num_examples) rest ->
      exists features',
        _update_example_and_missing_count stats
        = Ok (mkDatasetFeatureStatistics num_examples features')
        /\ Forall2
             (fun f f' =>
                path f' = path f
                /\ custom_stats f' = custom_stats f
                /\ num_non_missing (selected_common_stats f')
                   = num_non_missing (selected_common_stats f)
                /\ num_missing (selected_common_stats f')
                   = num_examples - num_non_missing (selected_common_stats f)
                /\ w_num_non_missing
                     (weighted_common_stats (selected_common_stats f'))
                   = w_num_non_missing
                       (weighted_common_stats (selected_common_stats f))
                /\ w_num_missing
                     (weighted_common_stats (selected_common_stats f'))
                   = (if weighted_num_examples =? 0
                      then w_num_missing
                             (weighted_common_stats (selected_common_stats f))
                      else weighted_num_examples
                           - w_num_non_missing
                               (weighted_common_stats
                                  (selected_common_stats f))))
             rest features').
Proof.
  intros rest.
  assert (Hin : dummy_feature ∈ features stats
                /\ path dummy_feature = _DUMMY_FEATURE_PATH).
  { unfold get_feature_stats in Hdummy.
    destruct (List.find _ _) as [f|] eqn:E; [|done].
    injection Hdummy as ->. apply find_Some_elem in E as [? E].
    split; [done|]. by apply bool_decide_eq_true in E. }
  destruct Hin as [Hin Hpath].
  assert (Hperm : features stats ≡ₚ dummy_feature :: rest)
    by by apply remove_first_perm.
  assert (Hrun : _update_example_and_missing_count stats
                 = features' ← mapM (update_missing_count num_examples
                                       weighted_num_examples) rest;
                   Ok (mkDatasetFeatureStatistics num_examples features')).
  { unfold _update_example_and_missing_count.
    rewrite Hdummy. simpl. rewrite Hnum. simpl. by rewrite Hweighted. }
  split_and!; [done|done| | |].
  - intros Hnd. rewrite Hperm in Hnd. rewrite fmap_cons in Hnd.
    apply NoDup_cons in Hnd as [Hnd _]. by rewrite <- Hpath.
  - intros Hex. rewrite Hrun.
    by rewrite (mapM_update_missing_count_Raise _ _ _ Hex).
  - intros Hall.
    destruct (mapM_update_missing_count_Ok num_examples weighted_num_examples
                rest Hall) as (l' & Hl' & HF).
    exists l'. split; [by rewrite Hrun, Hl'|].
    eapply Forall2_impl; [exact HF|].
    intros f f' Hf. by apply update_missing_count_Ok_spec.
Qed.

End Reconciliation.

(** The spec's example of the reconciliation: ten examples, seven
    non-missing values of F, hence three missing ones; the synthetic entry is
    gone. *)
Example ten_examples_reconciled :
  stats_impl._update_example_and_missing_count examples.ten_examples
  = Ok (statistics_pb2.mkDatasetFeatureStatistics 10
          [statistics_pb2.mkFeatureNameStatistics ["F"] statistics_pb2.STRING
             (statistics_pb2.string_stats
                (statistics_pb2.mkStringStatistics
                   (Some (statistics_pb2.mkCommonStatistics 7 3
                            statistics_pb2.WeightedCommonStatistics0))
                   3 [] [] None)) []]).
Proof. vm_compute. reflexivity. Qed.

Lemma C5_example_count_reconciliation_witness :
  stats_impl.get_feature_stats examples.ten_examples
    stats_impl._DUMMY_FEATURE_PATH
  = Ok (statistics_pb2.mkFeatureNameStatistics stats_impl._DUMMY_FEATURE_PATH
          statistics_pb2.INT statistics_pb2.NoStats
          [statistics_pb2.mkCustomStatistic stats_impl._NUM_EXAMPLES_KEY 10;
           statistics_pb2.mkCustomStatistic
             stats_impl._WEIGHTED_NUM_EXAMPLES_KEY 0])
  /\ exists features',
       stats_impl._update_example_and_missing_count examples.ten_examples
       = Ok (statistics_pb2.mkDatasetFeatureStatistics 10 features')
       /\ length features' = 1%nat.
Proof.
  split; [reflexivity|].
  destruct (C5_example_count_reconciliation examples.ten_examples _ 10 0
              eq_refl eq_refl eq_refl) as (_ & _ & _ & _ & Hok).
  destruct Hok as (features' & Hrun & HF).
  { repeat constructor. vm_compute. discriminate. }
  exists features'. split; [exact Hrun|].
  apply Forall2_length in HF. rewrite <- HF. reflexivity.
Defined.

(** ** The batching wrapper *)
Section Batching.
Import statistics_pb2 arrow stats_impl.
Import _CombinerStatsGeneratorsCombineFn.
Context {Acc : Type}.
Variable MergeTables : list Table -> Table.
Variable MergeFrom :
  FeatureNameStatistics -> FeatureNameStatistics -> FeatureNameStatistics.

Lemma init_desired_positive (generators : list (CombinerStatsGenerator.t Acc)) d :
  0 < _desired_batch_size (__init__ generators d).
Proof.
  unfold __init__. simpl. destruct d as [d|]; [|done].
  destruct (negb (d =? 0) && (d >? 0)) eqn:E; [|done].
  apply andb_true_iff in E as [_ E]. by apply Z.gtb_lt in E.
Qed.

Lemma zip_with_fmap_same {A B C} (f : A -> B -> C) (g : A -> B) (l : list A) :
  zip_with f l (g <$> l) = (fun x => f x (g x)) <$> l.
Proof. induction l; simpl; [done|]. by f_equal. Qed.

Lemma rows_of_app (l1 l2 : list Table) :
  rows_of (l1 ++ l2) = rows_of l1 + rows_of l2.
Proof. induction l1; simpl; lia. Qed.

Lemma rows_of_nonneg (l : list Table) : 0 <= rows_of l.
Proof. induction l; simpl; lia. Qed.

Lemma rows_of_zero (l : list Table) :
  rows_of l = 0 -> Forall (fun t => num_rows t = 0%nat) l.
Proof.
  induction l as [|t l IH]; simpl; [constructor|].
  pose proof (rows_of_nonneg l). intros Hz. constructor; [lia|]. apply IH. lia.
Qed.

Lemma maybe_do_batch_accounted (self : t Acc) (accumulator : Accumulator Acc)
    force groups batches :
  0 < _desired_batch_size self ->
  accounted MergeTables self accumulator groups batches ->
  exists groups',
    accounted MergeTables self
      (_maybe_do_batch MergeTables self accumulator force) groups' batches.
Proof.
  intros Hpos (Hb & Hp & Hc & Hg). unfold _maybe_do_batch.
  destruct ((force && (curr_batch_size accumulator >? 0))
            || (curr_batch_size accumulator >=? _desired_batch_size self)) eqn:E.
  - assert (0 < curr_batch_size accumulator).
    { apply orb_true_iff in E as [E|E].
      - apply andb_true_iff in E as [_ E]. by apply Z.gtb_lt in E.
      - rewrite Z.geb_leb in E. apply Z.leb_le in E. lia. }
    exists (groups ++ [input_tables accumulator]).
    split_and!; simpl.
    + rewrite concat_app. simpl. rewrite !app_nil_r. done.
    + unfold _for_each_generator. rewrite Hp, zip_with_fmap_same.
      apply list_fmap_ext. intros i gen _. unfold fold_groups.
      by rewrite foldl_app.
    + done.
    + apply Forall_app. split; [done|]. constructor; [|constructor].
      intros Hnil. rewrite Hnil in Hc. simpl in Hc. lia.
  - exists groups. done.
Qed.

Lemma step_accounted (self : t Acc) (accumulator : Accumulator Acc)
    op groups batches :
  0 < _desired_batch_size self ->
  accounted MergeTables self accumulator groups batches ->
  exists groups',
    accounted MergeTables self
      (step MergeTables MergeFrom self accumulator op) groups'
      (batches ++ added [op]).
Proof.
  intros Hpos Hacc. destruct op as [input_table| |]; simpl.
  - unfold add_input. apply (maybe_do_batch_accounted _ _ _ groups); [done|].
    destruct Hacc as (Hb & Hp & Hc & Hg). split_and!; simpl; try done.
    + by rewrite app_assoc, Hb.
    + rewrite rows_of_app, Hc. simpl. lia.
  - rewrite app_nil_r. by apply (maybe_do_batch_accounted _ _ _ groups).
  - rewrite app_nil_r. by apply (maybe_do_batch_accounted _ _ _ groups).
Qed.

Lemma added_app (ops1 ops2 : list Op) :
  added (ops1 ++ ops2) = added ops1 ++ added ops2.
Proof. unfold added. apply omap_app. Qed.

Lemma run_accounted (self : t Acc) ops :
  0 < _desired_batch_size self ->
  exists groups,
    accounted MergeTables self (run MergeTables MergeFrom self ops) groups
      (added ops).
Proof.
  intros Hpos. induction ops as [|op ops IH] using rev_ind.
  - exists []. by split_and!.
  - destruct IH as [groups IH]. unfold run. rewrite foldl_app. simpl.
    rewrite added_app. by eapply step_accounted.
Qed.

(** *** Merges

    The same account with merge_accumulators among the operations. *)

Lemma Build_induction (P : Build -> Prop) :
  P New ->
  (forall b input_table, P b -> P (AddInputTo b input_table)) ->
  (forall b, P b -> P (CompactOf b)) ->
  (forall b, P b -> P (ExtractOutputOf b)) ->
  (forall bs, Forall P bs -> P (Merge bs)) ->
  forall b, P b.
Proof.
  intros HN HA HC HE HM. fix IH 1. intros [|b t|b|b|bs].
  - exact HN.
  - apply HA, IH.
  - apply HC, IH.
  - apply HE, IH.
  - apply HM. induction bs as [|b bs IHbs]; constructor; [apply IH|exact IHbs].
Qed.

Lemma Forall2_zip_with_r {A B C} (R : A -> B -> Prop) (R' : A -> C -> Prop)
    (f : A -> B -> C) (l : list A) (k : list B) :
  Forall2 R l k -> (forall x y, R x y -> R' x (f x y)) ->
  Forall2 R' l (zip_with f l k).
Proof. induction 1; intros Hf; simpl; constructor; auto. Qed.

Lemma Forall2_zip_with_cons {A B} (R : A -> B -> Prop)
    (Q : A -> list B -> Prop) (Q' : A -> list B -> Prop)
    (l : list A) (k : list B) (ms : list (list B)) :
  Forall2 R l k -> Forall2 Q l ms ->
  (forall x y m, R x y -> Q x m -> Q' x (y :: m)) ->
  Forall2 Q' l (zip_with cons k ms).
Proof.
  intros HR. revert ms. induction HR as [|x y l k Hxy HR IH]; intros ms HQ Hf.
  - inversion HQ. constructor.
  - inversion HQ as [|? m ? ms' Hm HQ']; subst. simpl. constructor; auto.
Qed.

(** The transposition of the accumulators of the merged wrappers: one list
    per generator, holding its accumulator in every wrapper. *)
Lemma zip_star_Forall2 (gens : list (CombinerStatsGenerator.t Acc))
    (lists : list (list Acc)) (foldeds : list (list Table)) :
  lists <> [] ->
  Forall2 (fun parts folded =>
             Forall2 (fun gen a => derived MergeTables gen a folded) gens parts)
    lists foldeds ->
  Forall2 (fun gen m => Forall2 (derived MergeTables gen) m foldeds)
    gens (zip_star lists).
Proof.
  intros Hne H. induction H as [|parts folded lists foldeds Hp H IH]; [done|].
  destruct lists as [|parts' lists].
  - inversion H; subst. simpl.
    clear -Hp. induction Hp; simpl; constructor; [|done].
    by repeat constructor.
  - specialize (IH ltac:(done)).
    change (zip_star (parts :: parts' :: lists))
      with (zip_with cons parts (zip_star (parts' :: lists))).
    eapply Forall2_zip_with_cons; [exact Hp|exact IH|].
    intros gen a m Ha Hm. by constructor.
Qed.

Lemma kept_create (self : t Acc) : kept MergeTables self (create_accumulator self) [].
Proof.
  exists []. split_and!; [|done|done].
  unfold create_accumulator. simpl. apply Forall2_fmap_r.
  apply Forall_Forall2_diag, Forall_forall. intros gen _. constructor.
Qed.

(** _maybe_do_batch with the pending batches of another accumulator put at
    the end of the queue. *)
Lemma maybe_do_batch_pooled (self : t Acc) (partials : list Acc)
    (queue : list Table) force (folded : list Table) :
  0 < _desired_batch_size self ->
  Forall2 (fun gen a => derived MergeTables gen a folded)
    (_generators self) partials ->
  exists folded',
    let accumulator' :=
      _maybe_do_batch MergeTables self (mkAcc partials queue (rows_of queue))
        force in
    Forall2 (fun gen a => derived MergeTables gen a folded')
      (_generators self) (partial_accumulators accumulator')
    /\ folded' ++ input_tables accumulator' = folded ++ queue
    /\ curr_batch_size accumulator' = rows_of (input_tables accumulator').
Proof.
  intros Hpos Hd. unfold _maybe_do_batch. cbn [curr_batch_size].
  destruct ((force && (rows_of queue >? 0))
            || (rows_of queue >=? _desired_batch_size self)).
  - exists (folded ++ queue). cbn. split_and!; [|by rewrite app_nil_r|done].
    unfold _for_each_generator.
    eapply Forall2_zip_with_r; [exact Hd|].
    intros gen a Ha. by constructor.
  - exists folded. cbn. done.
Qed.

Lemma maybe_do_batch_kept (self : t Acc) (accumulator : Accumulator Acc)
    force batches :
  0 < _desired_batch_size self ->
  kept MergeTables self accumulator batches ->
  kept MergeTables self (_maybe_do_batch MergeTables self accumulator force)
    batches.
Proof.
  intros Hpos (folded & Hd & Hp & Hc).
  destruct accumulator as [partials queue counter]. simpl in *. subst counter.
  destruct (maybe_do_batch_pooled self partials queue force folded Hpos Hd)
    as (folded' & Hd' & Hq' & Hc').
  exists folded'. split_and!; [done| |done]. cbv zeta in Hq'. by rewrite Hq'.
Qed.

Lemma add_input_kept (self : t Acc) (accumulator : Accumulator Acc)
    input_table batches :
  0 < _desired_batch_size self ->
  kept MergeTables self accumulator batches ->
  kept MergeTables self (add_input MergeTables self accumulator input_table)
    (batches ++ [input_table]).
Proof.
  intros Hpos (folded & Hd & Hp & Hc). unfold add_input.
  apply maybe_do_batch_kept; [done|].
  exists folded. simpl. split_and!; [done| |].
  - by rewrite app_assoc, Hp.
  - rewrite rows_of_app, Hc. simpl. lia.
Qed.

Lemma Forall2_zip_with_zip {A B C D} (R : A -> B -> Prop) (Q : A -> C -> Prop)
    (R' : A -> D -> Prop) (f : A -> B -> C -> D)
    (l : list A) (ps : list B) (ms : list C) :
  Forall2 R l ps -> Forall2 Q l ms ->
  (forall x p m, R x p -> Q x m -> R' x (f x p m)) ->
  Forall2 R' l (zip_with (fun x pm => f x pm.1 pm.2) l (zip ps ms)).
Proof.
  intros HR. revert ms. induction HR as [|x p l ps Hxp HR IH]; intros ms HQ Hf.
  - inversion HQ. constructor.
  - inversion HQ as [|? m ? ms' Hm HQ']; subst. simpl. constructor; auto.
Qed.

Lemma perm_pool {T} (f q qa F fa : list T) :
  (f ++ q ++ qa) ++ F ++ fa ≡ₚ ((f ++ q) ++ F) ++ fa ++ qa.
Proof.
  rewrite <- !app_assoc. do 2 apply Permutation_app_head.
  rewrite (app_assoc F fa qa). apply Permutation_app_comm.
Qed.

(** One step of the loop over the accumulators of a group: the pending
    batches of [accumulator] join the queue of [result], which is flushed when
    due; its partial accumulators are put aside. *)
Lemma merge_pending_kept (self : t Acc)
    (state : Accumulator Acc * list (list Acc)) (accumulator : Accumulator Acc)
    (batches batches' : list Table) :
  0 < _desired_batch_size self ->
  (exists folded foldeds,
     Forall2 (fun gen a => derived MergeTables gen a folded)
       (_generators self) (partial_accumulators state.1)
     /\ Forall2 (fun parts folded' =>
                   Forall2 (fun gen a => derived MergeTables gen a folded')
                     (_generators self) parts) state.2 foldeds
     /\ (folded ++ input_tables state.1) ++ concat foldeds ≡ₚ batches
     /\ curr_batch_size state.1 = rows_of (input_tables state.1)) ->
  kept MergeTables self accumulator batches' ->
  let state' := merge_pending MergeTables self state accumulator in
  exists folded foldeds,
    Forall2 (fun gen a => derived MergeTables gen a folded)
      (_generators self) (partial_accumulators state'.1)
    /\ Forall2 (fun parts folded' =>
                  Forall2 (fun gen a => derived MergeTables gen a folded')
                    (_generators self) parts) state'.2 foldeds
    /\ (folded ++ input_tables state'.1) ++ concat foldeds
       ≡ₚ batches ++ batches'
    /\ curr_batch_size state'.1 = rows_of (input_tables state'.1).
Proof.
  intros Hpos (folded & foldeds & Hd & Hds & Hp & Hc) (folded_a & Hda & Hpa & Hca).
  destruct state as [result lists]. simpl in Hd, Hds, Hp, Hc.
  unfold merge_pending. cbn [fst snd].
  rewrite Hc, Hca, <- rows_of_app.
  destruct (maybe_do_batch_pooled self (partial_accumulators result)
              (input_tables result ++ input_tables accumulator) false folded
              Hpos Hd) as (folded' & Hd' & Hq' & Hc').
  cbv zeta in Hd', Hq', Hc'.
  exists folded', (foldeds ++ [folded_a]). split_and!; [done| |  |done].
  - apply Forall2_app; [done|]. by repeat constructor.
  - rewrite Hq', concat_app. simpl. rewrite app_nil_r.
    rewrite <- Hp, <- Hpa. apply perm_pool.
Qed.

Lemma merge_group_kept (self : t Acc) (accumulators : list (Accumulator Acc))
    (batchess : list (list Table)) :
  0 < _desired_batch_size self ->
  Forall2 (kept MergeTables self) accumulators batchess ->
  forall (state : Accumulator Acc * list (list Acc)) (batches : list Table),
    (exists folded foldeds,
       Forall2 (fun gen a => derived MergeTables gen a folded)
         (_generators self) (partial_accumulators state.1)
       /\ Forall2 (fun parts folded' =>
                     Forall2 (fun gen a => derived MergeTables gen a folded')
                       (_generators self) parts) state.2 foldeds
       /\ (folded ++ input_tables state.1) ++ concat foldeds ≡ₚ batches
       /\ curr_batch_size state.1 = rows_of (input_tables state.1)) ->
    let state' := foldl (merge_pending MergeTables self) state accumulators in
    (exists folded foldeds,
       Forall2 (fun gen a => derived MergeTables gen a folded)
         (_generators self) (partial_accumulators state'.1)
       /\ Forall2 (fun parts folded' =>
                     Forall2 (fun gen a => derived MergeTables gen a folded')
                       (_generators self) parts) state'.2 foldeds
       /\ (folded ++ input_tables state'.1) ++ concat foldeds
          ≡ₚ batches ++ concat batchess
       /\ curr_batch_size state'.1 = rows_of (input_tables state'.1))
    /\ length state'.2 = (length state.2 + length accumulators)%nat.
Proof.
  intros Hpos HF.
  induction HF as [|accumulator batches' accumulators batchess Hk HF IH];
    intros state batches Hstate; simpl.
  - rewrite app_nil_r, Nat.add_0_r. done.
  - pose proof (merge_pending_kept self state accumulator batches batches'
                  Hpos Hstate Hk) as Hstep. cbv zeta in Hstep.
    destruct (IH _ _ Hstep) as [Hinv Hlen]. cbv zeta in Hinv, Hlen.
    split.
    + destruct Hinv as (folded & foldeds & ? & ? & Hp & ?).
      exists folded, foldeds. split_and!; try done.
      by rewrite Hp, app_assoc.
    + rewrite Hlen. destruct state as [result lists]. unfold merge_pending.
      cbn [snd]. rewrite length_app. simpl. lia.
Qed.

(** One round of the loop of merge_accumulators, on a group that is not
    empty. *)
Lemma merge_batch_kept (self : t Acc) (result : Accumulator Acc)
    (accumulators : list (Accumulator Acc)) (batches : list Table)
    (batchess : list (list Table)) :
  0 < _desired_batch_size self ->
  accumulators <> [] ->
  kept MergeTables self result batches ->
  Forall2 (kept MergeTables self) accumulators batchess ->
  kept MergeTables self (merge_batch MergeTables self result accumulators)
    (batches ++ concat batchess).
Proof.
  intros Hpos Hne (folded & Hd & Hp & Hc) HF. unfold merge_batch.
  destruct (merge_group_kept self accumulators batchess Hpos HF (result, [])
              batches) as [Hinv Hlen].
  { exists folded, []. simpl. split_and!; try done. by rewrite app_nil_r. }
  cbv zeta in Hinv, Hlen.
  destruct (foldl (merge_pending MergeTables self) (result, []) accumulators)
    as [result' lists]. simpl in Hinv, Hlen.
  destruct Hinv as (folded' & foldeds & Hd' & Hds & Hp' & Hc').
  exists (folded' ++ concat foldeds). simpl. split_and!; [| |done].
  - unfold _for_each_generator2.
    eapply (Forall2_zip_with_zip _ _ _
              (fun gen b m =>
                 CombinerStatsGenerator.merge_accumulators gen (b :: m)));
      [exact Hd'| |].
    + apply zip_star_Forall2; [|exact Hds].
      destruct lists; [|done]. destruct accumulators; [done|]. simpl in Hlen. lia.
    + intros gen b m Hb Hm.
      change (folded' ++ concat foldeds) with (concat (folded' :: foldeds)).
      constructor. by constructor.
  - rewrite <- Hp'. rewrite <- !app_assoc. apply Permutation_app_head.
    apply Permutation_app_comm.
Qed.

Lemma merge_batches_kept (self : t Acc)
    (groups : list (list (Accumulator Acc))) :
  0 < _desired_batch_size self ->
  Forall (fun group => group <> []) groups ->
  forall (result : Accumulator Acc) (batches : list Table)
         (batchess : list (list Table)),
    kept MergeTables self result batches ->
    Forall2 (kept MergeTables self) (concat groups) batchess ->
    kept MergeTables self (foldl (merge_batch MergeTables self) result groups)
      (batches ++ concat batchess).
Proof.
  intros Hpos Hne.
  induction Hne as [|group groups Hg Hne IH]; intros result batches batchess Hk HF.
  - simpl in *. inversion HF. simpl. by rewrite app_nil_r.
  - simpl in *. apply Forall2_app_inv_l in HF as (b1 & b2 & H1 & H2 & ->).
    rewrite concat_app, app_assoc. apply IH; [|done].
    by apply merge_batch_kept.
Qed.

Lemma islice_batches_concat {A} (n : nat) (l : list A) :
  (0 < n)%nat ->
  forall fuel, (length l <= fuel)%nat -> concat (islice_batches fuel n l) = l.
Proof.
  intros Hn fuel. revert l. induction fuel as [|fuel IH]; intros l Hl.
  - destruct l; [done|simpl in Hl; lia].
  - destruct l as [|x l]; [done|].
    change (islice_batches (S fuel) n (x :: l))
      with (take n (x :: l) :: islice_batches fuel n (drop n (x :: l))).
    simpl. rewrite IH.
    + apply take_drop.
    + rewrite length_drop. simpl in *. lia.
Qed.

Lemma islice_batches_nonempty {A} (n : nat) (l : list A) :
  (0 < n)%nat ->
  forall fuel, Forall (fun group => group <> []) (islice_batches fuel n l).
Proof.
  intros Hn fuel. revert l. induction fuel as [|fuel IH]; intros l.
  - destruct l; constructor.
  - destruct l as [|x l]; [constructor|].
    change (islice_batches (S fuel) n (x :: l))
      with (take n (x :: l) :: islice_batches fuel n (drop n (x :: l))).
    constructor; [|apply IH]. destruct n; [lia|done].
Qed.

Lemma merge_accumulators_kept (self : t Acc)
    (accumulators : list (Accumulator Acc)) (batchess : list (list Table)) :
  0 < _desired_batch_size self ->
  Forall2 (kept MergeTables self) accumulators batchess ->
  kept MergeTables self (merge_accumulators MergeTables self accumulators)
    (concat batchess).
Proof.
  intros Hpos HF. unfold merge_accumulators.
  change (concat batchess) with ([] ++ concat batchess).
  apply merge_batches_kept; [done| | |].
  - apply islice_batches_nonempty. unfold _DEFAULT_DESIRED_MERGE_ACCUMULATOR_BATCH_SIZE. lia.
  - apply kept_create.
  - rewrite islice_batches_concat; [done| |done].
    unfold _DEFAULT_DESIRED_MERGE_ACCUMULATOR_BATCH_SIZE. lia.
Qed.

(** Every accumulator the operations build keeps the batches it was
    given. *)
Lemma built_kept (self : t Acc) (b : Build) :
  0 < _desired_batch_size self ->
  kept MergeTables self (built MergeTables MergeFrom self b) (batches_of b).
Proof.
  intros Hpos. induction b as [|b t IH|b IH|b IH|bs IH] using Build_induction.
  - apply kept_create.
  - simpl. by apply add_input_kept.
  - simpl. by apply maybe_do_batch_kept.
  - simpl. by apply maybe_do_batch_kept.
  - simpl. apply merge_accumulators_kept; [done|].
    apply Forall2_fmap. by apply Forall_Forall2_diag.
Qed.

(** C4 (amended): add_input puts the batch at the end of the queue, adds its
    rows to the counter and calls _maybe_do_batch; compact and
    extract_output call it with force. _maybe_do_batch flushes when the
    counter has reached the desired batch size, or when it is forced and the
    counter is positive: every generator folds the one table made of all
    pending batches into its accumulator, and the queue and the counter are
    reset; otherwise it leaves the accumulator as it is. Hence after any
    sequence of these operations on a fresh accumulator, the batches given to
    add_input are, in order, those of the groups that were flushed followed
    by those still in the queue; every generator has folded exactly these
    groups; and the counter is the number of rows in the queue. With
    merge_accumulators among the operations, the batches given to add_input
    are, up to their order, the batches every generator has folded (by its
    add_input and its merge_accumulators) and those still in the queue. *)
Theorem C4_queue_is_cleared_only_after_folding
    (generators : list (CombinerStatsGenerator.t Acc))
    (desired_batch_size : option Z) :
  let self := __init__ generators desired_batch_size in
  (forall accumulator input_table,
     add_input MergeTables self accumulator input_table
     = _maybe_do_batch MergeTables self
         (mkAcc (partial_accumulators accumulator)
            (input_tables accumulator ++ [input_table])
            (curr_batch_size accumulator + Z.of_nat (num_rows input_table)))
         false)
  /\ (forall accumulator,
        compact MergeTables self accumulator
        = _maybe_do_batch MergeTables self accumulator true
        /\ (extract_output MergeTables MergeFrom self accumulator).1
           = _maybe_do_batch MergeTables self accumulator true)
  /\ (forall accumulator force,
        _maybe_do_batch MergeTables self accumulator force
        = if (force && (0 <? curr_batch_size accumulator))
             || (_desired_batch_size self <=? curr_batch_size accumulator)
          then mkAcc
                 (zip_with
                    (fun gen gen_acc =>
                       CombinerStatsGenerator.add_input gen gen_acc
                         (arrow_table_of MergeTables (input_tables accumulator)))
                    generators (partial_accumulators accumulator))
                 [] 0
          else accumulator)
  /\ 0 < _desired_batch_size self
  /\ (forall ops,
        exists groups,
          concat groups ++ input_tables (run MergeTables MergeFrom self ops)
          = added ops
          /\ partial_accumulators (run MergeTables MergeFrom self ops)
             = (fun gen => fold_groups MergeTables gen groups) <$> generators
          /\ curr_batch_size (run MergeTables MergeFrom self ops)
             = rows_of (input_tables (run MergeTables MergeFrom self ops))
          /\ Forall (fun group => group <> []) groups)
  /\ (forall b : Build,
        exists folded,
          Forall2 (fun gen a => derived MergeTables gen a folded) generators
            (partial_accumulators (built MergeTables MergeFrom self b))
          /\ folded ++ input_tables (built MergeTables MergeFrom self b)
             ≡ₚ batches_of b
          /\ curr_batch_size (built MergeTables MergeFrom self b)
             = rows_of (input_tables (built MergeTables MergeFrom self b))).
Proof.
  intros self. split_and!; [| | | | |
    intros b; exact (built_kept self b (init_desired_positive _ _))].
  - done.
  - done.
  - intros accumulator force. unfold _maybe_do_batch.
    by rewrite Z.gtb_ltb, Z.geb_leb.
  - apply init_desired_positive.
  - intros ops.
    destruct (run_accounted self ops (init_desired_positive _ _)) as [groups H].
    exists groups. exact H.
Qed.

(** C9 (amended): extract_output flushes the pending batches when the
    counter is positive and leaves the queue as it is otherwise; a second
    call on the accumulator it leaves changes nothing and returns the same
    merged statistics. On every accumulator the operations build, the first
    call leaves no pending row: the counter is zero and the batches still in
    the queue have no row. *)
Theorem C9_extract_output_twice
    (generators : list (CombinerStatsGenerator.t Acc))
    (desired_batch_size : option Z) :
  let self := __init__ generators desired_batch_size in
  (forall accumulator,
     let first := extract_output MergeTables MergeFrom self accumulator in
     let second := extract_output MergeTables MergeFrom self first.1 in
     second.2 = first.2
     /\ second.1 = first.1
     /\ input_tables first.1
        = (if 0 <? curr_batch_size accumulator then []
           else input_tables accumulator)
     /\ curr_batch_size first.1
        = (if 0 <? curr_batch_size accumulator then 0
           else curr_batch_size accumulator))
  /\ (forall b : Build,
        let first := extract_output MergeTables MergeFrom self
                       (built MergeTables MergeFrom self b) in
        curr_batch_size first.1 = 0
        /\ Forall (fun t => num_rows t = 0%nat) (input_tables first.1)).
Proof.
  intros self.
  pose proof (init_desired_positive generators desired_batch_size) as Hpos.
  fold self in Hpos.
  assert (Hflush : forall accumulator,
    _maybe_do_batch MergeTables self accumulator true
    = if 0 <? curr_batch_size accumulator
      then mkAcc
             (_for_each_generator self
                (fun gen gen_acc =>
                   CombinerStatsGenerator.add_input gen gen_acc
                     (arrow_table_of MergeTables (input_tables accumulator)))
                (partial_accumulators accumulator)) [] 0
      else accumulator).
  { intros accumulator. unfold _maybe_do_batch.
    rewrite Z.gtb_ltb, Z.geb_leb.
    destruct (Z.ltb_spec 0 (curr_batch_size accumulator)); cbn [andb orb];
      [done|].
    assert ((_desired_batch_size self <=? curr_batch_size accumulator) = false)
      as -> by (apply Z.leb_gt; lia).
    done. }
  assert (Hidem : forall accumulator,
    _maybe_do_batch MergeTables self
      (_maybe_do_batch MergeTables self accumulator true) true
    = _maybe_do_batch MergeTables self accumulator true).
  { intros accumulator. rewrite (Hflush accumulator).
    destruct (Z.ltb_spec 0 (curr_batch_size accumulator)) as [Hlt|Hge].
    - by rewrite Hflush.
    - rewrite Hflush.
      by assert ((0 <? curr_batch_size accumulator) = false) as ->
        by (apply Z.ltb_ge; lia). }
  split.
  - intros accumulator first second. subst first second.
    unfold extract_output. cbn [fst snd]. rewrite Hidem.
    split_and!; try done.
    + rewrite Hflush. by destruct (0 <? curr_batch_size accumulator).
    + rewrite Hflush. by destruct (0 <? curr_batch_size accumulator).
  - intros b first. subst first. unfold extract_output. cbn [fst].
    destruct (built_kept self b Hpos) as (folded & _ & _ & Hc).
    rewrite Hflush.
    destruct (Z.ltb_spec 0 (curr_batch_size (built MergeTables MergeFrom self b)))
      as [Hlt|Hge]; simpl.
    + split; [done|constructor].
    + pose proof (rows_of_nonneg
                    (input_tables (built MergeTables MergeFrom self b))).
      split; [lia|]. apply rows_of_zero. lia.
Qed.

End Batching.

(** Without a weight feature NumExamplesStatsGenerator.add_input returns,
    and returns what the generator of the examples does. *)
Lemma NumExamples_add_input (accumulator : Z * Z) (examples_table : arrow.Table) :
  stats_impl.NumExamplesStatsGenerator.add_input None accumulator examples_table
  = Ok (stats_impl.CombinerStatsGenerator.add_input examples.NumExamples
          accumulator examples_table).
Proof. reflexivity. Qed.

(** A batch of no row stays in the queue when a flush is forced: compact
    neither folds it into the generator nor clears the queue. *)
Lemma C4_forced_flush_keeps_batches_without_rows :
  let self := stats_impl._CombinerStatsGeneratorsCombineFn.__init__
                [examples.NumExamples] None in
  let accumulator :=
    stats_impl._CombinerStatsGeneratorsCombineFn.add_input merge.MergeTables
      self (stats_impl._CombinerStatsGeneratorsCombineFn.create_accumulator self)
      examples.no_rows in
  stats_impl._CombinerStatsGeneratorsCombineFn.input_tables accumulator
  = [examples.no_rows]
  /\ stats_impl._CombinerStatsGeneratorsCombineFn.compact merge.MergeTables
       self accumulator
     = stats_impl._CombinerStatsGeneratorsCombineFn.mkAcc [(0, 0)]
         [examples.no_rows] 0.
Proof. vm_compute. split; reflexivity. Qed.

(** After extract_output the queue still holds a batch of no row: it is not
    empty. *)
Lemma C9_queue_not_empty_after_extract_output :
  let self := stats_impl._CombinerStatsGeneratorsCombineFn.__init__
                [examples.NumExamples] None in
  let accumulator :=
    stats_impl._CombinerStatsGeneratorsCombineFn.add_input merge.MergeTables
      self (stats_impl._CombinerStatsGeneratorsCombineFn.create_accumulator self)
      examples.no_rows in
  stats_impl._CombinerStatsGeneratorsCombineFn.input_tables
    (stats_impl._CombinerStatsGeneratorsCombineFn.extract_output
       merge.MergeTables protobuf.MergeFrom self accumulator).1
  <> [].
Proof. vm_compute. discriminate. Qed.

(** ** The feature wrapper *)
Section FeatureWrapper.
Import statistics_pb2 arrow stats_impl.
Import CombinerFeatureStatsWrapperGenerator.
Context {Acc : Type}.

(** The fold of a column into fresh accumulators, one per generator. *)
Lemma add_input_generators_spec (feature_column : Column)
    (feature_path : FeaturePath)
    (generators : list (CombinerFeatureStatsGenerator.t Acc)) :
  forall (index : nat) (wrapper_accumulator : gmap FeaturePath (list Acc))
         (slots : list Acc),
    wrapper_accumulator !! feature_path = Some slots ->
    (index + length generators <= length slots)%nat ->
    add_input_generators feature_column feature_path index generators
      wrapper_accumulator
    = Ok (<[feature_path :=
             list_inserts index
               ((fun generator =>
                   CombinerFeatureStatsGenerator.add_input generator
                     (CombinerFeatureStatsGenerator.create_accumulator generator)
                     feature_column) <$> generators)
               slots]> wrapper_accumulator).
Proof.
  induction generators as [|generator rest IH];
    intros index wrapper_accumulator slots Hslots Hlen.
  - simpl. by rewrite insert_id.
  - simpl in Hlen. cbn [add_input_generators]. unfold set_slot.
    rewrite Hslots. rewrite bool_decide_eq_true_2 by lia.
    cbn [mbind result_bind].
    erewrite (IH (S index)); [| apply lookup_insert_eq | rewrite length_insert; lia].
    rewrite insert_insert_eq. f_equal. f_equal. simpl.
    by rewrite list_insert_inserts_lt by lia.
Qed.

Lemma list_inserts_all {A} (l1 l2 : list A) :
  length l1 = length l2 -> list_inserts 0 l1 l2 = l1.
Proof.
  intros H. rewrite <- (app_nil_r l2), list_inserts_0_r by done.
  by rewrite app_nil_r.
Qed.

(** Folding a column overwrites the slots of its feature path with folds
    into fresh accumulators, whatever the slots held before. *)
Lemma add_input_column_spec (self : t Acc)
    (wrapper_accumulator : gmap FeaturePath (list Acc))
    (feature_column : Column) :
  Some (arrow.name feature_column) <> _weight_feature self ->
  (forall slots,
     wrapper_accumulator !! [arrow.name feature_column] = Some slots ->
     length slots = length (_feature_stats_generators self)) ->
  add_input_column self wrapper_accumulator feature_column
  = Ok (<[[arrow.name feature_column] :=
           (fun generator =>
              CombinerFeatureStatsGenerator.add_input generator
                (CombinerFeatureStatsGenerator.create_accumulator generator)
                feature_column) <$> _feature_stats_generators self]>
          wrapper_accumulator).
Proof.
  intros Hname Hwf. unfold add_input_column.
  rewrite bool_decide_eq_false_2 by done.
  unfold _perhaps_initialize_for_feature_path.
  case_match eqn:E; [rename l into slots|].
  - pose proof (Hwf slots E) as Hlen.
    erewrite add_input_generators_spec; [|exact E|simpl; lia].
    f_equal. f_equal. apply list_inserts_all. by rewrite length_fmap.
  - erewrite add_input_generators_spec;
      [|apply lookup_insert_eq|by rewrite length_fmap].
    rewrite insert_insert_eq. f_equal. f_equal.
    apply list_inserts_all. by rewrite !length_fmap.
Qed.


End FeatureWrapper.

(** ** Divergences *)

(** C1: the wrapper folds two batches that both hold the feature f. Its slot
    for f then holds only the fold of the second batch into a fresh
    accumulator (one value), whereas the generator itself, folding the two
    columns one after the other, counts the four values. *)
Theorem C1_add_input_keeps_only_the_last_batch :
  let self :=
    stats_impl.CombinerFeatureStatsWrapperGenerator.mkSelf
      [examples.CountValues] None None in
  let fold_column accumulator table :=
    foldl (stats_impl.CombinerFeatureStatsGenerator.add_input
             examples.CountValues) accumulator (arrow.columns table) in
  stats_impl.CombinerFeatureStatsWrapperGenerator.add_input self 0 ∅
    examples.batch1
  = Ok {[ ["f"] := [3] ]}
  /\ (wrapper_accumulator ←
        stats_impl.CombinerFeatureStatsWrapperGenerator.add_input self 0 ∅
          examples.batch1;
      stats_impl.CombinerFeatureStatsWrapperGenerator.add_input self 0
        wrapper_accumulator examples.batch2)
     = Ok {[ ["f"] := [1] ]}
  /\ fold_column
       (fold_column
          (stats_impl.CombinerFeatureStatsGenerator.create_accumulator
             examples.CountValues) examples.batch1) examples.batch2
     = 4.
Proof. vm_compute. split_and!; reflexivity. Qed.

(** C2: an accumulator whose counters for f are empty (a batch without a
    value of f) and two accumulators with weighted counts for f. Merging the
    empty one first loses the weighted counts that merging it last keeps;
    and merging it with the right neighbour first loses weighted counts that
    merging the three at once keeps. *)
Theorem C2_merge_depends_on_order_and_grouping :
  let ValueCounts := top_k_uniques_combiner_stats_generator.mk_ValueCounts in
  let merge := top_k_uniques_combiner_stats_generator.merge_accumulators in
  let a : gmap FeaturePath _ := {[ ["f"] := ValueCounts ∅ ∅ ]} in
  let b : gmap FeaturePath _ :=
    {[ ["f"] := ValueCounts {[ TextValue "x" := 1 ]} {[ TextValue "x" := 3 ]} ]} in
  let c : gmap FeaturePath _ :=
    {[ ["f"] := ValueCounts {[ TextValue "y" := 1 ]} {[ TextValue "y" := 5 ]} ]} in
  top_k_uniques_combiner_stats_generator.add_input examples.weighted_generator
    ∅ examples.weighted_batch_head = Ok a
  /\ top_k_uniques_combiner_stats_generator.add_input
       examples.weighted_generator ∅ examples.weighted_batch_tail = Ok b
  /\ merge [a; b] = {[ ["f"] := ValueCounts {[ TextValue "x" := 1 ]} ∅ ]}
  /\ merge [b; a] = b
  /\ merge [b; a; c]
     = {[ ["f"] := ValueCounts {[ TextValue "x" := 1; TextValue "y" := 1 ]}
                     {[ TextValue "x" := 3; TextValue "y" := 5 ]} ]}
  /\ merge [b; merge [a; c]]
     = {[ ["f"] := ValueCounts {[ TextValue "x" := 1; TextValue "y" := 1 ]}
                     {[ TextValue "x" := 3 ]} ]}.
Proof. vm_compute. split_and!; reflexivity. Qed.

(** C3: a batch of two rows with weights, the first row without a value of
    f. Folded at once it gives weighted top values for f; folded as two
    batches of one row that are then merged it gives none. *)
Theorem C3_split_batch_loses_the_weighted_statistics :
  let generator := examples.weighted_generator in
  let add_input :=
    top_k_uniques_combiner_stats_generator.add_input generator ∅ in
  let weighted_stats_of accumulator :=
    output ← top_k_uniques_combiner_stats_generator.extract_output generator
               accumulator;
    Ok ((fun f => statistics_pb2.weighted_string_stats
                    (statistics_pb2.get_string_stats f))
          <$> statistics_pb2.features output.1) in
  (whole ← add_input examples.weighted_batch; weighted_stats_of whole)
  = Ok [Some (statistics_pb2.mkWeightedStringStatistics
                [statistics_pb2.mkFreqAndValue "x" 3]
                [statistics_pb2.mkBucket 0 0 3 "x"])]
  /\ (head ← add_input examples.weighted_batch_head;
      tail ← add_input examples.weighted_batch_tail;
      weighted_stats_of
        (top_k_uniques_combiner_stats_generator.merge_accumulators [head; tail]))
     = Ok [None]
  /\ (whole ← add_input examples.weighted_batch;
      top_k_uniques_combiner_stats_generator.extract_output generator whole)
     <> (head ← add_input examples.weighted_batch_head;
         tail ← add_input examples.weighted_batch_tail;
         top_k_uniques_combiner_stats_generator.extract_output generator
           (top_k_uniques_combiner_stats_generator.merge_accumulators
              [head; tail])).
Proof. vm_compute. split_and!; [reflexivity|reflexivity|discriminate]. Qed.

(** * Further properties *)

(** ** The ranking of the top-k output *)
Section Ranking.
Import statistics_pb2 top_k_uniques_stats_generator.

Lemma take_while_sorted {A} (R : A -> A -> Prop) (p : A -> bool) (l : list A) :
  StronglySorted R l -> StronglySorted R (take_while p l).
Proof.
  induction 1 as [|x l Hs IH Hall]; simpl; [constructor|].
  destruct (p x); [|constructor]. constructor; [done|].
  apply Forall_forall. intros y Hy. rewrite Forall_forall in Hall.
  apply Hall. by eapply take_while_sublist.
Qed.

Lemma take_sorted {A} (R : A -> A -> Prop) (n : nat) (l : list A) :
  StronglySorted R l -> StronglySorted R (take n l).
Proof.
  intros H. revert n. induction H as [|x l Hs IH Hall]; intros [|n]; simpl;
    try constructor; [apply IH|].
  by apply Forall_take.
Qed.

Lemma ranked_sorted thr l : StronglySorted ranks_above (ranked thr l).
Proof. apply take_while_sorted, sort_desc_sorted. Qed.

Lemma ranks_above_count x y : ranks_above x y -> count y <= count x.
Proof. unfold ranks_above. rewrite key_leb_spec. lia. Qed.

Lemma sorted_fmap {A B} (R : A -> A -> Prop) (R' : B -> B -> Prop)
    (f : A -> B) (l : list A) :
  (forall x y, R x y -> R' (f x) (f y)) ->
  StronglySorted R l -> StronglySorted R' (f <$> l).
Proof.
  intros Hf. induction 1 as [|x l Hs IH Hall]; simpl; constructor; [done|].
  apply Forall_fmap. eapply Forall_impl; [exact Hall|]. intros y. apply Hf.
Qed.

Lemma imap_fmap_const {A B C} (f : nat -> A -> B) (g : B -> C) (h : A -> C)
    (l : list A) :
  (forall i x, g (f i x) = h x) -> g <$> imap f l = h <$> l.
Proof.
  intros H. revert f H. induction l as [|x l IH]; intros f H; simpl; [done|].
  rewrite H. f_equal. apply IH. intros. apply H.
Qed.

Lemma imap_fmap_index {A B} (f : nat -> A -> B) (g : B -> Z) (l : list A) :
  (forall i x, g (f i x) = Z.of_nat i) ->
  forall j, g <$> imap (fun i => f (j + i)%nat) l
            = Z.of_nat <$> seq j (length l).
Proof.
  intros H. induction l as [|x l IH]; intros j; [done|].
  rewrite imap_cons. cbn [length seq]. rewrite !fmap_cons, H.
  f_equal; [f_equal; lia|].
  rewrite <- (IH (S j)). f_equal. apply imap_ext. intros i y _. simpl.
  f_equal. lia.
Qed.

(** X1: the rank histogram of a proto made by
    make_feature_stats_proto_with_topk_stats is a ranking: its buckets carry
    the ranks 0, 1, 2, ... in this order, as low and as high rank; the sample
    counts never increase along it, nor do the frequencies of the top values;
    and the top values are the head of the same ranking: as far as both
    lists go, their labels and counts are the same. *)
Theorem X1_rank_histogram_is_a_ranking
    (feature_path : FeaturePath) (l : list FeatureValueCount)
    (is_categorical is_weighted_stats : bool)
    (num_top_values frequency_threshold num_rank_histogram_buckets : Z) :
  let lists :=
    topk_lists is_weighted_stats
      (make_feature_stats_proto_with_topk_stats feature_path l is_categorical
         is_weighted_stats num_top_values frequency_threshold
         num_rank_histogram_buckets).1 in
  low_rank <$> lists.2 = Z.of_nat <$> seq 0 (length lists.2)
  /\ high_rank <$> lists.2 = Z.of_nat <$> seq 0 (length lists.2)
  /\ StronglySorted (fun x y => y <= x) (sample_count <$> lists.2)
  /\ StronglySorted (fun x y => y <= x) (frequency <$> lists.1)
  /\ take (length lists.2) ((fun e => (value e, frequency e)) <$> lists.1)
     = take (length lists.1) ((fun b => (label b, sample_count b)) <$> lists.2).
Proof.
  intros lists. subst lists.
  destruct (topk_stats_spec feature_path l is_categorical is_weighted_stats
              num_top_values frequency_threshold num_rank_histogram_buckets)
    as [H _]. cbv zeta in H. rewrite H. clear H. cbn [fst snd].
  set (R := ranked frequency_threshold l).
  assert (HR : StronglySorted ranks_above R) by apply ranked_sorted.
  rewrite length_imap, length_fmap, !length_take.
  split_and!.
  - rewrite <- length_take.
    apply (imap_fmap_index (fun i => bucket_of i) low_rank _ (fun _ _ => eq_refl) 0%nat).
  - rewrite <- length_take.
    apply (imap_fmap_index (fun i => bucket_of i) high_rank _ (fun _ _ => eq_refl) 0%nat).
  - rewrite (imap_fmap_const bucket_of sample_count count) by done.
    eapply sorted_fmap; [|apply take_sorted, HR]. apply ranks_above_count.
  - rewrite <- list_fmap_compose.
    eapply sorted_fmap; [|apply take_sorted, HR].
    intros x y. apply ranks_above_count.
  - rewrite <- list_fmap_compose.
    rewrite (imap_fmap_const bucket_of (fun b => (label b, sample_count b))
               (fun vc => (label_of (feature_value vc), count vc))) by done.
    rewrite <- !fmap_take, !take_take.
    change ((fun e => (value e, frequency e)) ∘ entry_of)
      with (fun vc => (label_of (feature_value vc), count vc)).
    set (n1 := Z.to_nat num_top_values).
    set (n2 := Z.to_nat num_rank_histogram_buckets).
    by replace (Nat.min (Nat.min n2 (length R)) n1)
      with (Nat.min (Nat.min n1 (length R)) n2) by lia.
Qed.

End Ranking.

(** ** Counting examples *)
Section CountingExamples.
Import statistics_pb2 arrow stats_impl.

Lemma NumExamples_merge_sums (accumulators : list (Z * Z)) (start : Z * Z) :
  foldl (fun result acc : Z * Z => (result.1 + acc.1, result.2 + acc.2))
    start accumulators
  = (start.1 + foldr Z.add 0 (accumulators.*1),
     start.2 + foldr Z.add 0 (accumulators.*2)).
Proof.
  revert start. induction accumulators as [|[n' w'] l IH]; intros [n w].
  - simpl. f_equal; lia.
  - cbn [foldl fst snd]. rewrite IH, !fmap_cons. cbn [foldr fst snd].
    f_equal; lia.
Qed.



Lemma derived_induction {Acc} (MergeTables : list Table -> Table)
    (gen : CombinerStatsGenerator.t Acc) (P : Acc -> list Table -> Prop) :
  P (CombinerStatsGenerator.create_accumulator gen) [] ->
  (forall a batches group,
     derived MergeTables gen a batches -> P a batches ->
     P (CombinerStatsGenerator.add_input gen a
          (_CombinerStatsGeneratorsCombineFn.arrow_table_of MergeTables group))
       (batches ++ group)) ->
  (forall accumulators batches,
     Forall2 (derived MergeTables gen) accumulators batches ->
     Forall2 P accumulators batches ->
     P (CombinerStatsGenerator.merge_accumulators gen accumulators)
       (concat batches)) ->
  forall a batches, derived MergeTables gen a batches -> P a batches.
Proof.
  intros Hc Ha Hm. fix IH 3. intros a batches [|a' batches' group Hd|accs bss HF].
  - exact Hc.
  - apply Ha; [exact Hd|]. apply IH, Hd.
  - apply Hm; [exact HF|].
    induction HF as [|x y l k Hxy HF IHF]; constructor; [apply IH, Hxy|exact IHF].
Qed.

Lemma rows_of_perm (l1 l2 : list Table) : l1 ≡ₚ l2 -> rows_of l1 = rows_of l2.
Proof. induction 1; simpl; lia. Qed.

Lemma rows_of_concat (bss : list (list Table)) :
  rows_of (concat bss) = foldr Z.add 0 (rows_of <$> bss).
Proof.
  induction bss as [|bs bss IH]; simpl; [done|].
  by rewrite rows_of_app, IH.
Qed.

Lemma arrow_table_of_rows (MergeTables : list Table -> Table) :
  (forall tables, Z.of_nat (num_rows (MergeTables tables)) = rows_of tables) ->
  forall group,
    Z.of_nat (num_rows
                (_CombinerStatsGeneratorsCombineFn.arrow_table_of MergeTables group))
    = rows_of group.
Proof.
  intros H [|t [|t' group]]; simpl; try apply H. lia.
Qed.

(** The accumulator of the generator that counts examples holds the number
    of rows of the batches it was derived from. *)
Lemma derived_NumExamples (MergeTables : list Table -> Table) :
  (forall tables, Z.of_nat (num_rows (MergeTables tables)) = rows_of tables) ->
  forall a batches,
    derived MergeTables examples.NumExamples a batches ->
    a = (rows_of batches, 0).
Proof.
  intros Hrows. apply derived_induction.
  - done.
  - intros a batches group _ ->. simpl.
    rewrite (arrow_table_of_rows _ Hrows), rows_of_app. done.
  - intros accs bss _ HF. simpl.
    unfold NumExamplesStatsGenerator.merge_accumulators.
    rewrite NumExamples_merge_sums, rows_of_concat. simpl.
    induction HF as [|a bs accs bss -> HF IH]; [done|].
    rewrite !fmap_cons. cbn [foldr fst snd].
    injection IH as IH1 IH2. f_equal; lia.
Qed.

Lemma MergeTables_num_rows (tables : list Table) :
  Z.of_nat (num_rows (merge.MergeTables tables)) = rows_of tables.
Proof.
  unfold merge.MergeTables. simpl. induction tables as [|t l IH]; simpl; [done|].
  rewrite Nat2Z.inj_add, IH. done.
Qed.

Lemma forced_flush_counter {Acc} (MergeTables : list Table -> Table)
    (self : _CombinerStatsGeneratorsCombineFn.t Acc)
    (accumulator : _CombinerStatsGeneratorsCombineFn.Accumulator Acc) :
  0 < _CombinerStatsGeneratorsCombineFn._desired_batch_size self ->
  _CombinerStatsGeneratorsCombineFn.curr_batch_size accumulator
  = rows_of (_CombinerStatsGeneratorsCombineFn.input_tables accumulator) ->
  _CombinerStatsGeneratorsCombineFn.curr_batch_size
    (_CombinerStatsGeneratorsCombineFn._maybe_do_batch MergeTables self
       accumulator true) = 0.
Proof.
  intros Hpos Hc. unfold _CombinerStatsGeneratorsCombineFn._maybe_do_batch.
  pose proof (rows_of_nonneg
                (_CombinerStatsGeneratorsCombineFn.input_tables accumulator)).
  destruct (Z.gtb_spec
              (_CombinerStatsGeneratorsCombineFn.curr_batch_size accumulator) 0);
    cbn [andb orb]; [done|].
  destruct (Z.geb_spec
              (_CombinerStatsGeneratorsCombineFn.curr_batch_size accumulator)
              (_CombinerStatsGeneratorsCombineFn._desired_batch_size self));
    [done|]. lia.
Qed.

(** X3: a batching wrapper that wraps NumExamplesStatsGenerator (without a
    weight feature) counts every row once, whatever the operations: after
    extract_output on an accumulator built by add_input, compact,
    extract_output and merge_accumulators, the accumulator of that generator
    holds the number of rows of all batches given to add_input, provided that
    the table MergeTables makes has the rows of the tables it merges. *)
Theorem X3_batching_wrapper_counts_every_row
    (MergeTables : list Table -> Table)
    (MergeFrom :
       FeatureNameStatistics -> FeatureNameStatistics -> FeatureNameStatistics)
    (generators : list (CombinerStatsGenerator.t (Z * Z)))
    (desired_batch_size : option Z) (i : nat) (b : Build)
    (Hrows : forall tables,
       Z.of_nat (num_rows (MergeTables tables)) = rows_of tables)
    (Hgen : generators !! i = Some examples.NumExamples) :
  let self := _CombinerStatsGeneratorsCombineFn.__init__ generators
                desired_batch_size in
  _CombinerStatsGeneratorsCombineFn.partial_accumulators
    (_CombinerStatsGeneratorsCombineFn.extract_output MergeTables MergeFrom self
       (built MergeTables MergeFrom self b)).1 !! i
  = Some (rows_of (batches_of b), 0).
Proof.
  intros self.
  pose proof (init_desired_positive generators desired_batch_size) as Hpos.
  fold self in Hpos.
  destruct (built_kept MergeTables MergeFrom self b Hpos)
    as (folded0 & Hd0 & Hp0 & Hc0).
  pose proof (forced_flush_counter MergeTables self _ Hpos Hc0) as Hzero.
  destruct (maybe_do_batch_kept MergeTables self _ true (batches_of b) Hpos
              (ex_intro _ folded0 (conj Hd0 (conj Hp0 Hc0))))
    as (folded & Hd & Hp & Hc).
  unfold _CombinerStatsGeneratorsCombineFn.extract_output. cbn [fst].
  rewrite Hzero in Hc.
  assert (Hfolded : rows_of folded = rows_of (batches_of b)).
  { rewrite <- (rows_of_perm _ _ Hp), rows_of_app. lia. }
  destruct (Forall2_lookup_l _ _ _ _ _ Hd Hgen) as (a & Ha & Hda).
  rewrite Ha. f_equal.
  rewrite (derived_NumExamples MergeTables Hrows _ _ Hda). by rewrite Hfolded.
Qed.

Lemma X3_batching_wrapper_counts_every_row_witness :
  let self := _CombinerStatsGeneratorsCombineFn.__init__ [examples.NumExamples]
                (Some 2) in
  let b := Merge [AddInputTo (AddInputTo New examples.batch1) examples.no_rows;
                  CompactOf (AddInputTo New examples.batch2)] in
  _CombinerStatsGeneratorsCombineFn.partial_accumulators
    (_CombinerStatsGeneratorsCombineFn.extract_output merge.MergeTables
       protobuf.MergeFrom self
       (built merge.MergeTables protobuf.MergeFrom self b)).1 !! 0%nat
  = Some (3, 0).
Proof.
  exact (X3_batching_wrapper_counts_every_row merge.MergeTables
           protobuf.MergeFrom [examples.NumExamples] (Some 2) 0
           (Merge [AddInputTo (AddInputTo New examples.batch1) examples.no_rows;
                   CompactOf (AddInputTo New examples.batch2)])
           MergeTables_num_rows eq_refl).
Defined.

End CountingExamples.

(** ** Counting values *)
Section CountingValues.
Import statistics_pb2 arrow.
Import top_k_uniques_combiner_stats_generator.

Lemma foldl_insert_lookup (f : FeatureValue -> Z) (vs : list FeatureValue)
    (m : gmap FeatureValue Z) (v : FeatureValue) :
  foldl (fun c (vc : FeatureValue * Z) => <[vc.1 := vc.2]> c) m
    ((fun v => (v, f v)) <$> vs) !! v
  = if decide (v ∈ vs) then Some (f v) else m !! v.
Proof.
  revert m. induction vs as [|x vs IH]; intros m.
  - by rewrite decide_False by apply not_elem_of_nil.
  - rewrite fmap_cons. cbn [foldl fst snd]. rewrite IH. destruct (decide (v ∈ vs)) as [Hin|Hnin].
    + by rewrite decide_True by (by right).
    + destruct (decide (x = v)) as [->|Hne].
      * rewrite lookup_insert_eq. by rewrite decide_True by left.
      * rewrite lookup_insert_ne by done.
        rewrite decide_False; [done|]. intros [?|?]%elem_of_cons; congruence.
Qed.

Lemma tally_lookup (values : list FeatureValue) (v : FeatureValue) :
  tally values !! v
  = if decide (v ∈ values)
    then Some (Z.of_nat (count_occ FeatureValue_eq_dec values v)) else None.
Proof.
  unfold tally, ValueCounts. rewrite foldl_insert_lookup.
  destruct (decide (v ∈ remove_dups values)) as [H|H];
    rewrite elem_of_remove_dups in H.
  - by rewrite decide_True.
  - by rewrite decide_False.
Qed.

Lemma update_lookup (self other : gmap FeatureValue Z) (k : FeatureValue) :
  update self other !! k
  = match other !! k with
    | Some y => Some (default 0 (self !! k) + y)
    | None => self !! k
    end.
Proof.
  unfold update.
  apply (map_fold_weak_ind
           (fun r (m : gmap FeatureValue Z) =>
              r !! k = match m !! k with
                       | Some y => Some (default 0 (self !! k) + y)
                       | None => self !! k
                       end)).
  - by rewrite lookup_empty.
  - intros i x m r Hi Hr. unfold increment.
    destruct (decide (i = k)) as [->|Hne].
    + rewrite !lookup_insert_eq. rewrite Hr, Hi. done.
    + rewrite !lookup_insert_ne by done. exact Hr.
Qed.

Lemma count_occ_elem (values : list FeatureValue) (v : FeatureValue) :
  v ∉ values -> count_occ FeatureValue_eq_dec values v = 0%nat.
Proof. intros H. apply count_occ_not_In. by rewrite <- list_elem_of_In. Qed.

Lemma update_tally (l1 l2 : list FeatureValue) :
  update (tally l1) (tally l2) = tally (l1 ++ l2).
Proof.
  apply map_eq. intros v. rewrite update_lookup, !tally_lookup.
  rewrite count_occ_app, Nat2Z.inj_add.
  destruct (decide (v ∈ l1)) as [H1|H1], (decide (v ∈ l2)) as [H2|H2]; simpl.
  - by rewrite decide_True by (apply elem_of_app; auto).
  - rewrite decide_True by (apply elem_of_app; auto).
    rewrite (count_occ_elem l2) by done. f_equal. lia.
  - rewrite decide_True by (apply elem_of_app; auto).
    by rewrite (count_occ_elem l1) by done.
  - rewrite decide_False; [done|]. intros [?|?]%elem_of_app; done.
Qed.

Lemma tally_perm (l1 l2 : list FeatureValue) : l1 ≡ₚ l2 -> tally l1 = tally l2.
Proof.
  intros Hp. apply map_eq. intros v. rewrite !tally_lookup.
  assert (count_occ FeatureValue_eq_dec l1 v = count_occ FeatureValue_eq_dec l2 v)
    as -> by (by apply Permutation_count_occ).
  destruct (decide (v ∈ l1)) as [H|H]; rewrite Hp in H.
  - by rewrite decide_True.
  - by rewrite decide_False.
Qed.

Lemma update_empty_r (m : gmap FeatureValue Z) : update m ∅ = m.
Proof. unfold update. apply map_fold_empty. Qed.

Lemma tally_nil : tally [] = ∅.
Proof. done. Qed.

Lemma add_column_unweighted (self : TopKUniquesCombinerStatsGenerator)
    (accumulator : gmap FeaturePath _ValueCounts) (column : Column)
    (found : FeaturePath -> option (list FeatureValue)) :
  (forall fp, accumulator !! fp
              = (fun l => mk_ValueCounts (tally l) ∅) <$> found fp) ->
  exists accumulator',
    add_column self None accumulator column = Ok accumulator'
    /\ forall fp, accumulator' !! fp
                  = (fun l => mk_ValueCounts (tally l) ∅)
                      <$> values_step self fp (found fp) column.
Proof.
  intros Hacc.
  assert (Hsame : forall (accumulator' : gmap FeaturePath _ValueCounts),
            (forall fp, accumulator' !! fp
                        = (fun l => mk_ValueCounts (tally l) ∅)
                            <$> (if eligible self column
                                    && bool_decide ([name column] = fp)
                                 then Some (default [] (found fp)
                                            ++ FlattenListArray (data column))
                                 else found fp)) ->
            forall fp, accumulator' !! fp
                       = (fun l => mk_ValueCounts (tally l) ∅)
                           <$> values_step self fp (found fp) column) by done.
  unfold add_column. cbv zeta.
  match goal with
  | |- context [negb (?x || ?y)] =>
    assert (Hel : eligible self column
                  = negb (bool_decide (Some (name column) = _weight_feature self))
                    && (x || y)) by reflexivity;
    destruct (x || y) eqn:Ee
  end;
  destruct (bool_decide (Some (name column) = _weight_feature self)) eqn:Ew;
  cbn [negb andb] in Hel |- *;
  try (exists accumulator; split; [done|]; apply Hsame; intros fp;
       rewrite Hel; apply Hacc).
  cbn [mbind result_bind].
  fold (tally (FlattenListArray (data column))).
  rewrite (Hacc [name column]).
  destruct (found [name column]) as [l|] eqn:Hfound;
    cbn [fmap option_fmap option_map].
  - eexists. split; [done|]. apply Hsame. intros fp.
    rewrite Hel. cbn [negb andb].
    destruct (decide ([name column] = fp)) as [<-|Hne].
    + rewrite bool_decide_eq_true_2 by done.
      rewrite lookup_insert_eq, Hfound. simpl.
      by rewrite update_tally, update_empty_r.
    + rewrite bool_decide_eq_false_2 by done.
      rewrite lookup_insert_ne by done. apply Hacc.
  - eexists. split; [done|]. apply Hsame. intros fp.
    rewrite Hel. cbn [negb andb].
    destruct (decide ([name column] = fp)) as [<-|Hne].
    + rewrite bool_decide_eq_true_2 by done.
      rewrite lookup_insert_eq, Hfound. done.
    + rewrite bool_decide_eq_false_2 by done.
      rewrite lookup_insert_ne by done. apply Hacc.
Qed.

Lemma add_columns_unweighted (self : TopKUniquesCombinerStatsGenerator)
    (columns : list Column) :
  forall (accumulator : gmap FeaturePath _ValueCounts)
         (found : FeaturePath -> option (list FeatureValue)),
    (forall fp, accumulator !! fp
                = (fun l => mk_ValueCounts (tally l) ∅) <$> found fp) ->
    exists accumulator',
      add_columns self None accumulator columns = Ok accumulator'
      /\ forall fp, accumulator' !! fp
                    = (fun l => mk_ValueCounts (tally l) ∅)
                        <$> foldl (values_step self fp) (found fp) columns.
Proof.
  induction columns as [|c cols IH]; intros accumulator found Hacc.
  - exists accumulator. done.
  - destruct (add_column_unweighted self accumulator c found Hacc)
      as (acc1 & Hrun & Hacc1).
    destruct (IH acc1 (fun fp => values_step self fp (found fp) c) Hacc1)
      as (acc2 & Hrun2 & Hacc2).
    exists acc2. split; [|done]. cbn [add_columns]. by rewrite Hrun.
Qed.

Lemma add_input_unweighted (self : TopKUniquesCombinerStatsGenerator)
    (table : Table) :
  _weight_feature self = None ->
  exists accumulator,
    add_input self ∅ table = Ok accumulator
    /\ forall fp, accumulator !! fp
                  = (fun l => mk_ValueCounts (tally l) ∅)
                      <$> values_of self (columns table) fp.
Proof.
  intros Hw. unfold add_input, flattened_weights_of, weight_feature_set.
  rewrite Hw. cbn [mbind result_bind].
  apply (add_columns_unweighted self (columns table) ∅ (fun _ => None)).
  intros fp. by rewrite lookup_empty.
Qed.

(** X4: without a weight feature, add_input on a fresh accumulator returns
    an accumulator that has an entry exactly for the feature paths with a
    column that is categorical or of string type; the unweighted counter of
    the entry has the flattened values of these columns as keys, each with
    the number of its occurrences, and the weighted counter is empty. *)
Theorem X4_add_input_counts_occurrences
    (categorical_features : gset FeaturePath)
    (num_top_values frequency_threshold weighted_frequency_threshold
       num_rank_histogram_buckets : Z) (table : Table) :
  let self := mkGenerator categorical_features None num_top_values
                frequency_threshold weighted_frequency_threshold
                num_rank_histogram_buckets in
  exists accumulator,
    add_input self ∅ table = Ok accumulator
    /\ forall feature_path,
         match values_of self (columns table) feature_path with
         | None => accumulator !! feature_path = None
         | Some values =>
           exists counts,
             accumulator !! feature_path = Some (mk_ValueCounts counts ∅)
             /\ forall value,
                  counts !! value
                  = if decide (value ∈ values)
                    then Some (Z.of_nat (count_occ FeatureValue_eq_dec values
                                           value))
                    else None
         end.
Proof.
  intros self.
  destruct (add_input_unweighted self table eq_refl) as (accumulator & Hrun & Hacc).
  exists accumulator. split; [done|]. intros fp. rewrite (Hacc fp).
  destruct (values_of self (columns table) fp) as [values|]; [|done].
  exists (tally values). split; [done|]. intros value. apply tally_lookup.
Qed.

(** What merge_feature leaves at a feature path, for every accumulator. *)
Lemma merge_feature_lookup (result accumulator : gmap FeaturePath _ValueCounts)
    (fp : FeaturePath) :
  map_fold merge_feature result accumulator !! fp
  = match accumulator !! fp with
    | None => result !! fp
    | Some value_counts =>
      Some match result !! fp with
           | None => value_counts
           | Some r =>
             mk_ValueCounts
               (update (unweighted_counts r) (unweighted_counts value_counts))
               (if truthy (weighted_counts r)
                then update (weighted_counts r) (weighted_counts value_counts)
                else weighted_counts r)
           end
    end.
Proof.
  apply (map_fold_weak_ind
           (fun r (m : gmap FeaturePath _ValueCounts) =>
              forall fp,
                r !! fp
                = match m !! fp with
                  | None => result !! fp
                  | Some value_counts =>
                    Some match result !! fp with
                         | None => value_counts
                         | Some r =>
                           mk_ValueCounts
                             (update (unweighted_counts r)
                                (unweighted_counts value_counts))
                             (if truthy (weighted_counts r)
                              then update (weighted_counts r)
                                     (weighted_counts value_counts)
                              else weighted_counts r)
                         end
                  end)).
  - intros fp'. by rewrite lookup_empty.
  - intros i x m r Hi Hr fp'. unfold merge_feature.
    pose proof (Hr i) as Hri. rewrite Hi in Hri. rewrite Hri.
    destruct (decide (i = fp')) as [->|Hne].
    + rewrite lookup_insert_eq.
      destruct (result !! fp'); by rewrite lookup_insert_eq.
    + rewrite (lookup_insert_ne m) by done.
      destruct (result !! i); rewrite lookup_insert_ne by done; apply Hr.
Qed.

Lemma count_of_merge_feature (result accumulator : gmap FeaturePath _ValueCounts)
    (fp : FeaturePath) (v : FeatureValue) :
  count_of (map_fold merge_feature result accumulator) fp v
  = count_of result fp v + count_of accumulator fp v.
Proof.
  unfold count_of. rewrite merge_feature_lookup.
  destruct (accumulator !! fp) as [vc|], (result !! fp) as [r|]; simpl;
    try lia.
  rewrite update_lookup. destruct (unweighted_counts vc !! v); simpl; lia.
Qed.

(** X5: merge_accumulators adds the unweighted counts: the count of a value
    for a feature path in the merged accumulator is the sum of its counts in
    the accumulators, whatever their order, and the merged accumulator has an
    entry for the feature paths that have one in some accumulator. *)
Theorem X5_merge_adds_unweighted_counts
    (accumulators : list (gmap FeaturePath _ValueCounts))
    (feature_path : FeaturePath) (value : FeatureValue) :
  count_of (merge_accumulators accumulators) feature_path value
  = foldr Z.add 0 ((fun a => count_of a feature_path value) <$> accumulators)
  /\ (is_Some (merge_accumulators accumulators !! feature_path)
      <-> Exists (fun a => is_Some (a !! feature_path)) accumulators).
Proof.
  unfold merge_accumulators.
  assert (Hgen : forall start : gmap FeaturePath _ValueCounts,
    let merged :=
      foldl (fun result accumulator => map_fold merge_feature result accumulator)
        start accumulators in
    count_of merged feature_path value
    = count_of start feature_path value
      + foldr Z.add 0 ((fun a => count_of a feature_path value) <$> accumulators)
    /\ (is_Some (merged !! feature_path)
        <-> is_Some (start !! feature_path)
            \/ Exists (fun a => is_Some (a !! feature_path)) accumulators)).
  { induction accumulators as [|a l IH]; intros start; cbn zeta.
    - simpl. split; [lia|]. rewrite Exists_nil. tauto.
    - cbn [foldl]. destruct (IH (map_fold merge_feature start a)) as [IH1 IH2].
      cbn zeta in IH1, IH2. split.
      + rewrite IH1, count_of_merge_feature, fmap_cons. simpl. lia.
      + rewrite IH2, Exists_cons, merge_feature_lookup.
        destruct (a !! feature_path) as [vc|].
        * split; intros _; [right; left; eauto|left; eauto].
        * split.
          -- intros [H|H]; [by left|by right; right].
          -- intros [H|[H|H]]; [by left|by destruct H|by right]. }
  destruct (Hgen ∅) as [H1 H2]. cbn zeta in H1, H2. split.
  - rewrite H1. unfold count_of at 1. rewrite lookup_empty. simpl. lia.
  - rewrite H2, lookup_empty. split; [intros [H|H]; [by destruct H|done]|auto].
Qed.

End CountingValues.

(** ** Merging and splitting without weights *)
Section MergingCounts.
Import statistics_pb2 arrow.
Import top_k_uniques_combiner_stats_generator.

Lemma values_fold (self : TopKUniquesCombinerStatsGenerator)
    (fp : FeaturePath) (columns : list Column) :
  forall found,
    foldl (values_step self fp) found columns
    = match values_of self columns fp with
      | None => found
      | Some l => Some (default [] found ++ l)
      end.
Proof.
  unfold values_of. induction columns as [|c cols IH]; intros found; [done|].
  cbn [foldl]. rewrite (IH (values_step self fp found c)).
  rewrite (IH (values_step self fp None c)).
  unfold values_step.
  destruct (eligible self c && bool_decide ([name c] = fp));
    destruct (foldl _ None cols) as [l|]; simpl; try done.
  by rewrite app_assoc.
Qed.

Lemma add_input_unweighted_from (self : TopKUniquesCombinerStatsGenerator)
    (accumulator : gmap FeaturePath _ValueCounts) (table : Table)
    (found : FeaturePath -> option (list FeatureValue)) :
  _weight_feature self = None ->
  (forall fp, accumulator !! fp
              = (fun l => mk_ValueCounts (tally l) ∅) <$> found fp) ->
  exists accumulator',
    add_input self accumulator table = Ok accumulator'
    /\ forall fp, accumulator' !! fp
                  = (fun l => mk_ValueCounts (tally l) ∅)
                      <$> match values_of self (columns table) fp with
                          | None => found fp
                          | Some l => Some (default [] (found fp) ++ l)
                          end.
Proof.
  intros Hw Hacc. unfold add_input, flattened_weights_of, weight_feature_set.
  rewrite Hw. cbn [mbind result_bind].
  destruct (add_columns_unweighted self (columns table) accumulator found Hacc)
    as (acc' & Hrun & Hacc').
  exists acc'. split; [done|]. intros fp. by rewrite Hacc', values_fold.
Qed.

Lemma merge_pair_lookup (a1 a2 : gmap FeaturePath _ValueCounts)
    (fp : FeaturePath) :
  merge_accumulators [a1; a2] !! fp
  = match a2 !! fp with
    | None => a1 !! fp
    | Some value_counts =>
      Some match a1 !! fp with
           | None => value_counts
           | Some r =>
             mk_ValueCounts
               (update (unweighted_counts r) (unweighted_counts value_counts))
               (if truthy (weighted_counts r)
                then update (weighted_counts r) (weighted_counts value_counts)
                else weighted_counts r)
           end
    end.
Proof.
  unfold merge_accumulators. cbn [foldl].
  rewrite merge_feature_lookup.
  assert (H1 : map_fold merge_feature ∅ a1 !! fp = a1 !! fp).
  { rewrite merge_feature_lookup, lookup_empty. by destruct (a1 !! fp). }
  by rewrite H1.
Qed.

Lemma merge_pair_unweighted (a1 a2 : gmap FeaturePath _ValueCounts)
    (found1 found2 : FeaturePath -> option (list FeatureValue))
    (fp : FeaturePath) :
  (forall fp, a1 !! fp = (fun l => mk_ValueCounts (tally l) ∅) <$> found1 fp) ->
  (forall fp, a2 !! fp = (fun l => mk_ValueCounts (tally l) ∅) <$> found2 fp) ->
  merge_accumulators [a1; a2] !! fp
  = (fun l => mk_ValueCounts (tally l) ∅)
      <$> match found2 fp with
          | None => found1 fp
          | Some l => Some (default [] (found1 fp) ++ l)
          end.
Proof.
  intros H1 H2. rewrite merge_pair_lookup, H1, H2.
  destruct (found2 fp) as [l2|], (found1 fp) as [l1|]; simpl; try done.
  by rewrite update_tally.
Qed.

(** X6: without a weight feature, merging the accumulators of two tables
    gives the accumulator that add_input gives on the second table after the
    first, and the order of the two accumulators does not matter. *)
Theorem X6_merge_agrees_with_add_input
    (categorical_features : gset FeaturePath)
    (num_top_values frequency_threshold weighted_frequency_threshold
       num_rank_histogram_buckets : Z) (table1 table2 : Table) :
  let self := mkGenerator categorical_features None num_top_values
                frequency_threshold weighted_frequency_threshold
                num_rank_histogram_buckets in
  exists accumulator1 accumulator2 accumulator12,
    add_input self create_accumulator table1 = Ok accumulator1
    /\ add_input self create_accumulator table2 = Ok accumulator2
    /\ add_input self accumulator1 table2 = Ok accumulator12
    /\ merge_accumulators [accumulator1; accumulator2] = accumulator12
    /\ merge_accumulators [accumulator2; accumulator1] = accumulator12.
Proof.
  intros self.
  destruct (add_input_unweighted self table1 eq_refl) as (a1 & Hr1 & H1).
  destruct (add_input_unweighted self table2 eq_refl) as (a2 & Hr2 & H2).
  destruct (add_input_unweighted_from self a1 table2 _ eq_refl H1)
    as (a12 & Hr12 & H12).
  exists a1, a2, a12. split_and!; try done.
  - apply map_eq. intros fp.
    by rewrite (merge_pair_unweighted a1 a2 _ _ fp H1 H2), H12.
  - apply map_eq. intros fp.
    rewrite (merge_pair_unweighted a2 a1 _ _ fp H2 H1), H12.
    destruct (values_of self (columns table1) fp) as [l1|],
      (values_of self (columns table2) fp) as [l2|]; simpl; try done.
    f_equal. f_equal. apply tally_perm, Permutation_app_comm.
Qed.

Lemma FlattenListArray_take_drop (k : nat)
    (rows : list (option (list FeatureValue))) :
  FlattenListArray (take k rows) ++ FlattenListArray (drop k rows)
  = FlattenListArray rows.
Proof.
  unfold FlattenListArray.
  by rewrite <- concat_app, <- fmap_app, take_drop.
Qed.

Lemma values_of_split (self : TopKUniquesCombinerStatsGenerator) (k : nat)
    (fp : FeaturePath) (cols : list Column) :
  forall f1 f2 f,
    match f1, f2, f with
    | None, None, None => True
    | Some l1, Some l2, Some l => l1 ++ l2 ≡ₚ l
    | _, _, _ => False
    end ->
    match foldl (values_step self fp) f1
            ((fun c => mkColumn (name c) (feature_type c) (take k (data c)))
               <$> cols),
          foldl (values_step self fp) f2
            ((fun c => mkColumn (name c) (feature_type c) (drop k (data c)))
               <$> cols),
          foldl (values_step self fp) f cols with
    | None, None, None => True
    | Some l1, Some l2, Some l => l1 ++ l2 ≡ₚ l
    | _, _, _ => False
    end.
Proof.
  induction cols as [|c cols IH]; intros f1 f2 f Hf; [done|].
  rewrite !fmap_cons. cbn [foldl]. apply IH.
  unfold values_step, eligible. cbn [name feature_type data].
  destruct (negb _ && _ && _); [|done].
  rewrite <- (FlattenListArray_take_drop k (data c)).
  set (x := FlattenListArray (take k (data c))).
  set (y := FlattenListArray (drop k (data c))).
  destruct f1 as [l1|], f2 as [l2|], f as [l|]; try done; simpl.
  rewrite <- Hf. solve_Permutation.
Qed.

(** X7: without a weight feature, a table may be split: the accumulators of
    the first k rows and of the remaining rows merge into the accumulator of
    the whole table, so that extract_output gives the same on both. *)
Theorem X7_split_table_merges_to_the_whole
    (categorical_features : gset FeaturePath)
    (num_top_values frequency_threshold weighted_frequency_threshold
       num_rank_histogram_buckets : Z) (k : nat) (table : Table) :
  let self := mkGenerator categorical_features None num_top_values
                frequency_threshold weighted_frequency_threshold
                num_rank_histogram_buckets in
  exists head tail whole,
    add_input self create_accumulator (rows_take k table) = Ok head
    /\ add_input self create_accumulator (rows_drop k table) = Ok tail
    /\ add_input self create_accumulator table = Ok whole
    /\ merge_accumulators [head; tail] = whole
    /\ extract_output self (merge_accumulators [head; tail])
       = extract_output self whole.
Proof.
  intros self.
  destruct (add_input_unweighted self (rows_take k table) eq_refl)
    as (a1 & Hr1 & H1).
  destruct (add_input_unweighted self (rows_drop k table) eq_refl)
    as (a2 & Hr2 & H2).
  destruct (add_input_unweighted self table eq_refl) as (a & Hr & H).
  assert (Heq : merge_accumulators [a1; a2] = a).
  { apply map_eq. intros fp.
    rewrite (merge_pair_unweighted a1 a2 _ _ fp H1 H2), H.
    pose proof (values_of_split self k fp (columns table) None None None I)
      as Hs.
    unfold values_of, rows_take, rows_drop. cbn [columns].
    destruct (foldl _ None (_ <$> columns table)) as [l1|],
      (foldl _ None (_ <$> columns table)) as [l2|],
      (foldl _ None (columns table)) as [l|]; try done.
    simpl. f_equal. f_equal. by apply tally_perm. }
  exists a1, a2, a. split_and!; try done. by rewrite Heq.
Qed.

End MergingCounts.

(** ** When extract_output raises *)
Section ExtractingCounts.
Import statistics_pb2 arrow.
Import top_k_uniques_combiner_stats_generator.

Lemma mapM_result_Ok {A B : Type} (f : A -> result B) (g : A -> B)
    (l : list A) :
  Forall (fun x => f x = Ok (g x)) l -> mapM f l = Ok (g <$> l).
Proof.
  induction 1 as [|x l Hx Hl IH]; [done|].
  cbn [mapM]. rewrite Hx. cbn [mbind result_bind]. by rewrite IH.
Qed.

Lemma mapM_result_Raise {A B : Type} (f : A -> result B) (e : exn)
    (l : list A) :
  Forall (fun x => (exists y, f x = Ok y) \/ f x = Raise e) l ->
  Exists (fun x => f x = Raise e) l ->
  mapM f l = Raise e.
Proof.
  induction 1 as [|x l Hx Hl IH]; [by intros ?%Exists_nil|].
  intros He. cbn [mapM]. destruct Hx as [[y Hy]|Hx].
  - rewrite Hy. cbn [mbind result_bind].
    apply Exists_cons in He as [He|He]; [congruence|]. by rewrite IH.
  - by rewrite Hx.
Qed.

Lemma make_feature_stats_proto_path fp l wl cat ntv thr wthr nrb :
  path (_make_feature_stats_proto fp l wl cat ntv thr wthr nrb).1 = fp.
Proof.
  unfold _make_feature_stats_proto.
  destruct (topk_stats_spec fp l cat false ntv thr nrb)
    as (_ & _ & Hp & _).
  destruct (top_k_uniques_stats_generator.make_feature_stats_proto_with_topk_stats
              fp l cat false ntv thr nrb) as [result log].
  cbn [fst] in Hp.
  destruct wl as [[|x wl]|]; try done.
  by destruct (top_k_uniques_stats_generator.make_feature_stats_proto_with_topk_stats
                 fp (x :: wl) cat true ntv wthr nrb).
Qed.

Lemma truthy_true (c : gmap FeatureValue Z) : truthy c = true <-> c <> ∅.
Proof.
  unfold truthy. rewrite negb_true_iff, bool_decide_eq_false. done.
Qed.

Lemma lookup_counted (accumulator : gmap FeaturePath _ValueCounts)
    (pick : _ValueCounts -> gmap FeatureValue Z) (fp : FeaturePath) :
  is_Some (omap (fun value_counts =>
                   if truthy (pick value_counts)
                   then Some (items (pick value_counts)) else None)
             accumulator !! fp)
  <-> exists value_counts,
        accumulator !! fp = Some value_counts /\ pick value_counts <> ∅.
Proof.
  rewrite lookup_omap. destruct (accumulator !! fp) as [vc|]; simpl.
  - destruct (truthy (pick vc)) eqn:E.
    + apply truthy_true in E. split; [eauto|]. intros _. eauto.
    + split; [by intros [? ?]|]. intros (vc' & [= <-] & Hne).
      apply truthy_true in Hne. congruence.
  - split; [by intros [? ?]|]. by intros (? & ? & ?).
Qed.

(** X8: extract_output of the top-k and uniques combiner raises nothing but
    KeyError, and raises it exactly when some feature path of the accumulator
    has a weighted counter with a key while another one has an unweighted
    counter with a key and an empty weighted counter. When it returns, the
    result has one entry for every feature path whose unweighted counter has a
    key, and no other entry. *)
Theorem X8_extract_output_raises_only_KeyError
    (self : TopKUniquesCombinerStatsGenerator)
    (accumulator : gmap FeaturePath _ValueCounts) :
  let counted := fun feature_path =>
    exists value_counts, accumulator !! feature_path = Some value_counts
                         /\ unweighted_counts value_counts <> ∅ in
  let weighted := fun feature_path =>
    exists value_counts, accumulator !! feature_path = Some value_counts
                         /\ weighted_counts value_counts <> ∅ in
  match extract_output self accumulator with
  | Ok (result, log) =>
    ((forall feature_path, ~ weighted feature_path)
     \/ (forall feature_path, counted feature_path -> weighted feature_path))
    /\ NoDup (path <$> features result)
    /\ (forall feature_path,
          feature_path ∈ path <$> features result <-> counted feature_path)
    /\ num_examples result = 0
  | Raise e =>
    e = KeyError
    /\ (exists feature_path, weighted feature_path)
    /\ (exists feature_path, counted feature_path /\ ~ weighted feature_path)
  end.
Proof.
  intros counted weighted. unfold extract_output.
  set (u := omap _ accumulator).
  set (w := omap (fun value_counts =>
                    if truthy (weighted_counts value_counts)
                    then Some (items (weighted_counts value_counts)) else None)
              accumulator).
  assert (Hu : forall fp, is_Some (u !! fp) <-> counted fp)
    by (intros fp; apply (lookup_counted accumulator unweighted_counts)).
  assert (Hw : forall fp, is_Some (w !! fp) <-> weighted fp)
    by (intros fp; apply (lookup_counted accumulator weighted_counts)).
  clearbody u w.
  unfold _make_dataset_feature_stats_proto_with_multiple_features.
  set (f := fun kv : FeaturePath * list FeatureValueCount => _).
  assert (Hpaths : forall g,
            Forall (fun x => f x = Ok (g x)) (map_to_list u) ->
            (forall x, path (g x).1 = x.1) ->
            NoDup (path <$> (g <$> map_to_list u).*1)
            /\ forall fp, fp ∈ path <$> (g <$> map_to_list u).*1 <-> counted fp).
  { intros g _ Hg.
    assert (Heq : path <$> (g <$> map_to_list u).*1 = (map_to_list u).*1).
    { rewrite <- !list_fmap_compose. apply list_fmap_ext. intros i x _.
      simpl. apply Hg. }
    rewrite Heq. split; [apply NoDup_fst_map_to_list|].
    intros fp. rewrite <- Hu. rewrite list_elem_of_fmap. split.
    - intros ([k v] & -> & Hin). apply elem_of_map_to_list in Hin. eauto.
    - intros [v Hv]. exists (fp, v). split; [done|].
      by apply elem_of_map_to_list. }
  destruct (decide (w = ∅)) as [Hempty|Hne].
  - set (g := fun kv : FeaturePath * list FeatureValueCount =>
                _make_feature_stats_proto kv.1 kv.2 None
                  (bool_decide (kv.1 ∈ _categorical_features self))
                  (_num_top_values self) (_frequency_threshold self)
                  (_weighted_frequency_threshold self)
                  (_num_rank_histogram_buckets self)).
    assert (Hall : Forall (fun x => f x = Ok (g x)) (map_to_list u)).
    { apply Forall_forall. intros [k v] _. unfold f, g.
      by rewrite (bool_decide_eq_true_2 (w = ∅)) by done. }
    rewrite (mapM_result_Ok f g _ Hall). cbn [mbind result_bind].
    destruct (Hpaths g Hall) as [Hnd Hin].
    { intros x. apply make_feature_stats_proto_path. }
    cbn [features num_examples]. split_and!; try done.
    left. intros fp Hfp. apply Hw in Hfp. rewrite Hempty, lookup_empty in Hfp.
    by destruct Hfp.
  - destruct (decide (Forall (fun x => is_Some (w !! x.1)) (map_to_list u)))
      as [Hall|Hex].
    + set (g := fun kv : FeaturePath * list FeatureValueCount =>
                  _make_feature_stats_proto kv.1 kv.2 (Some (default [] (w !! kv.1)))
                    (bool_decide (kv.1 ∈ _categorical_features self))
                    (_num_top_values self) (_frequency_threshold self)
                    (_weighted_frequency_threshold self)
                    (_num_rank_histogram_buckets self)).
      assert (Hall' : Forall (fun x => f x = Ok (g x)) (map_to_list u)).
      { eapply Forall_impl; [exact Hall|]. intros [k v] [l Hl]. unfold f, g.
        rewrite (bool_decide_eq_false_2 (w = ∅)) by done. cbn [fst snd] in *.
        by rewrite Hl. }
      rewrite (mapM_result_Ok f g _ Hall'). cbn [mbind result_bind].
      destruct (Hpaths g Hall') as [Hnd Hin].
      { intros x. apply make_feature_stats_proto_path. }
      cbn [features num_examples]. split_and!; try done.
      right. intros fp Hfp. apply Hw. apply Hu in Hfp as [v Hv].
      rewrite Forall_forall in Hall.
      apply (Hall (fp, v)). by apply elem_of_map_to_list.
    + apply not_Forall_Exists in Hex; [|intros x; apply _].
      rewrite (mapM_result_Raise f KeyError).
      * split; [done|]. split.
        -- apply map_choose in Hne as (fp & v & Hv). exists fp. apply Hw. eauto.
        -- apply Exists_exists in Hex as ([k v] & Hin & Hnone).
           apply elem_of_map_to_list in Hin. exists k. split.
           ++ apply Hu. eauto.
           ++ intros Hk. apply Hw in Hk. done.
      * apply Forall_forall. intros [k v] _. unfold f.
        rewrite (bool_decide_eq_false_2 (w = ∅)) by done.
        destruct (w !! k); cbn [mbind result_bind]; eauto.
      * eapply Exists_impl; [exact Hex|]. intros [k v] Hnone. unfold f.
        rewrite (bool_decide_eq_false_2 (w = ∅)) by done. cbn [fst] in Hnone.
        destruct (w !! k) eqn:E; [|done]. destruct Hnone. simpl. rewrite E. eauto.
Qed.

End ExtractingCounts.

(** ** Weighted counts *)
Section WeightedCounts.
Import statistics_pb2 arrow.
Import top_k_uniques_combiner_stats_generator.












Lemma weighted_pairs_nil (rows : list (option (list FeatureValue))) :
  rows = [] -> weighted_pairs rows [] = [] /\ FlattenListArray rows = [].
Proof. by intros ->. Qed.





Lemma weighted_table_counts :
  forall accumulator,
    add_input examples.weighted_generator create_accumulator weighted_table
    = Ok accumulator ->
    accumulator !! ["f"]
    = Some (mk_ValueCounts
              {[TextValue "a" := 2; TextValue "b" := 1]}
              {[TextValue "a" := 7; TextValue "b" := 2]}).
Proof. intros accumulator. vm_compute. by intros [= <-]. Qed.

End WeightedCounts.

(** ** The pending rows of the batching wrapper *)
Section PendingRows.
Import statistics_pb2 arrow stats_impl.
Import _CombinerStatsGeneratorsCombineFn.
Context {Acc : Type}.
Variable MergeTables : list Table -> Table.
Variable MergeFrom :
  FeatureNameStatistics -> FeatureNameStatistics -> FeatureNameStatistics.

Lemma maybe_do_batch_bounded (self : t Acc) (accumulator : Accumulator Acc)
    (force : bool) :
  0 < _desired_batch_size self ->
  0 <= curr_batch_size accumulator ->
  0 <= curr_batch_size (_maybe_do_batch MergeTables self accumulator force)
    < _desired_batch_size self.
Proof.
  intros Hpos Hge. unfold _maybe_do_batch. cbv zeta.
  destruct (curr_batch_size accumulator >=? _desired_batch_size self) eqn:E.
  - rewrite orb_true_r. simpl. lia.
  - rewrite orb_false_r. rewrite Z.geb_leb in E. apply Z.leb_gt in E.
    destruct (force && _); simpl; lia.
Qed.

Lemma merge_batch_bounded (self : t Acc) (group : list (Accumulator Acc)) :
  0 < _desired_batch_size self ->
  Forall (fun a => 0 <= curr_batch_size a) group ->
  forall result,
    0 <= curr_batch_size result < _desired_batch_size self ->
    0 <= curr_batch_size (merge_batch MergeTables self result group)
      < _desired_batch_size self.
Proof.
  intros Hpos Hall result Hres. unfold merge_batch.
  assert (H : forall state : Accumulator Acc * list (list Acc),
            0 <= curr_batch_size state.1 < _desired_batch_size self ->
            0 <= curr_batch_size
                   (foldl (merge_pending MergeTables self) state group).1
              < _desired_batch_size self).
  { induction Hall as [|a group Ha Hgroup IH]; intros state Hstate; [done|].
    cbn [foldl]. apply IH. destruct state as [r parts]. cbn [fst] in Hstate.
    unfold merge_pending. cbn [fst].
    apply maybe_do_batch_bounded; [done|]. simpl. lia. }
  specialize (H (result, []) Hres).
  destruct (foldl (merge_pending MergeTables self) (result, []) group)
    as [r parts]. exact H.
Qed.

Lemma merge_accumulators_bounded (self : t Acc)
    (accumulators : list (Accumulator Acc)) :
  0 < _desired_batch_size self ->
  Forall (fun a => 0 <= curr_batch_size a) accumulators ->
  0 <= curr_batch_size (merge_accumulators MergeTables self accumulators)
    < _desired_batch_size self.
Proof.
  intros Hpos Hall. unfold merge_accumulators.
  pose proof (islice_batches_concat
                _DEFAULT_DESIRED_MERGE_ACCUMULATOR_BATCH_SIZE accumulators)
    as Hconcat.
  assert (Hgroups : Forall (Forall (fun a => 0 <= curr_batch_size a))
                      (islice_batches (length accumulators)
                         _DEFAULT_DESIRED_MERGE_ACCUMULATOR_BATCH_SIZE
                         accumulators)).
  { apply Forall_concat. rewrite Hconcat; [done| |done].
    unfold _DEFAULT_DESIRED_MERGE_ACCUMULATOR_BATCH_SIZE. lia. }
  assert (H : forall result : Accumulator Acc,
            0 <= curr_batch_size result < _desired_batch_size self ->
            0 <= curr_batch_size
                   (foldl (merge_batch MergeTables self) result
                      (islice_batches (length accumulators)
                         _DEFAULT_DESIRED_MERGE_ACCUMULATOR_BATCH_SIZE
                         accumulators))
              < _desired_batch_size self).
  { induction Hgroups as [|g groups Hg Hgroups IH]; intros result Hres; [done|].
    cbn [foldl]. apply IH. by apply merge_batch_bounded. }
  apply H. simpl. lia.
Qed.

(** X10: whatever the operations, the rows that wait in the queue of the
    batching wrapper stay below the desired batch size, which is the one
    given to the constructor when it is positive and 1000 otherwise; the
    counter is the number of these rows. *)
Theorem X10_pending_rows_stay_below_the_batch_size
    (generators : list (CombinerStatsGenerator.t Acc))
    (desired_batch_size : option Z) (b : Build) :
  let self := __init__ generators desired_batch_size in
  let accumulator := built MergeTables MergeFrom self b in
  _desired_batch_size self
  = match desired_batch_size with
    | Some d => if decide (0 < d) then d else DEFAULT_DESIRED_INPUT_BATCH_SIZE
    | None => DEFAULT_DESIRED_INPUT_BATCH_SIZE
    end
  /\ curr_batch_size accumulator = rows_of (input_tables accumulator)
  /\ 0 <= rows_of (input_tables accumulator) < _desired_batch_size self.
Proof.
  intros self accumulator.
  pose proof (init_desired_positive generators desired_batch_size) as Hpos.
  fold self in Hpos.
  destruct (built_kept MergeTables MergeFrom self b Hpos)
    as (folded & _ & _ & Hcurr).
  fold accumulator in Hcurr. split; [|split].
  - unfold self, __init__. simpl. destruct desired_batch_size as [d|]; [|done].
    destruct (decide (0 < d)) as [Hd|Hd].
    + assert (negb (d =? 0) && (d >? 0) = true) as ->; [|done].
      apply andb_true_iff. split; [apply negb_true_iff, Z.eqb_neq|apply Z.gtb_lt];
        lia.
    + assert (negb (d =? 0) && (d >? 0) = false) as ->; [|done].
      apply andb_false_iff. right. rewrite Z.gtb_ltb. apply Z.ltb_ge. lia.
  - exact Hcurr.
  - rewrite <- Hcurr. unfold accumulator. clear Hcurr accumulator folded.
    clearbody self.
    induction b as [|b t IH|b IH|b IH|bs IH] using Build_induction.
    + simpl. lia.
    + cbn [built]. unfold add_input. apply maybe_do_batch_bounded; [done|].
      simpl. lia.
    + cbn [built]. unfold compact. apply maybe_do_batch_bounded; [done|]. lia.
    + cbn [built]. unfold extract_output. cbn [fst].
      apply maybe_do_batch_bounded; [done|]. lia.
    + cbn [built]. apply merge_accumulators_bounded; [done|].
      apply Forall_fmap. eapply Forall_impl; [exact IH|]. simpl. lia.
Qed.

End PendingRows.

(** ** Merging the protos of the generators *)
Section MergedProtos.
Import statistics_pb2 stats_impl.
Import _CombinerStatsGeneratorsCombineFn.
Variable MergeFrom :
  FeatureNameStatistics -> FeatureNameStatistics -> FeatureNameStatistics.

Lemma merge_all_snoc (l : list FeatureNameStatistics)
    (f : FeatureNameStatistics) :
  merge_all MergeFrom (l ++ [f])
  = Some match merge_all MergeFrom l with
         | None => f
         | Some stats_for_feature =>
           MergeFrom
             (mkFeatureNameStatistics [] (type stats_for_feature)
                (stats stats_for_feature) (custom_stats stats_for_feature))
             f
         end.
Proof.
  destruct l as [|first others]; [done|].
  cbn [app merge_all]. by rewrite foldl_app.
Qed.

Lemma merged_features_lookup (all : list FeatureNameStatistics)
    (fp : FeaturePath) :
  foldl (merge_feature_stats MergeFrom) ∅ all !! fp
  = merge_all MergeFrom (filter (fun g => path g = fp) all).
Proof.
  induction all as [|f all IH] using rev_ind.
  - apply lookup_empty.
  - rewrite foldl_app, filter_app. cbn [foldl].
    unfold merge_feature_stats at 1. cbv zeta.
    destruct (decide (path f = fp)) as [Heq|Hne].
    + rewrite filter_cons_True by done. rewrite filter_nil, merge_all_snoc.
      rewrite <- IH, Heq.
      destruct (foldl (merge_feature_stats MergeFrom) ∅ all !! fp);
        by rewrite lookup_insert_eq.
    + rewrite filter_cons_False by done. rewrite filter_nil, app_nil_r.
      rewrite <- IH.
      destruct (foldl (merge_feature_stats MergeFrom) ∅ all !! path f);
        by rewrite lookup_insert_ne.
Qed.

Lemma foldl_features_concat (stats_protos : list DatasetFeatureStatistics) :
  forall spf : gmap FeaturePath FeatureNameStatistics,
    foldl (fun spf stats_proto =>
             foldl (merge_feature_stats MergeFrom) spf (features stats_proto))
      spf stats_protos
    = foldl (merge_feature_stats MergeFrom) spf
        (concat (features <$> stats_protos)).
Proof.
  induction stats_protos as [|d l IH]; intros spf; [done|].
  rewrite fmap_cons. cbn [foldl concat]. by rewrite foldl_app, IH.
Qed.

Lemma merge_all_path (l : list FeatureNameStatistics) (fp : FeaturePath)
    (f : FeatureNameStatistics) :
  (forall a b, path (MergeFrom a b) = path a ++ path b) ->
  Forall (fun g => path g = fp) l ->
  merge_all MergeFrom l = Some f -> path f = fp.
Proof.
  intros Hpath Hall. induction l as [|g l IH] using rev_ind in f, Hall |- *;
    [done|].
  rewrite merge_all_snoc. apply Forall_app in Hall as [Hl Hg].
  rewrite Forall_singleton in Hg. intros [= <-].
  destruct (merge_all MergeFrom l); [|exact Hg]. rewrite Hpath. exact Hg.
Qed.

(** X11: _merge_dataset_feature_stats_protos gives one entry for every
    feature path of the protos it merges and no other entry; the entry is the
    first feature statistics of that path, in the order of the protos, merged
    with the later ones by MergeFrom. The paths of the result are pairwise
    distinct because the path steps of the receiver are deleted before
    MergeFrom appends those of the other message. *)
Theorem X11_merged_protos_have_every_path_once
    (Hpath : forall a b, path (MergeFrom a b) = path a ++ path b)
    (stats_protos : list DatasetFeatureStatistics) :
  let all := concat (features <$> stats_protos) in
  let result := _merge_dataset_feature_stats_protos MergeFrom stats_protos in
  NoDup (path <$> features result)
  /\ (forall feature_path,
        feature_path ∈ path <$> features result
        <-> feature_path ∈ path <$> all)
  /\ (forall feature_stats,
        feature_stats ∈ features result ->
        merge_all MergeFrom
          (filter (fun g => path g = path feature_stats) all)
        = Some feature_stats).
Proof.
  intros all result. unfold result, _merge_dataset_feature_stats_protos.
  cbv zeta. cbn [features]. rewrite foldl_features_concat. fold all.
  set (spf := foldl (merge_feature_stats MergeFrom) ∅ all).
  assert (Hlookup : forall fp,
            spf !! fp = merge_all MergeFrom (filter (fun g => path g = fp) all))
    by apply merged_features_lookup.
  assert (Hkey : forall fp f, spf !! fp = Some f -> path f = fp).
  { intros fp f Hf. rewrite Hlookup in Hf.
    eapply merge_all_path; [done| |exact Hf].
    apply Forall_forall. by intros g [? _]%list_elem_of_filter. }
  assert (Hpaths : path <$> (map_to_list spf).*2 = (map_to_list spf).*1).
  { rewrite <- list_fmap_compose. apply Forall_fmap_ext, Forall_forall.
    intros [k v] Hin. apply elem_of_map_to_list in Hin. simpl. by apply Hkey. }
  split_and!.
  - rewrite Hpaths. apply NoDup_fst_map_to_list.
  - intros fp. rewrite Hpaths. rewrite list_elem_of_fmap. split.
    + intros ([k v] & -> & Hin). apply elem_of_map_to_list in Hin.
      rewrite Hlookup in Hin. cbn [fst] in *.
      destruct (filter (fun g => path g = k) all) as [|g l] eqn:E; [done|].
      assert (Hg : g ∈ filter (fun g => path g = k) all) by (rewrite E; left).
      apply list_elem_of_filter in Hg as [Hk Hg].
      apply list_elem_of_fmap. eauto.
    + intros (g & -> & Hg)%list_elem_of_fmap.
      assert (Hin : g ∈ filter (fun g' => path g' = path g) all)
        by (by apply list_elem_of_filter).
      pose proof (Hlookup (path g)) as Hl.
      destruct (filter (fun g' => path g' = path g) all) as [|g' l];
        [by apply elem_of_nil in Hin|].
      exists (path g, default g (spf !! path g)). split; [done|].
      apply elem_of_map_to_list. by rewrite Hl.
  - intros f ([k v] & -> & Hin)%list_elem_of_fmap.
    apply elem_of_map_to_list in Hin. cbn [snd].
    rewrite (Hkey k v Hin). by rewrite <- Hlookup.
Qed.

End MergedProtos.

Section MergedProtosExample.
Import statistics_pb2 stats_impl.
Import _CombinerStatsGeneratorsCombineFn.

Lemma X11_merged_protos_have_every_path_once_witness :
  let stats_protos :=
    [NumExamplesStatsGenerator.extract_output (10, 0);
     mkDatasetFeatureStatistics 0
       [mkFeatureNameStatistics ["F"] STRING NoStats [];
        mkFeatureNameStatistics ["F"] STRING NoStats
          [mkCustomStatistic "considered" 3]]] in
  let all := concat (features <$> stats_protos) in
  let result :=
    _merge_dataset_feature_stats_protos protobuf.MergeFrom stats_protos in
  NoDup (path <$> features result)
  /\ (forall feature_path,
        feature_path ∈ path <$> features result
        <-> feature_path ∈ path <$> all)
  /\ (forall feature_stats,
        feature_stats ∈ features result ->
        merge_all protobuf.MergeFrom
          (filter (fun g => path g = path feature_stats) all)
        = Some feature_stats).
Proof.
  intros stats_protos all result.
  apply (X11_merged_protos_have_every_path_once protobuf.MergeFrom
           (fun a b => eq_refl)).
Defined.

End MergedProtosExample.

(** ** The slots of the feature wrapper *)
Section WrapperSlots.
Import statistics_pb2 arrow stats_impl.
Import CombinerFeatureStatsWrapperGenerator.
Context {Acc : Type}.
Variable MergeFrom :
  FeatureNameStatistics -> FeatureNameStatistics -> FeatureNameStatistics.

Lemma length_folded_slots (self : t Acc) (c : Column) :
  length (folded_slots self c) = length (_feature_stats_generators self).
Proof. unfold folded_slots. by rewrite length_fmap. Qed.

Lemma length_fresh_slots (self : t Acc) :
  length (fresh_slots self) = length (_feature_stats_generators self).
Proof. unfold fresh_slots. by rewrite length_fmap. Qed.

Lemma add_input_columns_well_formed (self : t Acc) (columns : list Column) :
  forall wrapper_accumulator,
    well_formed self wrapper_accumulator ->
    exists wrapper_accumulator',
      add_input_columns self wrapper_accumulator columns
      = Ok wrapper_accumulator'
      /\ well_formed self wrapper_accumulator'
      /\ forall fp,
           wrapper_accumulator' !! fp
           = match last (filter (fun c => folded_for self fp c = true) columns)
             with
             | Some c => Some (folded_slots self c)
             | None => wrapper_accumulator !! fp
             end.
Proof.
  induction columns as [|c cols IH]; intros wa Hwf.
  - exists wa. done.
  - cbn [add_input_columns].
    destruct (decide (Some (arrow.name c) = _weight_feature self)) as [Hw|Hw].
    + unfold add_input_column. rewrite bool_decide_eq_true_2 by done.
      cbn [mbind result_bind].
      destruct (IH wa Hwf) as (wa' & Hrun & Hwf' & Hlook).
      exists wa'. split_and!; try done. intros fp. rewrite Hlook.
      rewrite filter_cons_False; [done|].
      unfold folded_for. rewrite bool_decide_eq_true_2 by done. done.
    + rewrite add_input_column_spec; [|done|intros slots Hs; by apply Hwf in Hs].
      cbn [mbind result_bind]. fold (folded_slots self c).
      destruct (IH (<[[arrow.name c] := folded_slots self c]> wa))
        as (wa' & Hrun & Hwf' & Hlook).
      { apply map_Forall_insert_2; [apply length_folded_slots|done]. }
      exists wa'. split_and!; try done. intros fp. rewrite Hlook.
      destruct (decide ([arrow.name c] = fp)) as [<-|Hne].
      * rewrite filter_cons_True
          by (unfold folded_for; rewrite bool_decide_eq_false_2 by done;
              by rewrite bool_decide_eq_true_2).
        rewrite lookup_insert_eq.
        destruct (filter _ cols) as [|c' l] eqn:E; [done|].
        rewrite last_cons_cons.
        destruct (last (c' :: l)) eqn:El; [done|]. by apply last_None in El.
      * rewrite filter_cons_False
          by (unfold folded_for; rewrite (bool_decide_eq_false_2 (_ = fp)) by done;
              by rewrite andb_false_r).
        by rewrite lookup_insert_ne.
Qed.

(** X12: on an accumulator in which every entry has one slot per generator,
    add_input of the feature wrapper never raises and keeps that shape. When
    the batch is not skipped by the sample rate, the slots of a feature path
    are those of the last column of the batch with that name, folded by every
    generator into a fresh accumulator; the other entries are untouched, and
    the weight feature gets no entry. *)
Theorem X12_add_input_overwrites_the_slots (self : t Acc) (random : Q)
    (wrapper_accumulator : gmap FeaturePath (list Acc)) (input_table : Table)
    (Hshape : well_formed self wrapper_accumulator) :
  exists wrapper_accumulator',
    add_input self random wrapper_accumulator input_table
    = Ok wrapper_accumulator'
    /\ well_formed self wrapper_accumulator'
    /\ forall feature_path,
         wrapper_accumulator' !! feature_path
         = if match _sample_rate self with
              | Some sample_rate => Qle_bool random sample_rate
              | None => false
              end
           then wrapper_accumulator !! feature_path
           else match last (filter (fun c => folded_for self feature_path c
                                             = true) (columns input_table)) with
                | Some c => Some (folded_slots self c)
                | None => wrapper_accumulator !! feature_path
                end.
Proof.
  unfold add_input.
  destruct (add_input_columns_well_formed self (columns input_table)
              wrapper_accumulator Hshape) as (wa' & Hrun & Hwf' & Hlook).
  destruct (_sample_rate self) as [sample_rate|].
  - destruct (Qle_bool random sample_rate).
    + exists wrapper_accumulator. done.
    + exists wa'. done.
  - exists wa'. done.
Qed.

Lemma merge_generators_spec (feature_name : FeaturePath)
    (theirs : list Acc)
    (generators : list (CombinerFeatureStatsGenerator.t Acc)) :
  forall (index : nat) (result0 : gmap FeaturePath (list Acc))
         (mine : list Acc),
    result0 !! feature_name = Some mine ->
    (index + length generators <= length mine)%nat ->
    (index + length generators <= length theirs)%nat ->
    merge_generators feature_name theirs index generators result0
    = Ok (<[feature_name :=
             list_inserts index
               (zip_with (fun generator slots =>
                            CombinerFeatureStatsGenerator.merge_accumulators
                              generator [slots.1; slots.2])
                  generators (zip (drop index mine) (drop index theirs)))
               mine]> result0).
Proof.
  induction generators as [|generator rest IH];
    intros index result0 mine Hmine Hlen Hlen'.
  - simpl. by rewrite insert_id.
  - simpl in Hlen, Hlen'. cbn [merge_generators]. rewrite Hmine.
    cbn [from_option mbind result_bind].
    destruct (lookup_lt_is_Some_2 mine index) as [m Hm]; [lia|].
    destruct (lookup_lt_is_Some_2 theirs index) as [t Ht]; [lia|].
    rewrite Hm, Ht. cbn [from_option mbind result_bind].
    unfold set_slot. rewrite Hmine. rewrite bool_decide_eq_true_2 by lia.
    cbn [mbind result_bind].
    erewrite (IH (S index));
      [|apply lookup_insert_eq|rewrite length_insert; lia|lia].
    rewrite insert_insert_eq. f_equal. f_equal.
    rewrite (drop_S mine m index Hm), (drop_S theirs t index Ht).
    cbn [zip_with fst snd list_inserts].
    rewrite drop_insert_lt by lia.
    by rewrite list_insert_inserts_lt by lia.
Qed.

Lemma merge_entry_spec (self : t Acc)
    (result0 : gmap FeaturePath (list Acc)) (feature_name : FeaturePath)
    (theirs : list Acc) :
  well_formed self result0 ->
  length theirs = length (_feature_stats_generators self) ->
  merge_generators feature_name theirs 0 (_feature_stats_generators self)
    (_perhaps_initialize_for_feature_path self result0 feature_name)
  = Ok (<[feature_name :=
           merged_slots self
             (default (fresh_slots self) (result0 !! feature_name)) theirs]>
          result0).
Proof.
  intros Hwf Hlen. unfold _perhaps_initialize_for_feature_path.
  fold (fresh_slots self).
  assert (Hall : forall mine,
            length mine = length (_feature_stats_generators self) ->
            list_inserts 0
              (zip_with (fun generator slots =>
                           CombinerFeatureStatsGenerator.merge_accumulators
                             generator [slots.1; slots.2])
                 (_feature_stats_generators self)
                 (zip (drop 0 mine) (drop 0 theirs))) mine
            = merged_slots self mine theirs).
  { intros mine Hmine. apply list_inserts_all.
    unfold merged_slots. rewrite !length_zip_with. simpl. lia. }
  destruct (result0 !! feature_name) as [mine|] eqn:E.
  - pose proof (Hwf _ _ E) as Hmine. simpl in Hmine.
    erewrite merge_generators_spec; [|exact E|simpl; lia|simpl; lia].
    by rewrite Hall.
  - erewrite merge_generators_spec;
      [|apply lookup_insert_eq|rewrite length_fresh_slots; simpl; lia
       |simpl; lia].
    rewrite insert_insert_eq. rewrite Hall by apply length_fresh_slots. done.
Qed.

Lemma length_merged_slots (self : t Acc) (mine theirs : list Acc) :
  length mine = length (_feature_stats_generators self) ->
  length theirs = length (_feature_stats_generators self) ->
  length (merged_slots self mine theirs)
  = length (_feature_stats_generators self).
Proof.
  intros H1 H2. unfold merged_slots. rewrite !length_zip_with. lia.
Qed.

Lemma merge_entries_spec (self : t Acc)
    (entries : list (FeaturePath * list Acc)) :
  NoDup (entries.*1) ->
  Forall (fun kv => length kv.2 = length (_feature_stats_generators self))
    entries ->
  forall result0,
    well_formed self result0 ->
    exists result',
      foldl (fun result0 (kv : FeaturePath * list Acc) =>
               r ← result0;
               merge_generators kv.1 kv.2 0 (_feature_stats_generators self)
                 (_perhaps_initialize_for_feature_path self r kv.1))
        (Ok result0) entries = Ok result'
      /\ well_formed self result'
      /\ forall fp,
           result' !! fp
           = merged_entry self fp (result0 !! fp) (list_to_map entries).
Proof.
  intros Hnd Hall. induction Hall as [|[k theirs] entries Hk Hall IH];
    intros result0 Hwf.
  - exists result0. done.
  - cbn [fst snd] in Hk. rewrite fmap_cons in Hnd.
    apply NoDup_cons in Hnd as [Hnotin Hnd]. cbn [fst] in Hnotin.
    cbn [foldl]. cbn [mbind result_bind fst snd].
    rewrite (merge_entry_spec self result0 k theirs Hwf Hk).
    set (merged := merged_slots self (default (fresh_slots self) (result0 !! k))
                     theirs).
    assert (Hmerged : length merged = length (_feature_stats_generators self)).
    { apply length_merged_slots; [|done].
      destruct (result0 !! k) as [mine|] eqn:E; simpl;
        [by apply Hwf in E|apply length_fresh_slots]. }
    destruct (IH Hnd (<[k := merged]> result0)) as (result' & Hrun & Hwf' & Hlook).
    { by apply map_Forall_insert_2. }
    exists result'. split_and!; try done. intros fp. rewrite Hlook.
    unfold merged_entry. rewrite list_to_map_cons.
    destruct (decide (k = fp)) as [<-|Hne].
    + rewrite !lookup_insert_eq.
      assert (Hnone : (list_to_map entries : gmap FeaturePath (list Acc)) !! k
                      = None) by (by apply not_elem_of_list_to_map_1).
      by rewrite Hnone.
    + by rewrite !lookup_insert_ne.
Qed.

Lemma merge_accumulators_spec (self : t Acc)
    (wrapper_accumulators : list (gmap FeaturePath (list Acc))) :
  Forall (well_formed self) wrapper_accumulators ->
  forall result0,
    well_formed self result0 ->
    exists result',
      foldl (fun result0 (wrapper_accumulator : gmap FeaturePath (list Acc)) =>
               foldl (fun result0 (kv : FeaturePath * list Acc) =>
                        r ← result0;
                        merge_generators kv.1 kv.2 0
                          (_feature_stats_generators self)
                          (_perhaps_initialize_for_feature_path self r kv.1))
                 result0 (map_to_list wrapper_accumulator))
        (Ok result0) wrapper_accumulators = Ok result'
      /\ well_formed self result'
      /\ forall fp,
           result' !! fp
           = foldl (merged_entry self fp) (result0 !! fp) wrapper_accumulators.
Proof.
  induction 1 as [|wa was Hwa Hwas IH]; intros result0 Hwf.
  - exists result0. done.
  - cbn [foldl].
    destruct (merge_entries_spec self (map_to_list wa)) with (result0 := result0)
      as (r1 & Hrun1 & Hwf1 & Hlook1); [apply NoDup_fst_map_to_list| |done|].
    { apply Forall_forall. intros [k v] Hin. apply elem_of_map_to_list in Hin.
      by apply Hwa in Hin. }
    rewrite Hrun1. destruct (IH r1 Hwf1) as (r2 & Hrun2 & Hwf2 & Hlook2).
    exists r2. split_and!; try done. intros fp.
    rewrite Hlook2, Hlook1. by rewrite list_to_map_to_list.
Qed.

(** X13: merge_accumulators of the feature wrapper never raises on
    accumulators in which every entry has one slot per generator, and its
    result has that shape. The entry of a feature path is made of the
    accumulators that have the path, in their order: the first one is merged
    by every generator into a fresh accumulator, each later one into the
    result so far; a path that no accumulator has gets no entry. *)
Theorem X13_merge_accumulators_merges_slot_by_slot (self : t Acc)
    (wrapper_accumulators : list (gmap FeaturePath (list Acc)))
    (Hshape : Forall (well_formed self) wrapper_accumulators) :
  exists result,
    merge_accumulators self wrapper_accumulators = Ok result
    /\ well_formed self result
    /\ forall feature_path,
         result !! feature_path
         = foldl (merged_entry self feature_path) None wrapper_accumulators.
Proof.
  unfold merge_accumulators.
  destruct (merge_accumulators_spec self wrapper_accumulators Hshape
              create_accumulator) as (result & Hrun & Hwf & Hlook).
  { apply map_Forall_empty. }
  exists result. done.
Qed.

Lemma extract_generators_spec (accumulator_for_feature : list Acc)
    (generators : list (CombinerFeatureStatsGenerator.t Acc)) :
  forall (index : nat) (feature_stats : FeatureNameStatistics),
    extract_generators MergeFrom accumulator_for_feature index generators
      feature_stats
    = if decide (index + length generators
                 <= Nat.max index (length accumulator_for_feature))%nat
      then Ok (foldl MergeFrom feature_stats
                 (zip_with (fun generator a =>
                              CombinerFeatureStatsGenerator.extract_output
                                generator a)
                    generators (drop index accumulator_for_feature)))
      else Raise IndexError.
Proof.
  induction generators as [|generator rest IH]; intros index feature_stats.
  - simpl. rewrite decide_True by lia. done.
  - cbn [extract_generators length].
    destruct (accumulator_for_feature !! index) as [a|] eqn:E.
    + cbn [from_option mbind result_bind]. rewrite IH.
      pose proof (lookup_lt_Some _ _ _ E) as Hlt.
      rewrite (drop_S _ _ _ E). cbn [zip_with foldl].
      destruct (decide (S index + length rest
                        <= Nat.max (S index) (length accumulator_for_feature))%nat);
        [rewrite decide_True by lia|rewrite decide_False by lia]; done.
    + cbn [from_option mbind result_bind].
      apply lookup_ge_None in E. rewrite decide_False by lia. done.
Qed.

(** X14: extract_output of the feature wrapper raises nothing but
    IndexError, and raises it exactly when an entry of the accumulator has
    fewer slots than there are generators. When it returns, the result has
    one feature statistics per entry: the proto of the feature path, into
    which the outputs of the generators on their slots are merged in the
    order of the generators. *)
Theorem X14_extract_output_merges_the_outputs (self : t Acc)
    (wrapper_accumulator : gmap FeaturePath (list Acc)) :
  match extract_output MergeFrom self wrapper_accumulator with
  | Ok result =>
    map_Forall (fun _ slots =>
                  (length (_feature_stats_generators self) <= length slots)%nat)
      wrapper_accumulator
    /\ features result
       = (fun kv : FeaturePath * list Acc =>
            foldl MergeFrom (mkFeatureNameStatistics kv.1 INT NoStats [])
              (zip_with (fun generator a =>
                           CombinerFeatureStatsGenerator.extract_output
                             generator a)
                 (_feature_stats_generators self) kv.2))
           <$> map_to_list wrapper_accumulator
    /\ num_examples result = 0
  | Raise e =>
    e = IndexError
    /\ exists feature_path slots,
         wrapper_accumulator !! feature_path = Some slots
         /\ (length slots < length (_feature_stats_generators self))%nat
  end.
Proof.
  unfold extract_output.
  set (f := fun kv : FeaturePath * list Acc => extract_generators _ _ _ _ _).
  set (g := fun kv : FeaturePath * list Acc =>
              foldl MergeFrom (mkFeatureNameStatistics kv.1 INT NoStats [])
                (zip_with (fun generator a =>
                             CombinerFeatureStatsGenerator.extract_output
                               generator a)
                   (_feature_stats_generators self) kv.2)).
  assert (Hf : forall kv,
            f kv = if decide (length (_feature_stats_generators self)
                              <= length kv.2)%nat
                   then Ok (g kv) else Raise IndexError).
  { intros kv. unfold f. rewrite extract_generators_spec.
    destruct (decide (length (_feature_stats_generators self) <= length kv.2)%nat);
      [rewrite decide_True by lia|rewrite decide_False by lia]; done. }
  destruct (decide (Forall (fun kv : FeaturePath * list Acc =>
                              (length (_feature_stats_generators self)
                               <= length kv.2)%nat)
                      (map_to_list wrapper_accumulator))) as [Hall|Hex].
  - rewrite (mapM_result_Ok f g).
    + cbn [mbind result_bind features num_examples]. split_and!; try done.
      intros k v Hkv. rewrite Forall_forall in Hall.
      apply (Hall (k, v)). by apply elem_of_map_to_list.
    + eapply Forall_impl; [exact Hall|]. intros kv Hkv. rewrite Hf.
      by rewrite decide_True.
  - apply not_Forall_Exists in Hex; [|intros x; apply _].
    rewrite (mapM_result_Raise f IndexError).
    + split; [done|]. apply Exists_exists in Hex as ([k v] & Hin & Hlen).
      apply elem_of_map_to_list in Hin. exists k, v. split; [done|].
      unfold compose in Hlen. simpl in Hlen. lia.
    + apply Forall_forall. intros kv _. rewrite Hf. destruct (decide _); eauto.
    + eapply Exists_impl; [exact Hex|]. intros kv Hkv. rewrite Hf.
      unfold compose in Hkv. by rewrite decide_False.
Qed.

End WrapperSlots.

Section WrapperSlotsExample.
Import statistics_pb2 arrow stats_impl.
Import CombinerFeatureStatsWrapperGenerator.

Lemma X12_add_input_overwrites_the_slots_witness :
  let self := mkSelf [examples.CountValues] None None in
  let wrapper_accumulator : gmap FeaturePath (list Z) := {[ ["f"] := [3] ]} in
  exists wrapper_accumulator',
    add_input self 0 wrapper_accumulator examples.batch2
    = Ok wrapper_accumulator'
    /\ well_formed self wrapper_accumulator'
    /\ forall feature_path,
         wrapper_accumulator' !! feature_path
         = if match _sample_rate self with
              | Some sample_rate => Qle_bool 0 sample_rate
              | None => false
              end
           then wrapper_accumulator !! feature_path
           else match last (filter (fun c => folded_for self feature_path c
                                             = true)
                              (columns examples.batch2)) with
                | Some c => Some (folded_slots self c)
                | None => wrapper_accumulator !! feature_path
                end.
Proof.
  intros self wrapper_accumulator.
  apply (X12_add_input_overwrites_the_slots self 0 wrapper_accumulator
           examples.batch2).
  apply map_Forall_singleton. reflexivity.
Defined.

Lemma X13_merge_accumulators_merges_slot_by_slot_witness :
  let self := mkSelf [examples.CountValues] None None in
  let wrapper_accumulators : list (gmap FeaturePath (list Z)) :=
    [{[ ["f"] := [3] ]}; {[ ["f"] := [1]; ["g"] := [2] ]}] in
  exists result,
    merge_accumulators self wrapper_accumulators = Ok result
    /\ well_formed self result
    /\ forall feature_path,
         result !! feature_path
         = foldl (merged_entry self feature_path) None wrapper_accumulators.
Proof.
  intros self wrapper_accumulators.
  apply (X13_merge_accumulators_merges_slot_by_slot self wrapper_accumulators).
  repeat constructor.
  - apply map_Forall_singleton. reflexivity.
  - apply map_Forall_insert_2; [reflexivity|].
    apply map_Forall_singleton. reflexivity.
Defined.

End WrapperSlotsExample.

(** ** The schema utilities *)
Section SchemaUtilities.
Import schema_pb2 schema_util.

Lemma Feature_induction (P : Feature -> Prop) :
  (forall n t d,
     match d with
     | struct_domain fs => Forall P fs
     | _ => True
     end ->
     P (mkFeature n t d)) ->
  forall f, P f.
Proof.
  intros H. fix IH 1. intros [n t d]. apply H.
  destruct d as [| | | | | |fs|]; try exact I.
  induction fs as [|g fs IHfs]; constructor; [apply IH|exact IHfs].
Qed.

Lemma elem_of_concat {A} (x : A) (ls : list (list A)) :
  x ∈ concat ls <-> exists l, x ∈ l /\ l ∈ ls.
Proof.
  induction ls as [|l ls IH]; cbn [concat].
  - split; [by intros ?%elem_of_nil|]. by intros (l & _ & ?%elem_of_nil).
  - rewrite elem_of_app, IH. split.
    + intros [H|(l' & H & Hl')]; [exists l; split; [done|left]|].
      exists l'. split; [done|by right].
    + intros (l' & H & [->|Hl']%elem_of_cons); [by left|right; eauto].
Qed.

Lemma get_feature_find (schema : Schema) (steps : FeaturePath) :
  get_feature schema steps = find_feature (feature schema) steps.
Proof. done. Qed.

Lemma find_feature_one (container : list Feature) (step : string) :
  find_feature container [step]
  = from_option Ok (Raise ValueError) (_look_up_feature step container).
Proof.
  unfold find_feature, get_feature. simpl.
  by destruct (_look_up_feature step container).
Qed.

Lemma find_feature_cons (container : list Feature) (step step' : string)
    (rest : list string) :
  find_feature container (step :: step' :: rest)
  = match _look_up_feature step container with
    | None => Raise ValueError
    | Some f =>
      if bool_decide (type f <> STRUCT) then Raise ValueError
      else find_feature (struct_domain_feature f) (step' :: rest)
    end.
Proof.
  unfold find_feature, get_feature. cbn [feature].
  rewrite last_cons_cons.
  change (removelast (step :: step' :: rest))
    with (step :: removelast (step' :: rest)).
  destruct (last (step' :: rest)) as [last_step|] eqn:E.
  - cbn [descend]. destruct (_look_up_feature step container) as [f|]; [|done].
    by destruct (bool_decide (type f <> STRUCT)).
  - by apply last_None in E.
Qed.

Lemma look_up_Some (step : string) (container : list Feature) (f : Feature) :
  _look_up_feature step container = Some f -> f ∈ container /\ name f = step.
Proof.
  unfold _look_up_feature. intros H. apply find_some in H as [Hin Hn].
  split; [by apply list_elem_of_In|]. by apply bool_decide_eq_true in Hn.
Qed.

Lemma look_up_unique (container : list Feature) (f : Feature) :
  NoDup (name <$> container) -> f ∈ container ->
  _look_up_feature (name f) container = Some f.
Proof.
  unfold _look_up_feature. induction container as [|g container IH];
    intros Hnd Hin; [by apply elem_of_nil in Hin|].
  rewrite fmap_cons in Hnd. apply NoDup_cons in Hnd as [Hnotin Hnd].
  cbn [find]. destruct (decide (name g = name f)) as [Heq|Hne].
  - rewrite bool_decide_eq_true_2 by done.
    apply elem_of_cons in Hin as [->|Hin]; [done|].
    destruct Hnotin. rewrite Heq. apply list_elem_of_fmap. eauto.
  - rewrite bool_decide_eq_false_2 by done.
    apply elem_of_cons in Hin as [->|Hin]; [done|]. by apply IH.
Qed.

(** The leaves below a feature: itself, or the leaves of its container. *)
Lemma recursion_helper_feature_eq (parent_path : FeaturePath) (f : Feature) :
  _recursion_helper_feature parent_path f
  = if bool_decide (type f <> STRUCT) then [(parent_path ++ [name f], f)]
    else _recursion_helper (parent_path ++ [name f]) (struct_domain_feature f).
Proof.
  destruct f as [n t d]. cbn [_recursion_helper_feature type name].
  destruct (bool_decide (t <> STRUCT)); [done|].
  unfold struct_domain_feature. cbn [domain_info].
  destruct d as [| | | | | |fs|]; try done.
  unfold _recursion_helper. induction fs as [|g fs IH]; [done|].
  rewrite fmap_cons. cbn [concat]. by rewrite IH.
Qed.

Lemma leaves_reach (f : Feature) :
  forall parent_path path leaf,
    (path, leaf) ∈ _recursion_helper_feature parent_path f ->
    exists steps, path = parent_path ++ name f :: steps
                  /\ reach [f] (name f :: steps) leaf.
Proof.
  induction f as [n t d IH] using Feature_induction.
  intros parent_path path leaf. rewrite recursion_helper_feature_eq.
  cbn [type name]. destruct (decide (t = STRUCT)) as [->|Ht].
  - rewrite bool_decide_eq_false_2 by (intros H; by apply H).
    unfold struct_domain_feature. cbn [domain_info].
    destruct d as [| | | | | |fs|];
      try (by intros ?%elem_of_nil).
    cbn in IH. unfold _recursion_helper.
    intros Hin. apply elem_of_concat in Hin as (l & Hin & Hl).
    apply list_elem_of_fmap in Hl as (g & -> & Hg).
    rewrite Forall_forall in IH.
    destruct (IH g Hg _ _ _ Hin) as (steps & -> & Hreach).
    exists (name g :: steps). split; [by rewrite <- app_assoc|].
    apply (reach_struct [mkFeature n STRUCT (struct_domain fs)]
             (mkFeature n STRUCT (struct_domain fs))); [left|done|].
    cbn. inversion Hreach as [c f' Hf' Ht' Heq|c g' steps' f' Hg' Ht' Hr Heq];
      subst.
    + apply list_elem_of_singleton in Hf' as ->. by constructor.
    + apply list_elem_of_singleton in Hg' as ->. by econstructor.
  - rewrite bool_decide_eq_true_2 by done.
    intros [= -> ->]%list_elem_of_singleton. exists []. split; [done|].
    apply (reach_leaf [mkFeature n t d] (mkFeature n t d)); [left|done].
Qed.

Lemma reach_leaves (container : list Feature) (steps : list string)
    (leaf : Feature) :
  reach container steps leaf ->
  forall parent_path,
    (parent_path ++ steps, leaf) ∈ _recursion_helper parent_path container.
Proof.
  induction 1 as [container f Hin Ht|container g steps f Hin Ht Hreach IH];
    intros parent_path; unfold _recursion_helper; apply elem_of_concat.
  - exists (_recursion_helper_feature parent_path f). split.
    + rewrite recursion_helper_feature_eq, bool_decide_eq_true_2 by done. left.
    + apply list_elem_of_fmap. eauto.
  - exists (_recursion_helper_feature parent_path g). split.
    + rewrite recursion_helper_feature_eq.
      rewrite bool_decide_eq_false_2 by (intros H; by apply H).
      specialize (IH (parent_path ++ [name g])).
      by rewrite <- app_assoc in IH.
    + apply list_elem_of_fmap. eauto.
Qed.

Lemma leaves_iff_reach (container : list Feature) (path : FeaturePath)
    (leaf : Feature) :
  (path, leaf) ∈ _recursion_helper [] container <-> reach container path leaf.
Proof.
  split.
  - unfold _recursion_helper. intros Hin.
    apply elem_of_concat in Hin as (l & Hin & Hl).
    apply list_elem_of_fmap in Hl as (g & -> & Hg).
    destruct (leaves_reach g _ _ _ Hin) as (steps & -> & Hreach). cbn [app].
    inversion Hreach as [c f' Hf' Ht' Heq|c g' steps' f' Hg' Ht' Hr Heq]; subst.
    + apply list_elem_of_singleton in Hf' as ->. by constructor.
    + apply list_elem_of_singleton in Hg' as ->. by econstructor.
  - intros H. apply (reach_leaves _ _ _ H []).
Qed.

Lemma find_feature_reach (steps : list string) :
  forall container f,
    find_feature container steps = Ok f -> type f <> STRUCT ->
    reach container steps f.
Proof.
  induction steps as [|step rest IH]; intros container f Hfind Ht; [done|].
  destruct rest as [|step' rest].
  - rewrite find_feature_one in Hfind.
    destruct (_look_up_feature step container) as [g|] eqn:E; [|done].
    injection Hfind as ->. apply look_up_Some in E as [Hin <-].
    by constructor.
  - rewrite find_feature_cons in Hfind.
    destruct (_look_up_feature step container) as [g|] eqn:E; [|done].
    destruct (decide (type g = STRUCT)) as [Hg|Hg].
    + rewrite bool_decide_eq_false_2 in Hfind by (intros H; by apply H).
      apply look_up_Some in E as [Hin <-]. econstructor; eauto.
    + by rewrite bool_decide_eq_true_2 in Hfind.
Qed.

Lemma reach_find_feature (container : list Feature) (steps : list string)
    (f : Feature) :
  reach container steps f -> unique_names container ->
  find_feature container steps = Ok f.
Proof.
  induction 1 as [container f Hin Ht|container g steps f Hin Ht Hreach IH];
    intros Hunique; inversion Hunique as [c Hnd Hall]; subst.
  - rewrite find_feature_one, look_up_unique; done.
  - rewrite Forall_forall in Hall. specialize (IH (Hall g Hin Ht)).
    destruct steps as [|step' rest]; [by inversion Hreach|].
    rewrite find_feature_cons, look_up_unique by done.
    by rewrite bool_decide_eq_false_2 by (intros H; by apply H).
Qed.

(** X15: a feature that is not a STRUCT and that get_feature finds for a
    path is listed with that path by _get_all_leaf_features; when the names
    are pairwise distinct in every container of the schema, the leaf features
    are exactly the features that are not a STRUCT and that get_feature
    finds, each with its path. *)
Theorem X15_leaf_features_are_what_get_feature_finds (schema : Schema)
    (feature_path : FeaturePath) (f : Feature) (Hleaf : type f <> STRUCT) :
  (get_feature schema feature_path = Ok f ->
   (feature_path, f) ∈ _get_all_leaf_features schema)
  /\ (unique_names (feature schema) ->
      ((feature_path, f) ∈ _get_all_leaf_features schema
       <-> get_feature schema feature_path = Ok f)).
Proof.
  unfold _get_all_leaf_features. rewrite get_feature_find. split.
  - intros Hfind. apply leaves_iff_reach. by apply find_feature_reach.
  - intros Hunique. rewrite leaves_iff_reach. split.
    + intros Hreach. by apply reach_find_feature.
    + intros Hfind. by apply find_feature_reach.
Qed.

Lemma X15_leaf_features_are_what_get_feature_finds_witness :
  let f := mkFeature "age" INT domain_info_not_set in
  (get_feature example_schema ["user"; "age"] = Ok f ->
   (["user"; "age"], f) ∈ _get_all_leaf_features example_schema)
  /\ (unique_names (feature example_schema) ->
      ((["user"; "age"], f) ∈ _get_all_leaf_features example_schema
       <-> get_feature example_schema ["user"; "age"] = Ok f)).
Proof.
  intros f.
  apply (X15_leaf_features_are_what_get_feature_finds example_schema
           ["user"; "age"] f).
  discriminate.
Defined.

Lemma look_up_update_eq (step : string) (update : Feature -> Feature)
    (container : list Feature) :
  (forall f, name (update f) = name f) ->
  _look_up_feature step (update_feature step update container)
  = update <$> _look_up_feature step container.
Proof.
  intros Hname. unfold _look_up_feature.
  induction container as [|g container IH]; [done|].
  cbn [update_feature find].
  destruct (bool_decide (name g = step)) eqn:E.
  - cbn [find]. rewrite Hname, E. done.
  - cbn [find]. by rewrite E.
Qed.

Lemma look_up_update_ne (step step' : string) (update : Feature -> Feature)
    (container : list Feature) :
  (forall f, name (update f) = name f) -> step' <> step ->
  _look_up_feature step' (update_feature step update container)
  = _look_up_feature step' container.
Proof.
  intros Hname Hne. unfold _look_up_feature.
  induction container as [|g container IH]; [done|].
  cbn [update_feature find].
  destruct (decide (name g = step)) as [Hg|Hg].
  - rewrite (bool_decide_eq_true_2 _ Hg). cbn [find]. rewrite Hname.
    by rewrite !bool_decide_eq_false_2 by congruence.
  - rewrite (bool_decide_eq_false_2 _ Hg). cbn [find]. by rewrite IH.
Qed.

(** What a path finds is decided by what its first step finds. *)
Lemma find_feature_first (container container' : list Feature)
    (step : string) (rest : list string) :
  _look_up_feature step container' = _look_up_feature step container ->
  find_feature container' (step :: rest) = find_feature container (step :: rest).
Proof.
  intros H. destruct rest as [|step' rest].
  - by rewrite !find_feature_one, H.
  - by rewrite !find_feature_cons, H.
Qed.

Lemma update_at_cons (step step' : string) (rest : list string)
    (update : Feature -> Feature) (container : list Feature) :
  update_at (step :: step' :: rest) update container
  = update_feature step (update_below (step' :: rest) update) container.
Proof. done. Qed.

Lemma update_below_name rest update f :
  name (update_below rest update f) = name f.
Proof. by destruct f as [n t []]. Qed.

Lemma update_below_type rest update f :
  type (update_below rest update f) = type f.
Proof. by destruct f as [n t []]. Qed.

Lemma update_below_features rest update f :
  rest <> [] ->
  struct_domain_feature (update_below rest update f)
  = update_at rest update (struct_domain_feature f).
Proof.
  intros Hrest. destruct f as [n t []]; try done;
    destruct rest as [|s [|s' r]]; done.
Qed.

Lemma find_feature_updated (steps : list string)
    (update : Feature -> Feature) :
  (forall f, name (update f) = name f) ->
  forall container f,
    find_feature container steps = Ok f ->
    find_feature (update_at steps update container) steps = Ok (update f).
Proof.
  intros Hname. induction steps as [|step rest IH]; intros container f Hfind;
    [done|].
  destruct rest as [|step' rest].
  - rewrite find_feature_one in Hfind |- *. cbn [update_at].
    rewrite look_up_update_eq by done.
    destruct (_look_up_feature step container); [|done].
    by injection Hfind as ->.
  - rewrite find_feature_cons in Hfind. rewrite update_at_cons, find_feature_cons.
    rewrite look_up_update_eq by apply update_below_name.
    destruct (_look_up_feature step container) as [g|]; [|done].
    cbn [fmap option_fmap option_map]. rewrite update_below_type.
    destruct (bool_decide (type g <> STRUCT)); [done|].
    rewrite update_below_features by done. by apply IH.
Qed.

Lemma find_feature_elsewhere (steps : list string)
    (update : Feature -> Feature) :
  (forall f, name (update f) = name f) ->
  (forall f, type (update f) = type f) ->
  forall container f steps',
    find_feature container steps = Ok f -> type f <> STRUCT ->
    ~ steps' `prefix_of` steps ->
    find_feature (update_at steps update container) steps'
    = find_feature container steps'.
Proof.
  intros Hname Htype.
  induction steps as [|step rest IH]; intros container f steps' Hfind Hf Hpre;
    [done|].
  destruct steps' as [|first steps']; [destruct Hpre; apply prefix_nil|].
  destruct rest as [|step' rest].
  - cbn [update_at]. rewrite find_feature_one in Hfind.
    destruct (decide (first = step)) as [->|Hne].
    + destruct steps' as [|second steps']; [by destruct Hpre|].
      rewrite !find_feature_cons, look_up_update_eq by done.
      destruct (_look_up_feature step container) as [g|]; [|done].
      injection Hfind as ->. cbn [fmap option_fmap option_map].
      rewrite Htype. by rewrite !bool_decide_eq_true_2.
    + apply find_feature_first. by apply look_up_update_ne.
  - rewrite update_at_cons. rewrite find_feature_cons in Hfind.
    destruct (decide (first = step)) as [->|Hne].
    + destruct steps' as [|second steps']; [destruct Hpre; by exists (step' :: rest)|].
      rewrite !find_feature_cons.
      rewrite look_up_update_eq by apply update_below_name.
      destruct (_look_up_feature step container) as [g|]; [|done].
      cbn [fmap option_fmap option_map]. rewrite update_below_type.
      destruct (bool_decide (type g <> STRUCT)); [done|].
      rewrite update_below_features by done.
      apply (IH _ f); [done|done|].
      intros Hp. apply Hpre. by apply prefix_cons.
    + apply find_feature_first. apply look_up_update_ne; [|done].
      apply update_below_name.
Qed.

Lemma leaves_updated (steps : list string) (update : Feature -> Feature) :
  (forall f, name (update f) = name f) ->
  (forall f, type (update f) = type f) ->
  forall container f parent_path,
    find_feature container steps = Ok f -> type f <> STRUCT ->
    (_recursion_helper parent_path (update_at steps update container)).*1
    = (_recursion_helper parent_path container).*1.
Proof.
  intros Hname Htype.
  induction steps as [|step rest IH]; intros container f parent_path Hfind Hf;
    [done|].
  destruct rest as [|step' rest].
  - cbn [update_at]. rewrite find_feature_one in Hfind.
    unfold _look_up_feature in Hfind. unfold _recursion_helper.
    induction container as [|g container IHc]; [done|].
    cbn [find update_feature] in Hfind |- *.
    destruct (bool_decide (name g = step)).
    + injection Hfind as ->. rewrite !fmap_cons. cbn [concat].
      rewrite !fmap_app. f_equal. rewrite !recursion_helper_feature_eq.
      rewrite Htype, Hname. by rewrite !bool_decide_eq_true_2.
    + rewrite !fmap_cons. cbn [concat]. rewrite !fmap_app. f_equal. by apply IHc.
  - rewrite update_at_cons. rewrite find_feature_cons in Hfind.
    unfold _look_up_feature in Hfind. unfold _recursion_helper.
    induction container as [|g container IHc]; [done|].
    cbn [find update_feature] in Hfind |- *.
    destruct (bool_decide (name g = step)).
    + rewrite !fmap_cons. cbn [concat]. rewrite !fmap_app. f_equal.
      rewrite !recursion_helper_feature_eq.
      rewrite update_below_type, update_below_name.
      destruct (bool_decide (type g <> STRUCT)); [done|].
      rewrite update_below_features by done. by apply (IH _ f).
    + rewrite !fmap_cons. cbn [concat]. rewrite !fmap_app. f_equal. by apply IHc.
Qed.

Lemma set_domain_Ok (schema schema' : Schema) (feature_path : FeaturePath)
    (domain0 : DomainArgument) (log : list LogRecord) :
  set_domain schema feature_path domain0 = Ok (schema', log) ->
  exists f domain_info',
    find_feature (feature schema) feature_path = Ok f
    /\ type f <> STRUCT
    /\ log = match domain_info f with
             | domain_info_not_set => []
             | _ => [mkLogRecord feature_path None]
             end
    /\ schema' = mkSchema
                   (update_at feature_path
                      (fun f => mkFeature (name f) (type f) domain_info')
                      (feature schema))
                   (global_string_domain schema)
    /\ match domain0 with
       | message (IntDomainOf d) => domain_info' = int_domain d
       | message (FloatDomainOf d) => domain_info' = float_domain d
       | message (StringDomainOf d) => domain_info' = string_domain d
       | message (BoolDomainOf d) => domain_info' = bool_domain d
       | global_domain_name n =>
         domain_info' = domain n
         /\ exists g, List.find (fun d => bool_decide (domain_name d = n))
                        (global_string_domain schema) = Some g
       end.
Proof.
  unfold set_domain. rewrite get_feature_find.
  destruct (find_feature (feature schema) feature_path) as [f|]; [|done].
  cbn [mbind result_bind].
  destruct (decide (type f = STRUCT)) as [Hf|Hf].
  - by rewrite bool_decide_eq_true_2.
  - rewrite bool_decide_eq_false_2 by done. intros H. exists f.
    destruct domain0 as [[d|d|d|d]|n]; cbn [mbind result_bind] in H.
    1-4: injection H as <- <-; eexists; split_and!; done.
    destruct (existsb _ _) eqn:E; cbn [negb mbind result_bind] in H; [|done].
    injection H as <- <-. eexists. split_and!; try done.
    apply existsb_exists in E as (g & Hg & Hn).
    destruct (List.find (fun d => bool_decide (domain_name d = n))
                (global_string_domain schema)) as [g'|] eqn:Efind; [eauto|].
    eapply find_none in Efind; [|exact Hg]. simpl in Efind. congruence.
Qed.

(** X16: after set_domain returns, get_feature finds at the path the same
    feature with the new domain and get_domain returns the domain that was
    set: the message itself, or the global string domain of the given name.
    The feature is not a STRUCT, and a warning is logged exactly when it had
    a domain before. *)
Theorem X16_get_domain_returns_the_domain_set (schema schema' : Schema)
    (feature_path : FeaturePath) (domain0 : DomainArgument)
    (log : list LogRecord)
    (Hset : set_domain schema feature_path domain0 = Ok (schema', log)) :
  exists f f',
    get_feature schema feature_path = Ok f
    /\ type f <> STRUCT
    /\ (log = [] <-> domain_info f = domain_info_not_set)
    /\ get_feature schema' feature_path = Ok f'
    /\ name f' = name f /\ type f' = type f
    /\ match domain0 with
       | message d => get_domain schema' feature_path = Ok d
       | global_domain_name n =>
         exists g, get_domain schema' feature_path = Ok (StringDomainOf g)
                   /\ domain_name g = n
                   /\ g ∈ global_string_domain schema
       end.
Proof.
  destruct (set_domain_Ok _ _ _ _ _ Hset)
    as (f & info & Hfind & Hf & -> & -> & Hinfo).
  exists f, (mkFeature (name f) (type f) info).
  assert (Hfind' : find_feature
                     (update_at feature_path
                        (fun f => mkFeature (name f) (type f) info)
                        (feature schema)) feature_path
                   = Ok (mkFeature (name f) (type f) info)).
  { by apply (find_feature_updated feature_path
                (fun f => mkFeature (name f) (type f) info)). }
  split_and!; try done.
  - by destruct (domain_info f).
  - unfold get_domain. rewrite get_feature_find. cbn [feature].
    rewrite Hfind'. cbn [mbind result_bind domain_info global_string_domain].
    destruct domain0 as [[d|d|d|d]|n]; try (by rewrite Hinfo).
    destruct Hinfo as (-> & g & Hg). exists g. rewrite Hg.
    apply find_some in Hg as [Hin Hn]. split_and!; [done| |].
    + by apply bool_decide_eq_true in Hn.
    + by apply list_elem_of_In.
Qed.

Lemma X16_get_domain_returns_the_domain_set_witness :
  exists f f',
    get_feature example_schema ["user"; "age"] = Ok f
    /\ type f <> STRUCT
    /\ (@nil LogRecord = [] <-> domain_info f = domain_info_not_set)
    /\ get_feature example_schema_colors ["user"; "age"] = Ok f'
    /\ name f' = name f /\ type f' = type f
    /\ exists g, get_domain example_schema_colors ["user"; "age"]
                 = Ok (StringDomainOf g)
                 /\ domain_name g = "colors"
                 /\ g ∈ global_string_domain example_schema.
Proof.
  apply (X16_get_domain_returns_the_domain_set example_schema
           example_schema_colors ["user"; "age"] (global_domain_name "colors")
           []).
  reflexivity.
Defined.

(** X17: set_domain touches nothing but the feature at the path: the global
    string domains are the same, get_feature and get_domain give the same as
    before on every path that is not a prefix of the path, and the leaf
    features have the same paths in the same order. *)
Theorem X17_set_domain_leaves_the_rest (schema schema' : Schema)
    (feature_path : FeaturePath) (domain0 : DomainArgument)
    (log : list LogRecord)
    (Hset : set_domain schema feature_path domain0 = Ok (schema', log)) :
  global_string_domain schema' = global_string_domain schema
  /\ (forall other_path,
        ~ other_path `prefix_of` feature_path ->
        get_feature schema' other_path = get_feature schema other_path
        /\ get_domain schema' other_path = get_domain schema other_path)
  /\ (_get_all_leaf_features schema').*1 = (_get_all_leaf_features schema).*1.
Proof.
  destruct (set_domain_Ok _ _ _ _ _ Hset)
    as (f & info & Hfind & Hf & _ & -> & _).
  split_and!; [done| |].
  - intros other_path Hother.
    assert (Hsame : get_feature
                      (mkSchema
                         (update_at feature_path
                            (fun f => mkFeature (name f) (type f) info)
                            (feature schema)) (global_string_domain schema))
                      other_path
                    = get_feature schema other_path).
    { rewrite !get_feature_find. cbn [feature].
      by apply (find_feature_elsewhere feature_path
                  (fun f => mkFeature (name f) (type f) info)) with (f := f). }
    split; [done|]. unfold get_domain. by rewrite Hsame.
  - unfold _get_all_leaf_features. cbn [feature].
    by apply (leaves_updated feature_path
                (fun f => mkFeature (name f) (type f) info)) with (f := f).
Qed.

Lemma X17_set_domain_leaves_the_rest_witness :
  global_string_domain example_schema_colors
  = global_string_domain example_schema
  /\ (forall other_path,
        ~ other_path `prefix_of` ["user"; "age"] ->
        get_feature example_schema_colors other_path
        = get_feature example_schema other_path
        /\ get_domain example_schema_colors other_path
           = get_domain example_schema other_path)
  /\ (_get_all_leaf_features example_schema_colors).*1
     = (_get_all_leaf_features example_schema).*1.
Proof.
  apply (X17_set_domain_leaves_the_rest example_schema example_schema_colors
           ["user"; "age"] (global_domain_name "colors") []).
  reflexivity.
Defined.

Lemma is_categorical_not_STRUCT (f : Feature) :
  is_categorical_feature f = true -> type f <> STRUCT.
Proof. unfold is_categorical_feature. by destruct (type f). Qed.

Lemma unique_names_example : unique_names (feature example_schema).
Proof.
  constructor.
  - apply (bool_decide_unpack (NoDup _)). vm_compute. exact I.
  - apply Forall_cons_2; [intros H; discriminate H|].
    apply Forall_cons_2; [|apply Forall_nil_2].
    intros _. constructor.
    + apply (bool_decide_unpack (NoDup _)). vm_compute. exact I.
    + apply Forall_cons_2; [intros H; discriminate H|].
      apply Forall_cons_2; [intros H; discriminate H|apply Forall_nil_2].
Defined.

Lemma categorical_leaf (schema : Schema) (feature_path : FeaturePath)
    (f : Feature) :
  unique_names (feature schema) ->
  is_categorical_feature f = true ->
  ((feature_path, f) ∈ _get_all_leaf_features schema
   <-> get_feature schema feature_path = Ok f).
Proof.
  intros Hunique Hf. apply is_categorical_not_STRUCT in Hf.
  unfold _get_all_leaf_features. rewrite get_feature_find, leaves_iff_reach.
  split; [intros H; by apply reach_find_feature|].
  intros H. by apply find_feature_reach.
Qed.

Lemma categorical_numeric_features_spec (schema : Schema) (feature_path : FeaturePath) :
  unique_names (feature schema) ->
  feature_path ∈ get_categorical_numeric_features schema
  <-> exists f, get_feature schema feature_path = Ok f
                /\ type f = INT /\ is_categorical_feature f = true.
Proof.
  intros Hunique.
  unfold get_categorical_numeric_features. rewrite list_elem_of_fmap. split.
  - intros ([p f] & -> & [[Ht Hcat] Hin]%list_elem_of_filter).
    cbn [fst snd] in *. exists f. split_and!; [by apply categorical_leaf|done|done].
  - intros (f & Hfind & Ht & Hcat). exists (feature_path, f). split; [done|].
    apply list_elem_of_filter. split; [done|]. by apply categorical_leaf.
Qed.

(** X18: when the names are pairwise distinct in every container of the
    schema, get_categorical_features gives exactly the paths at which
    get_feature finds a feature that is_categorical_feature accepts, and
    get_categorical_numeric_features exactly those of them whose feature has
    the type INT; so every categorical numeric feature is a categorical
    feature. *)
Theorem X18_categorical_features_are_those_get_feature_finds (schema : Schema)
    (feature_path : FeaturePath)
    (Hunique : unique_names (feature schema)) :
  (feature_path ∈ get_categorical_features schema
   <-> exists f, get_feature schema feature_path = Ok f
                 /\ is_categorical_feature f = true)
  /\ (feature_path ∈ get_categorical_numeric_features schema
      <-> exists f, get_feature schema feature_path = Ok f
                    /\ type f = INT /\ is_categorical_feature f = true)
  /\ (feature_path ∈ get_categorical_numeric_features schema ->
      feature_path ∈ get_categorical_features schema).
Proof.
  assert (Hleaf : forall f,
            is_categorical_feature f = true ->
            ((feature_path, f) ∈ _get_all_leaf_features schema
             <-> get_feature schema feature_path = Ok f))
    by (intros f; by apply categorical_leaf).
  assert (H1 : feature_path ∈ get_categorical_features schema
               <-> exists f, get_feature schema feature_path = Ok f
                             /\ is_categorical_feature f = true).
  { unfold get_categorical_features. rewrite elem_of_list_to_set.
    rewrite list_elem_of_fmap. split.
    - intros ([p f] & -> & [Hcat Hin]%list_elem_of_filter). cbn [fst snd] in *.
      exists f. split; [by apply Hleaf|done].
    - intros (f & Hfind & Hcat). exists (feature_path, f). split; [done|].
      apply list_elem_of_filter. split; [done|]. by apply Hleaf. }
  pose proof (categorical_numeric_features_spec schema feature_path Hunique)
    as H2.
  split_and!; [done|done|].
  rewrite H1, H2. intros (f & ? & ? & ?). eauto.
Qed.

Lemma X18_categorical_features_are_those_get_feature_finds_witness :
  (["id"] ∈ get_categorical_features example_schema
   <-> exists f, get_feature example_schema ["id"] = Ok f
                 /\ is_categorical_feature f = true)
  /\ (["id"] ∈ get_categorical_numeric_features example_schema
      <-> exists f, get_feature example_schema ["id"] = Ok f
                    /\ type f = INT /\ is_categorical_feature f = true)
  /\ (["id"] ∈ get_categorical_numeric_features example_schema ->
      ["id"] ∈ get_categorical_features example_schema).
Proof.
  apply (X18_categorical_features_are_those_get_feature_finds example_schema
           ["id"]).
  exact unique_names_example.
Defined.

End SchemaUtilities.

(** ** The features the combiner counts *)
Section CountedFeatures.
Import arrow.
Import top_k_uniques_combiner_stats_generator.

Lemma values_of_is_Some (self : TopKUniquesCombinerStatsGenerator)
    (columns : list Column) (fp : FeaturePath) :
  forall found,
    is_Some (foldl (values_step self fp) found columns)
    <-> is_Some found
        \/ exists c, c ∈ columns /\ eligible self c = true /\ [name c] = fp.
Proof.
  induction columns as [|c cols IH]; intros found.
  - simpl. split; [by left|]. intros [H|(c & Hc & _)]; [done|].
    by apply elem_of_nil in Hc.
  - cbn [foldl]. rewrite IH. unfold values_step at 1.
    destruct (eligible self c) eqn:Ec; cbn [andb].
    + destruct (decide ([name c] = fp)) as [Hfp|Hfp].
      * rewrite bool_decide_eq_true_2 by done. split; intros _.
        -- right. exists c. split_and!; [left|done|done].
        -- left. eauto.
      * rewrite bool_decide_eq_false_2 by done. split.
        -- intros [H|(c' & Hc' & He & Hn)]; [by left|].
           right. exists c'. split_and!; [by right|done|done].
        -- intros [H|(c' & Hc' & He & Hn)]; [by left|].
           apply elem_of_cons in Hc' as [->|Hc']; [done|]. right. eauto.
    + split.
      * intros [H|(c' & Hc' & He & Hn)]; [by left|].
        right. exists c'. split_and!; [by right|done|done].
      * intros [H|(c' & Hc' & He & Hn)]; [by left|].
        apply elem_of_cons in Hc' as [->|Hc']; [congruence|]. right. eauto.
Qed.

(** X19: a combiner constructed from a schema in which the names are
    pairwise distinct in every container, without a weight feature, counts
    the values of the string columns and of the columns for which the schema
    has a categorical feature of type INT, and of no other column: add_input
    on a fresh accumulator returns an accumulator with an entry for exactly
    the paths of these columns. *)
Theorem X19_schema_decides_the_counted_columns (schema : schema_pb2.Schema)
    (num_top_values frequency_threshold weighted_frequency_threshold
       num_rank_histogram_buckets : Z) (table : Table)
    (Hunique : unique_names (schema_pb2.feature schema)) :
  let self := TopKUniquesCombinerStatsGenerator.__init__ (Some schema) None
                num_top_values frequency_threshold weighted_frequency_threshold
                num_rank_histogram_buckets in
  exists accumulator,
    add_input self create_accumulator table = Ok accumulator
    /\ forall feature_path,
         is_Some (accumulator !! feature_path)
         <-> exists c,
               c ∈ columns table /\ feature_path = [name c]
               /\ (feature_type c = statistics_pb2.STRING
                   \/ exists f,
                        schema_util.get_feature schema feature_path = Ok f
                        /\ schema_pb2.type f = schema_pb2.INT
                        /\ schema_util.is_categorical_feature f = true).
Proof.
  intros self.
  destruct (add_input_unweighted self table eq_refl) as (accumulator & Hrun & Hacc).
  exists accumulator. split; [exact Hrun|]. intros fp. rewrite Hacc.
  rewrite fmap_is_Some. unfold values_of. rewrite values_of_is_Some.
  assert (Hcat : forall p,
            p ∈ _categorical_features self
            <-> exists f, schema_util.get_feature schema p = Ok f
                          /\ schema_pb2.type f = schema_pb2.INT
                          /\ schema_util.is_categorical_feature f = true).
  { intros p. unfold self, TopKUniquesCombinerStatsGenerator.__init__.
    cbn [_categorical_features]. rewrite elem_of_list_to_set.
    pose proof (categorical_numeric_features_spec schema p Hunique) as H. exact H. }
  split.
  - intros [[? H]|(c & Hc & He & <-)]; [done|]. exists c.
    split_and!; [done|done|]. unfold eligible in He.
    apply andb_true_iff in He as [_ He]. apply orb_true_iff in He as [He|He].
    + right. apply Hcat. by apply bool_decide_eq_true in He.
    + left. by apply bool_decide_eq_true in He.
  - intros (c & Hc & -> & Hor). right. exists c. split_and!; [done| |done].
    unfold eligible. apply andb_true_iff. split; [done|].
    apply orb_true_iff. destruct Hor as [Hs|Hf].
    + right. by apply bool_decide_eq_true.
    + left. apply bool_decide_eq_true. by apply Hcat.
Qed.

Lemma X19_schema_decides_the_counted_columns_witness :
  let self := TopKUniquesCombinerStatsGenerator.__init__ (Some example_schema)
                None 2 1 1 1000 in
  exists accumulator,
    add_input self create_accumulator id_batch = Ok accumulator
    /\ forall feature_path,
         is_Some (accumulator !! feature_path)
         <-> exists c,
               c ∈ columns id_batch /\ feature_path = [name c]
               /\ (feature_type c = statistics_pb2.STRING
                   \/ exists f,
                        schema_util.get_feature example_schema feature_path
                        = Ok f
                        /\ schema_pb2.type f = schema_pb2.INT
                        /\ schema_util.is_categorical_feature f = true).
Proof.
  exact (X19_schema_decides_the_counted_columns example_schema 2 1 1 1000
           id_batch unique_names_example).
Defined.

Lemma id_batch_counts :
  add_input
    (TopKUniquesCombinerStatsGenerator.__init__ (Some example_schema) None
       2 1 1 1000) create_accumulator id_batch
  = Ok {[ ["id"] := mk_ValueCounts {[IntValue 1 := 2]} ∅;
          ["color"] := mk_ValueCounts {[TextValue "red" := 1]} ∅ ]}.
Proof. vm_compute. reflexivity. Qed.

End CountedFeatures.

(** ** The output of the in-memory statistics *)
Section InMemoryOutput.
Import statistics_pb2 arrow stats_impl.
Import _CombinerStatsGeneratorsCombineFn stats_impl_in_memory.
Context {Acc : Type}.
Variable MergeFrom :
  FeatureNameStatistics -> FeatureNameStatistics -> FeatureNameStatistics.



Lemma Forall_perm {A} (P : A -> Prop) (l k : list A) :
  l ≡ₚ k -> Forall P l -> Forall P k.
Proof. intros Hp. rewrite !Forall_forall. intros H x Hx. apply H. by rewrite Hp. Qed.


End InMemoryOutput.

Section InMemoryExample.
Import statistics_pb2 arrow stats_impl.
Import _CombinerStatsGeneratorsCombineFn stats_impl_in_memory.


Lemma ten_examples_in_memory :
  extract_statistics_output protobuf.MergeFrom [(10, 0); (7, 0)]
    [examples.NumExamples; PresenceOfF]
  = Ok [mkDatasetFeatureStatistics 10
          [mkFeatureNameStatistics ["F"] STRING
             (string_stats
                (mkStringStatistics
                   (Some (mkCommonStatistics 7 3 WeightedCommonStatistics0))
                   0 [] [] None)) []]].
Proof. vm_compute. reflexivity. Qed.

End InMemoryExample.

(** ** The feature whitelist *)
Section FeatureWhitelist.
Import statistics_pb2 arrow stats_impl.
Import stats_impl_in_memory.
Context {Acc : Type}.

Lemma column_present (table : Table) (feature_name : string) :
  feature_name ∈ name <$> columns table ->
  exists c, List.find (fun c => bool_decide (name c = feature_name))
              (columns table) = Some c
            /\ column table feature_name = Ok c.
Proof.
  intros Hin. unfold column.
  destruct (List.find _ (columns table)) as [c|] eqn:E; [eauto|].
  apply list_elem_of_fmap in Hin as (c & -> & Hc).
  apply list_elem_of_In in Hc. eapply find_none in E; [|exact Hc].
  simpl in E. by rewrite bool_decide_eq_true_2 in E.
Qed.

Lemma column_absent (table : Table) (feature_name : string) :
  feature_name ∉ name <$> columns table ->
  column table feature_name = Raise KeyError.
Proof.
  intros Hnotin. unfold column.
  destruct (List.find _ (columns table)) as [c|] eqn:E; [|done].
  apply find_Some_elem in E as [Hc Hn]. apply bool_decide_eq_true in Hn.
  destruct Hnotin. apply list_elem_of_fmap. eauto.
Qed.

Lemma whitelisted_columns_present (table : Table)
    (feature_whitelist : list string) :
  Forall (fun feature_name => feature_name ∈ name <$> columns table)
    feature_whitelist ->
  mapM (column table) feature_whitelist
  = Ok (columns (_filter_features table feature_whitelist)).
Proof.
  unfold _filter_features, from_arrays. cbv zeta. cbn [columns].
  induction 1 as [|n l Hn Hl IH]; [done|].
  cbn [mapM omap list_omap]. rewrite bool_decide_eq_true_2 by done.
  destruct (column_present table n Hn) as (c & -> & ->).
  cbn [mbind result_bind]. rewrite IH. done.
Qed.

Lemma whitelisted_columns_absent (table : Table)
    (feature_whitelist : list string) :
  Exists (fun feature_name => feature_name ∉ name <$> columns table)
    feature_whitelist ->
  mapM (column table) feature_whitelist = Raise KeyError.
Proof.
  intros Hex. apply (mapM_result_Raise _ KeyError); [|].
  - apply Forall_forall. intros n _.
    destruct (decide (n ∈ name <$> columns table)) as [Hn|Hn].
    + destruct (column_present table n Hn) as (c & _ & ->). eauto.
    + right. by apply column_absent.
  - eapply Exists_impl; [exact Hex|]. intros n Hn. by apply column_absent.
Qed.

(** X21: _filter_features keeps, in the order of the whitelist, the first
    column of every whitelisted name the table has, and skips the names the
    table lacks. generate_partial_statistics_in_memory
    folds that same table into a fresh accumulator of every generator when
    the table has all the whitelisted features, and raises KeyError as soon
    as it lacks one; without a whitelist, or with an empty one, it folds the
    whole table. *)
Theorem X21_whitelist_in_memory_and_filter (table : Table)
    (feature_whitelist : list string)
    (stats_generators : list (CombinerStatsGenerator.t Acc)) :
  let fold_fresh := fun table =>
    (fun generator =>
       CombinerStatsGenerator.add_input generator
         (CombinerStatsGenerator.create_accumulator generator) table)
      <$> stats_generators in
  name <$> columns (_filter_features table feature_whitelist)
  = filter (fun feature_name => feature_name ∈ name <$> columns table)
      feature_whitelist
  /\ Forall (fun c => column table (name c) = Ok c)
       (columns (_filter_features table feature_whitelist))
  /\ generate_partial_statistics_in_memory table (Some feature_whitelist)
       stats_generators
     = (if decide (feature_whitelist = []) then Ok (fold_fresh table)
        else if decide (Forall (fun feature_name =>
                                  feature_name ∈ name <$> columns table)
                          feature_whitelist)
        then Ok (fold_fresh (_filter_features table feature_whitelist))
        else Raise KeyError)
  /\ generate_partial_statistics_in_memory table None stats_generators
     = Ok (fold_fresh table).
Proof.
  intros fold_fresh. split_and!.
  - unfold _filter_features, from_arrays. cbv zeta. cbn [columns].
    induction feature_whitelist as [|n l IH]; [done|].
    cbn [omap list_omap]. destruct (decide (n ∈ name <$> columns table)) as [Hn|Hn].
    + rewrite bool_decide_eq_true_2, filter_cons_True by done.
      destruct (column_present table n Hn) as (c & Hfind & _). rewrite Hfind.
      rewrite fmap_cons, IH. f_equal.
      apply find_Some_elem in Hfind as [_ Hc]. by apply bool_decide_eq_true in Hc.
    + by rewrite bool_decide_eq_false_2, filter_cons_False by done.
  - unfold _filter_features, from_arrays. cbv zeta. cbn [columns].
    induction feature_whitelist as [|n l IH]; [constructor|].
    cbn [omap list_omap]. destruct (decide (n ∈ name <$> columns table)) as [Hn|Hn].
    + rewrite bool_decide_eq_true_2 by done.
      destruct (column_present table n Hn) as (c & Hfind & Hcol). rewrite Hfind.
      constructor; [|done].
      apply find_Some_elem in Hfind as [_ Hc]. apply bool_decide_eq_true in Hc.
      by rewrite Hc.
    + by rewrite bool_decide_eq_false_2 by done.
  - unfold generate_partial_statistics_in_memory.
    destruct feature_whitelist as [|n l]; [done|].
    rewrite decide_False by done.
    destruct (decide (Forall _ (n :: l))) as [Hall|Hex].
    + rewrite (whitelisted_columns_present table (n :: l) Hall).
      cbn [mbind result_bind]. f_equal.
    + apply not_Forall_Exists in Hex; [|intros x; apply _].
      by rewrite (whitelisted_columns_absent table (n :: l) Hex).
  - done.
Qed.

End FeatureWhitelist.

(** ** Merging in groups *)
Section MergingInGroups.
Import statistics_pb2 arrow stats_impl.
Import _CombinerStatsGeneratorsCombineFn.
Context {Acc : Type}.
Variable MergeTables : list Table -> Table.

Lemma zip_star_lookup (parts : list (list Acc)) (i : nat) :
  parts <> [] ->
  zip_star parts !! i = mapM (fun p : list Acc => p !! i) parts.
Proof.
  induction parts as [|l parts IH]; [done|]. intros _.
  destruct parts as [|l' parts].
  - cbn [zip_star mapM]. rewrite list_lookup_fmap.
    by destruct (l !! i).
  - change (zip_star (l :: l' :: parts))
      with (zip_with cons l (zip_star (l' :: parts))).
    rewrite lookup_zip_with. rewrite IH by done.
    change (mapM (fun p : list Acc => p !! i) (l :: l' :: parts))
      with (x ← l !! i; k ← mapM (fun p : list Acc => p !! i) (l' :: parts);
            mret (x :: k)).
    destruct (l !! i); [|done]. cbn [mbind option_bind].
    by destruct (mapM _ (l' :: parts)).
Qed.

Lemma mapM_omap_lookup (group : list (Accumulator Acc)) (i n : nat) :
  Forall (fun a => length (partial_accumulators a) = n) group -> (i < n)%nat ->
  mapM (fun p : list Acc => p !! i) (partial_accumulators <$> group)
  = Some (omap (fun a => partial_accumulators a !! i) group).
Proof.
  intros Hall Hi. induction Hall as [|a group Ha Hgroup IH]; [done|].
  rewrite fmap_cons. cbn [mapM omap list_omap].
  destruct (lookup_lt_is_Some_2 (partial_accumulators a) i) as [x Hx]; [lia|].
  rewrite Hx. cbn [mbind option_bind]. rewrite IH. done.
Qed.

Lemma merge_pending_flushed (self : t Acc) (group : list (Accumulator Acc)) :
  0 < _desired_batch_size self ->
  Forall (flushed self) group ->
  forall result parts,
    input_tables result = [] -> curr_batch_size result = 0 ->
    foldl (merge_pending MergeTables self) (result, parts) group
    = (result, parts ++ (partial_accumulators <$> group)).
Proof.
  intros Hpos Hall. induction Hall as [|a group (Hlen & Ht & Hc) Hgroup IH];
    intros result parts Hrt Hrc.
  - cbn [foldl]. by rewrite app_nil_r.
  - cbn [foldl]. unfold merge_pending at 2.
    assert (Hsame : _maybe_do_batch MergeTables self
                      (mkAcc (partial_accumulators result)
                         (input_tables result ++ input_tables a)
                         (curr_batch_size result + curr_batch_size a)) false
                    = result).
    { unfold _maybe_do_batch. cbv zeta. cbn [curr_batch_size andb orb].
      rewrite Hrc, Hc, Hrt, Ht. rewrite Z.add_0_r, app_nil_r.
      assert ((0 >=? _desired_batch_size self) = false) as ->
        by (rewrite Z.geb_leb; apply Z.leb_gt; lia).
      destruct result as [p t c]. cbn in Hrt, Hrc. by subst. }
    rewrite Hsame, IH by done. rewrite fmap_cons.
    by rewrite <- app_assoc.
Qed.

Lemma merge_batch_flushed (self : t Acc) (group : list (Accumulator Acc))
    (result : Accumulator Acc) :
  0 < _desired_batch_size self ->
  group <> [] ->
  Forall (flushed self) group ->
  flushed self result ->
  let result' := merge_batch MergeTables self result group in
  flushed self result'
  /\ forall i gen,
       _generators self !! i = Some gen ->
       exists r,
         partial_accumulators result !! i = Some r
         /\ partial_accumulators result' !! i
            = Some (CombinerStatsGenerator.merge_accumulators gen
                      (r :: omap (fun a => partial_accumulators a !! i) group)).
Proof.
  intros Hpos Hne Hall (Hlen & Ht & Hc). cbv zeta. unfold merge_batch.
  rewrite (merge_pending_flushed self group Hpos Hall) by done.
  cbn [app]. unfold _for_each_generator2.
  assert (Hparts : partial_accumulators <$> group <> [])
    by (by destruct group).
  assert (Hgroup : Forall (fun a => length (partial_accumulators a)
                                    = length (_generators self)) group).
  { eapply Forall_impl; [exact Hall|]. by intros a (? & _). }
  assert (Hstar : length (zip_star (partial_accumulators <$> group))
                  = length (_generators self)).
  { apply Nat.le_antisymm.
    - apply Nat.nlt_ge. intros Hlt.
      destruct (lookup_lt_is_Some_2 (zip_star (partial_accumulators <$> group))
                  (length (_generators self))) as [x Hx]; [lia|].
      rewrite zip_star_lookup in Hx by done.
      destruct group as [|a group]; [done|]. rewrite fmap_cons in Hx.
      cbn [mapM] in Hx. apply Forall_cons in Hgroup as [Ha _].
      rewrite lookup_ge_None_2 in Hx by lia. done.
    - apply Nat.nlt_ge. intros Hlt.
      destruct (length (_generators self)) as [|n] eqn:En; [lia|].
      pose proof (zip_star_lookup (partial_accumulators <$> group) n Hparts)
        as Hl.
      rewrite (mapM_omap_lookup group n (S n)) in Hl by (done || lia).
      apply lookup_lt_Some in Hl. lia. }
  split.
  - split_and!; [|done|done]. cbn [partial_accumulators].
    rewrite !length_zip_with. lia.
  - intros i gen Hgen. cbn [partial_accumulators].
    pose proof (lookup_lt_Some _ _ _ Hgen) as Hi.
    destruct (lookup_lt_is_Some_2 (partial_accumulators result) i) as [r Hr];
      [lia|].
    exists r. split; [done|]. rewrite lookup_zip_with, Hgen.
    cbn [mbind option_bind]. rewrite lookup_zip_with, Hr.
    cbn [mbind option_bind]. rewrite zip_star_lookup by done.
    rewrite (mapM_omap_lookup group i (length (_generators self))) by done.
    done.
Qed.

Lemma merge_batches_flushed (self : t Acc)
    (groups : list (list (Accumulator Acc))) :
  0 < _desired_batch_size self ->
  Forall (fun group => group <> []) groups ->
  Forall (Forall (flushed self)) groups ->
  forall result before,
    flushed self result ->
    (forall i gen,
       _generators self !! i = Some gen ->
       partial_accumulators result !! i = Some (merged_in_groups gen i before)) ->
    let result' := foldl (merge_batch MergeTables self) result groups in
    flushed self result'
    /\ forall i gen,
         _generators self !! i = Some gen ->
         partial_accumulators result' !! i
         = Some (merged_in_groups gen i (before ++ groups)).
Proof.
  intros Hpos Hne Hall. revert Hne.
  induction Hall as [|group groups Hgroup Hgroups IH];
    intros Hne result before Hres Hbefore; cbv zeta.
  - cbn [foldl]. rewrite app_nil_r. done.
  - apply Forall_cons in Hne as [Hg Hne]. cbn [foldl].
    destruct (merge_batch_flushed self group result Hpos Hg Hgroup Hres)
      as [Hres' Hstep].
    destruct (IH Hne (merge_batch MergeTables self result group)
                (before ++ [group]) Hres') as [Hfinal Hlook].
    { intros i gen Hgen. destruct (Hstep i gen Hgen) as (r & Hr & ->).
      rewrite (Hbefore i gen Hgen) in Hr. injection Hr as <-.
      unfold merged_in_groups. by rewrite foldl_app. }
    split; [done|]. intros i gen Hgen. rewrite (Hlook i gen Hgen).
    by rewrite <- app_assoc.
Qed.

Lemma islice_batches_length {A} (n : nat) (l : list A) :
  forall fuel,
    Forall (fun group => (length group <= n)%nat) (islice_batches fuel n l).
Proof.
  intros fuel. revert l. induction fuel as [|fuel IH]; intros l;
    [destruct l; constructor|].
  destruct l as [|x l]; [constructor|].
  change (islice_batches (S fuel) n (x :: l))
    with (take n (x :: l) :: islice_batches fuel n (drop n (x :: l))).
  constructor; [|apply IH]. rewrite length_take. lia.
Qed.

(** X22: merge_accumulators of the batching wrapper merges in groups of at
    most 100 accumulators, taken in order. On accumulators without pending
    batches, the generator of index i merges, group after group, the result
    so far, which it gets first, with its accumulators of the group; the
    result has no pending batch, and merging no accumulator gives the fresh
    accumulator. *)
Theorem X22_merge_accumulators_merges_in_groups
    (generators : list (CombinerStatsGenerator.t Acc))
    (desired_batch_size : option Z)
    (accumulators : list (Accumulator Acc)) :
  let self := __init__ generators desired_batch_size in
  let groups :=
    islice_batches (length accumulators)
      _DEFAULT_DESIRED_MERGE_ACCUMULATOR_BATCH_SIZE accumulators in
  Forall (flushed self) accumulators ->
  concat groups = accumulators
  /\ Forall (fun group => (0 < length group <= 100)%nat) groups
  /\ merge_accumulators MergeTables self accumulators
     = mkAcc (imap (fun i gen => merged_in_groups gen i groups) generators)
         [] 0.
Proof.
  intros self groups Hall.
  pose proof (init_desired_positive generators desired_batch_size) as Hpos.
  fold self in Hpos.
  assert (Hconcat : concat groups = accumulators).
  { apply islice_batches_concat; [|done].
    unfold _DEFAULT_DESIRED_MERGE_ACCUMULATOR_BATCH_SIZE. lia. }
  assert (Hne : Forall (fun group : list (Accumulator Acc) => group <> [])
                  groups).
  { apply islice_batches_nonempty.
    unfold _DEFAULT_DESIRED_MERGE_ACCUMULATOR_BATCH_SIZE. lia. }
  split_and!; [done| |].
  - pose proof (islice_batches_length
                  _DEFAULT_DESIRED_MERGE_ACCUMULATOR_BATCH_SIZE accumulators
                  (length accumulators)) as Hlen.
    fold groups in Hlen. clear -Hlen Hne.
    induction Hlen as [|g gs Hg Hgs IH]; [constructor|].
    apply Forall_cons in Hne as [Hg' Hne]. constructor; [|by apply IH].
    unfold _DEFAULT_DESIRED_MERGE_ACCUMULATOR_BATCH_SIZE in Hg.
    destruct g; [done|]. simpl in *. lia.
  - unfold merge_accumulators. fold groups.
    destruct (merge_batches_flushed self groups Hpos Hne) with
      (result := create_accumulator self)
      (before := @nil (list (Accumulator Acc)))
      as [(Hlen & Ht & Hc) Hlook].
    { apply Forall_concat. by rewrite Hconcat. }
    { unfold flushed, create_accumulator. cbn. by rewrite length_fmap. }
    { intros i gen Hgen. unfold create_accumulator. cbn [partial_accumulators].
      rewrite list_lookup_fmap. change (_generators self) with generators in Hgen.
      cbn [_generators self __init__]. by rewrite Hgen. }
    cbn [app] in Hlook.
    destruct (foldl (merge_batch MergeTables self) (create_accumulator self)
                groups) as [ps ts c].
    cbn [partial_accumulators input_tables curr_batch_size] in *. subst ts c.
    f_equal. apply list_eq. intros i. rewrite list_lookup_imap.
    change (_generators self) with generators in Hlook, Hlen.
    destruct (generators !! i) as [gen|] eqn:Hgen.
    + by rewrite (Hlook i gen Hgen).
    + cbn. apply lookup_ge_None. apply lookup_ge_None in Hgen. lia.
Qed.

End MergingInGroups.

Section MergingInGroupsExample.
Import stats_impl.
Import _CombinerStatsGeneratorsCombineFn.

Lemma X22_merge_accumulators_merges_in_groups_witness :
  let self := __init__ [examples.NumExamples] None in
  let accumulators := [mkAcc [(2, 0)] [] 0; mkAcc [(1, 0)] [] 0] in
  let groups :=
    islice_batches (length accumulators)
      _DEFAULT_DESIRED_MERGE_ACCUMULATOR_BATCH_SIZE accumulators in
  concat groups = accumulators
  /\ Forall (fun group => (0 < length group <= 100)%nat) groups
  /\ merge_accumulators merge.MergeTables self accumulators
     = mkAcc (imap (fun i gen => merged_in_groups gen i groups)
                [examples.NumExamples])
         [] 0.
Proof.
  intros self accumulators groups.
  apply (X22_merge_accumulators_merges_in_groups merge.MergeTables
           [examples.NumExamples] None accumulators).
  repeat constructor.
Defined.

Lemma merge_two_flushed_accumulators :
  merge_accumulators merge.MergeTables (__init__ [examples.NumExamples] None)
    [mkAcc [(2, 0)] [] 0; mkAcc [(1, 0)] [] 0]
  = mkAcc [(3, 0)] [] 0.
Proof. reflexivity. Qed.

End MergingInGroupsExample.

(** ** The statistics of a table *)
Section TableStatistics.
Import statistics_pb2 arrow.
Import top_k_uniques_combiner_stats_generator.

Lemma make_feature_stats_proto_type fp l wl cat ntv thr wthr nrb :
  type (_make_feature_stats_proto fp l wl cat ntv thr wthr nrb).1
  = if cat then INT else STRING.
Proof.
  unfold _make_feature_stats_proto.
  destruct (topk_stats_spec fp l cat false ntv thr nrb)
    as (_ & _ & _ & Ht & _).
  destruct (top_k_uniques_stats_generator.make_feature_stats_proto_with_topk_stats
              fp l cat false ntv thr nrb) as [result log].
  cbn [fst] in Ht.
  destruct wl as [[|x wl]|]; try done.
  by destruct (top_k_uniques_stats_generator.make_feature_stats_proto_with_topk_stats
                 fp (x :: wl) cat true ntv wthr nrb).
Qed.

Lemma extract_output_unweighted (self : TopKUniquesCombinerStatsGenerator)
    (accumulator : gmap FeaturePath _ValueCounts) :
  (forall fp value_counts,
     accumulator !! fp = Some value_counts ->
     weighted_counts value_counts = ∅) ->
  exists log,
    extract_output self accumulator
    = Ok (mkDatasetFeatureStatistics 0
            ((fun kv : FeaturePath * list FeatureValueCount =>
                (_make_feature_stats_proto kv.1 kv.2 None
                   (bool_decide (kv.1 ∈ _categorical_features self))
                   (_num_top_values self) (_frequency_threshold self)
                   (_weighted_frequency_threshold self)
                   (_num_rank_histogram_buckets self)).1)
               <$> map_to_list
                     (omap (fun value_counts =>
                              if truthy (unweighted_counts value_counts)
                              then Some (items (unweighted_counts value_counts))
                              else None) accumulator)),
          log).
Proof.
  intros Hw. unfold extract_output. cbv zeta.
  set (u := omap _ accumulator).
  assert (Hempty : omap (fun value_counts =>
                           if truthy (weighted_counts value_counts)
                           then Some (items (weighted_counts value_counts))
                           else None) accumulator
                   = (∅ : gmap FeaturePath (list FeatureValueCount))).
  { apply map_eq. intros fp. rewrite lookup_omap, lookup_empty.
    destruct (accumulator !! fp) as [vc|] eqn:E; [|done]. simpl.
    rewrite (Hw fp vc E). done. }
  rewrite Hempty.
  unfold _make_dataset_feature_stats_proto_with_multiple_features.
  set (g := fun kv : FeaturePath * list FeatureValueCount =>
              _make_feature_stats_proto kv.1 kv.2 None
                (bool_decide (kv.1 ∈ _categorical_features self))
                (_num_top_values self) (_frequency_threshold self)
                (_weighted_frequency_threshold self)
                (_num_rank_histogram_buckets self)).
  rewrite (mapM_result_Ok _ g).
  - cbn [mbind result_bind]. eexists. f_equal. f_equal. f_equal.
    by rewrite <- list_fmap_compose.
  - apply Forall_forall. by intros [k v] _.
Qed.

Lemma tally_empty (values : list FeatureValue) :
  tally values = ∅ <-> values = [].
Proof.
  split; [|by intros ->]. intros H. destruct values as [|v values]; [done|].
  pose proof (tally_lookup (v :: values) v) as Hv.
  rewrite H, lookup_empty, decide_True in Hv by left. done.
Qed.

Lemma length_items_tally (values : list FeatureValue) :
  length (items (tally values)) = length (remove_dups values).
Proof.
  rewrite length_items.
  assert (Hdom : dom (tally values) = list_to_set (remove_dups values)).
  { apply set_eq. intros v. rewrite elem_of_dom, elem_of_list_to_set.
    rewrite elem_of_remove_dups, tally_lookup.
    destruct (decide (v ∈ values)); split; try done. }
  rewrite Hdom. apply size_list_to_set, NoDup_remove_dups.
Qed.

(** X23: the statistics of a table, computed without a weight feature by
    add_input on a fresh accumulator followed by extract_output, which both
    return. There is exactly one entry for every feature path with a column
    that is categorical or of string type and that holds a value. Its type is
    INT for a categorical path and STRING otherwise, [unique] is the number
    of distinct values of the path, there are no weighted statistics, and
    every top value and every bucket of the rank histogram carries the label
    of a value of the path with the number of its occurrences, which reaches
    the frequency threshold; the top values are at most num_top_values. *)
Theorem X23_statistics_of_a_table
    (categorical_features : gset FeaturePath)
    (num_top_values frequency_threshold weighted_frequency_threshold
       num_rank_histogram_buckets : Z) (table : Table) :
  let self := mkGenerator categorical_features None num_top_values
                frequency_threshold weighted_frequency_threshold
                num_rank_histogram_buckets in
  let occurrences := fun (values : list FeatureValue) (v : FeatureValue) =>
    Z.of_nat (count_occ FeatureValue_eq_dec values v) in
  exists accumulator stats log,
    add_input self create_accumulator table = Ok accumulator
    /\ extract_output self accumulator = Ok (stats, log)
    /\ NoDup (path <$> features stats)
    /\ (forall feature_path,
          feature_path ∈ path <$> features stats
          <-> exists values,
                values_of self (columns table) feature_path = Some values
                /\ values <> [])
    /\ forall f,
         f ∈ features stats ->
         exists values,
           values_of self (columns table) (path f) = Some values
           /\ type f = (if bool_decide (path f ∈ categorical_features)
                        then INT else STRING)
           /\ unique (get_string_stats f)
              = Z.of_nat (length (remove_dups values))
           /\ weighted_string_stats (get_string_stats f) = None
           /\ (length (top_values (get_string_stats f))
               <= Z.to_nat num_top_values)%nat
           /\ Forall (fun e => exists v,
                          value e = label_of v /\ v ∈ values
                          /\ frequency e = occurrences values v
                          /\ frequency_threshold <= frequency e)
                (top_values (get_string_stats f))
           /\ Forall (fun b => exists v,
                          label b = label_of v /\ v ∈ values
                          /\ sample_count b = occurrences values v
                          /\ frequency_threshold <= sample_count b)
                (rank_histogram (get_string_stats f)).
Proof.
  intros self occurrences.
  destruct (add_input_unweighted self table eq_refl) as (acc & Hrun & Hacc).
  destruct (extract_output_unweighted self acc) as [log Hout].
  { intros fp vc Hvc. rewrite Hacc in Hvc.
    destruct (values_of self (columns table) fp); [|done].
    by injection Hvc as <-. }
  set (u := omap (fun value_counts =>
                    if truthy (unweighted_counts value_counts)
                    then Some (items (unweighted_counts value_counts))
                    else None) acc) in Hout.
  assert (Hu : forall fp l,
            u !! fp = Some l
            <-> exists values, values_of self (columns table) fp = Some values
                               /\ values <> [] /\ l = items (tally values)).
  { intros fp l. unfold u. rewrite lookup_omap, Hacc.
    destruct (values_of self (columns table) fp) as [values|]; simpl.
    - destruct (truthy (tally values)) eqn:E.
      + apply truthy_true in E. rewrite tally_empty in E. split.
        * intros [= <-]. eauto.
        * intros (values' & [= <-] & _ & ->). done.
      + split; [done|]. intros (values' & [= <-] & Hne & _).
        destruct Hne. apply tally_empty.
        unfold truthy in E. apply negb_false_iff, bool_decide_eq_true in E.
        done.
    - split; [done|]. by intros (? & ? & _). }
  set (g := fun kv : FeaturePath * list FeatureValueCount =>
              (_make_feature_stats_proto kv.1 kv.2 None
                 (bool_decide (kv.1 ∈ _categorical_features self))
                 (_num_top_values self) (_frequency_threshold self)
                 (_weighted_frequency_threshold self)
                 (_num_rank_histogram_buckets self)).1) in Hout.
  assert (Hpaths : path <$> (g <$> map_to_list u) = (map_to_list u).*1).
  { rewrite <- list_fmap_compose. apply list_fmap_ext. intros i x _.
    simpl. apply make_feature_stats_proto_path. }
  eexists acc, _, log. split; [exact Hrun|]. split; [exact Hout|].
  cbn [features]. split_and!.
  - rewrite Hpaths. apply NoDup_fst_map_to_list.
  - intros fp. rewrite Hpaths, list_elem_of_fmap. split.
    + intros ([k l] & -> & Hin). apply elem_of_map_to_list in Hin.
      apply Hu in Hin as (values & Hv & Hne & _). eauto.
    + intros (values & Hv & Hne). exists (fp, items (tally values)).
      split; [done|]. apply elem_of_map_to_list. apply Hu. eauto.
  - intros f ([k l] & -> & Hin)%list_elem_of_fmap.
    apply elem_of_map_to_list in Hin.
    apply Hu in Hin as (values & Hv & Hne & ->).
    unfold g. cbn [fst snd]. rewrite make_feature_stats_proto_path.
    exists values. split; [done|].
    rewrite make_feature_stats_proto_type.
    destruct (make_feature_stats_proto_spec k (items (tally values)) None
                (bool_decide (k ∈ _categorical_features self))
                (_num_top_values self) (_frequency_threshold self)
                (_weighted_frequency_threshold self)
                (_num_rank_histogram_buckets self))
      as (Htv & Hrh & Hun & Hws).
    cbv zeta in Htv, Hrh, Hun, Hws.
    assert (Hkept : Forall (fun vc => feature_value vc ∈ values
                                      /\ count vc
                                         = occurrences values (feature_value vc)
                                      /\ frequency_threshold <= count vc)
                      (ranked frequency_threshold (items (tally values)))).
    { eapply Forall_impl; [apply ranked_Forall|]. intros vc [Hvc Hthr].
      apply items_lookup in Hvc. rewrite tally_lookup in Hvc.
      destruct (decide (feature_value vc ∈ values)); [|done].
      injection Hvc as Hvc. done. }
    split_and!; try done.
    + rewrite Hun. by rewrite length_items_tally.
    + rewrite Htv, length_fmap, length_take. cbn. lia.
    + rewrite Htv. apply Forall_fmap, Forall_take.
      eapply Forall_impl; [exact Hkept|]. intros vc (? & ? & ?).
      exists (feature_value vc). done.
    + rewrite Hrh. apply Forall_forall. intros b Hb.
      apply list_elem_of_lookup in Hb as [i Hb].
      rewrite list_lookup_imap in Hb.
      destruct (take _ _ !! i) as [vc|] eqn:E; [|done].
      injection Hb as <-. apply lookup_take_Some in E as [E _].
      rewrite Forall_forall in Hkept.
      destruct (Hkept vc) as (? & ? & ?); [by eapply list_elem_of_lookup_2|].
      exists (feature_value vc). done.
Qed.

End TableStatistics.
